(** * Urban Wheels: the request-governance layer

    A shallow embedding of [src/lib/redis/client.ts], [src/lib/redis/rate-limit.ts],
    [src/lib/redis/cache.ts] and [src/middleware.ts], and the properties of
    the cache and of the rate limiter on both of their backends: the
    in-process maps and the remote key-value store.

    JavaScript numbers are modelled as [Z] (all the quantities involved are
    integers: milliseconds, seconds, counts), [Map]s as [gmap string _],
    module-level variables as fields of one [World] record threaded through
    a state-and-exception monad. A number that is not an integer has no
    counterpart: [rateLimit] is embedded for [windowInSeconds <> 0], where
    its divisions are integer divisions, and the statements about [reset]
    say so. *)

From Stdlib Require Import ZArith Lia Ascii String DecimalString DecimalZ DecimalPos.
From stdpp Require Import gmap strings list fin_maps.

Local Open Scope Z_scope.

(** ** Data *)

(** [env] of [@/lib/env]: the three settings [client.ts] reads. *)
Module Env.
Record t := mk {
  USE_REDIS : bool;
  UPSTASH_REDIS_REST_URL : option string;
  UPSTASH_REDIS_REST_TOKEN : option string;
}.
End Env.

(** A [Redis] client object. Object identity is kept as [serial], the number
    of clients constructed before this one. *)
Module Redis.
Record t := mk {
  url : string;
  token : string;
  serial : nat;
}.
End Redis.

Module RateLimitConfig.
Record t := mk {
  limit : Z;
  windowInSeconds : Z;
  keyPrefix : option string;
}.
End RateLimitConfig.

Module RateLimitResult.
Record t := mk {
  success : bool;
  remaining : Z;
  reset : Z;
  limit : Z;
}.
End RateLimitResult.

Module CacheConfig.
Record t := mk {
  ttl : option Z;
  keyPrefix : option string;
}.
End CacheConfig.

(** The values of [memoryStore]: [{ count: number; reset: number }]. *)
Module Counter.
Record t := mk {
  count : Z;
  reset : Z;
}.
End Counter.

(** The values of [memoryCache]: [{ data: unknown; expiry: number }]. *)
Module CacheEntry.
Record t (T : Type) := mk {
  data : T;
  expiry : Z;
}.
Arguments mk {T} _ _.
Arguments data {T} _.
Arguments expiry {T} _.
End CacheEntry.

(** One key of the remote store: its string value and, when it has a time to
    live, the instant (in milliseconds) at which it expires. *)
Module Stored.
Record t := mk {
  payload : string;
  expireAt : option Z;
}.
End Stored.

(** The commands [rate-limit.ts] queues on a pipeline. *)
Inductive Command :=
  | INCR (key : string)
  | EXPIRE (key : string) (seconds : Z).

(** What the code takes from its platform, on the values of type [T] that
    are cached.
    - [ToString v] is [String(v)], the text [JSON.parse] works on when it is
      handed a value;
    - [ToBoolean v] is [Boolean(v)], the test of [if (cached)];
    - [is_number v] is [typeof v === "number"];
    - [url_accepted url] tells whether [new Redis({ url, token })] of
      [@upstash/redis] accepts [url]: the constructor throws [UrlError] for
      a URL that is not an [http] or [https] one. *)
Class Platform (T : Type) := {
  ToString : T -> string;
  ToBoolean : T -> bool;
  is_number : T -> bool;
  url_accepted : string -> bool;
}.

(** What the client hands back for the text kept under a key: the value the
    text decodes to, or the text itself when it does not decode. *)
Inductive Reply (T : Type) :=
  | Decoded (v : T)
  | Raw (s : string).
Arguments Decoded {T} _.
Arguments Raw {T} _.

(** What [middleware.ts] reads of a [NextRequest]: [nextUrl.pathname] and the
    headers. A [Headers] object is kept as the map from its lower-case
    header names to their values, so that [headers.get(name)] for a
    lower-case [name] is a lookup. *)
Module NextRequest.
Record t := mk {
  pathname : string;
  headers : gmap string string;
}.
End NextRequest.

(** What [middleware.ts] builds: [NextResponse.next()] with the headers set
    on it, or [NextResponse.json({ error }, { status, headers })]. *)
Module NextResponse.
Inductive t :=
  | next (headers : list (string * string))
  | json (error : string) (status : Z) (headers : list (string * string)).
End NextResponse.

(** The process and its collaborators.
    - [ticks]: how many times a clock has been read so far;
    - [console]: the messages given to [console.warn], oldest first;
    - [redis]: the module variable [redis] of [client.ts];
    - [constructed]: how many times [new Redis] has run;
    - [upstash]: the content of the remote store;
    - [memoryStore], [memoryCache]: the two module-level [Map]s;
    - [invoked]: how many times a [fetcher] has been called by [getOrSet]. *)
Record World (T : Type) := mkWorld {
  ticks : nat;
  console : list string;
  redis : option Redis.t;
  constructed : nat;
  upstash : gmap string Stored.t;
  memoryStore : gmap string Counter.t;
  memoryCache : gmap string (CacheEntry.t T);
  invoked : nat;
}.
Arguments mkWorld {T} _ _ _ _ _ _ _ _.
Arguments ticks {T} _.
Arguments console {T} _.
Arguments redis {T} _.
Arguments constructed {T} _.
Arguments upstash {T} _.
Arguments memoryStore {T} _.
Arguments memoryCache {T} _.
Arguments invoked {T} _.

(** ** Computations: state and exceptions *)

Inductive Completion (A : Type) :=
  | Return (a : A)
  | Throw (e : string).
Arguments Return {A} _.
Arguments Throw {A} _.

Definition M (T A : Type) : Type := World T -> Completion A * World T.

#[global] Instance M_ret {T} : MRet (M T) :=
  fun A a w => (Return a, w).

#[global] Instance M_bind {T} : MBind (M T) :=
  fun A B f m w =>
    match m w with
    | (Return a, w') => f a w'
    | (Throw e, w') => (Throw e, w')
    end.

Definition throw {T A} (e : string) : M T A :=
  fun w => (Throw e, w).

(** [try { m }] with the outcome handed to the continuation. *)
Definition attempt {T A} (m : M T A) : M T (Completion A) :=
  fun w => let '(r, w') := m w in (Return r, w').

(** A primitive step, given as a function of the world. *)
Definition step {T A} (f : World T -> Completion A * World T) : M T A := f.

Definition modify {T} (f : World T -> World T) : M T unit :=
  fun w => (Return tt, f w).

Definition gets {T A} (f : World T -> A) : M T A :=
  fun w => (Return (f w), w).

Definition with_ticks {T} (n : nat) (w : World T) : World T :=
  mkWorld n (console w) (redis w) (constructed w) (upstash w)
          (memoryStore w) (memoryCache w) (invoked w).

Definition with_console {T} (c : list string) (w : World T) : World T :=
  mkWorld (ticks w) c (redis w) (constructed w) (upstash w)
          (memoryStore w) (memoryCache w) (invoked w).

Definition with_redis {T} (r : option Redis.t) (n : nat) (w : World T) : World T :=
  mkWorld (ticks w) (console w) r n (upstash w)
          (memoryStore w) (memoryCache w) (invoked w).

Definition with_upstash {T} (db : gmap string Stored.t) (w : World T) : World T :=
  mkWorld (ticks w) (console w) (redis w) (constructed w) db
          (memoryStore w) (memoryCache w) (invoked w).

Definition with_memoryStore {T} (m : gmap string Counter.t) (w : World T) : World T :=
  mkWorld (ticks w) (console w) (redis w) (constructed w) (upstash w)
          m (memoryCache w) (invoked w).

Definition with_memoryCache {T} (m : gmap string (CacheEntry.t T)) (w : World T) : World T :=
  mkWorld (ticks w) (console w) (redis w) (constructed w) (upstash w)
          (memoryStore w) m (invoked w).

Definition with_invoked {T} (n : nat) (w : World T) : World T :=
  mkWorld (ticks w) (console w) (redis w) (constructed w) (upstash w)
          (memoryStore w) (memoryCache w) n.

(** ** Strings *)

(** JavaScript truthiness of a string. *)
Definition truthy (s : string) : bool :=
  match s with EmptyString => false | String _ _ => true end.

Definition truthy_opt (o : option string) : bool :=
  match o with Some s => truthy s | None => false end.

(** [s.startsWith(p)]. *)
Definition startsWith (s p : string) : bool := String.prefix p s.

(** [s.replace(pat, rep)] for a string pattern: the first occurrence only. *)
Fixpoint replace (pat rep s : string) : string :=
  if String.prefix pat s then rep +:+ String.substring (String.length pat) (String.length s - String.length pat) s
  else match s with
       | EmptyString => EmptyString
       | String c s' => String c (replace pat rep s')
       end.

(** [s.includes(sub)]. *)
Fixpoint includes (s sub : string) : bool :=
  String.prefix sub s ||
  match s with
  | EmptyString => false
  | String _ s' => includes s' sub
  end.

(** [s.split(sep)] for a separator of one character. *)
Fixpoint split_by (sep : ascii) (s : string) : list string :=
  match s with
  | EmptyString => [EmptyString]
  | String c s' =>
      if Ascii.eqb c sep then EmptyString :: split_by sep s'
      else match split_by sep s' with
           | [] => [String c EmptyString]
           | x :: xs => String c x :: xs
           end
  end.

(** The white space of [trim] among the characters of a header value, whose
    code points are below 256: tab, line feed, vertical tab, form feed,
    carriage return, space and no-break space. *)
Definition is_space (c : ascii) : bool :=
  let n := nat_of_ascii c in
  ((9 <=? n) && (n <=? 13) || (n =? 32) || (n =? 160))%nat.

Fixpoint trimStart (s : string) : string :=
  match s with
  | EmptyString => EmptyString
  | String c s' => if is_space c then trimStart s' else s
  end.

Fixpoint trimEnd (s : string) : string :=
  match s with
  | EmptyString => EmptyString
  | String c s' =>
      match trimEnd s' with
      | EmptyString => if is_space c then EmptyString else String c EmptyString
      | String d t => String c (String d t)
      end
  end.

(** [s.trim()]. *)
Definition trim (s : string) : string := trimEnd (trimStart s).

(** Decimal integers, as the remote store keeps counters. *)
Definition string_of_Z (z : Z) : string := NilZero.string_of_int (Z.to_int z).

Definition Z_of_string (s : string) : option Z := Z.of_int <$> NilZero.int_of_string s.

(** The integer written by [s] in plain decimal notation, as [string_of_Z]
    writes it: no sign but [-], no leading zero, no blank. *)
Definition decimal (s : string) : option Z :=
  match Z_of_string s with
  | Some n => if String.eqb (string_of_Z n) s then Some n else None
  | None => None
  end.

Definition int64_min : Z := - 2 ^ 63.
Definition int64_max : Z := 2 ^ 63 - 1.

(** The 64-bit signed integer written by [s], as [INCR] reads a value. *)
Definition int64_of_string (s : string) : option Z :=
  match decimal s with
  | Some n => if (int64_min <=? n) && (n <=? int64_max) then Some n else None
  | None => None
  end.

(** ** The remote store

    The store is an external collaborator, reached through [GET], [SETEX],
    [DEL], [INCR], [EXPIRE] and [KEYS]. Its model follows the documented
    behaviour of these commands: a key with a time to live is visible while
    the store's clock is strictly before its expiry instant, and is absent
    from then on; expired keys are dropped lazily. Every command is
    answered: a store that cannot be reached is outside the model. *)

Definition live (now : Z) (e : Stored.t) : bool :=
  match Stored.expireAt e with
  | None => true
  | Some t => now <? t
  end.

Definition lookup_live (now : Z) (db : gmap string Stored.t) (key : string) : option Stored.t :=
  match db !! key with
  | Some e => if live now e then Some e else None
  | None => None
  end.

(** Glob patterns of [KEYS]: [*], [?], [[...]] classes with ranges and [^],
    and the backslash escape. *)
Inductive GlobToken :=
  | GStar
  | GAny
  | GLit (c : ascii)
  | GClass (negated : bool) (body : list ascii).

Definition class_start (body : list ascii) : GlobToken :=
  match body with
  | "^"%char :: body' => GClass true body'
  | _ => GClass false body
  end.

(** [cls] is [Some acc] inside a bracket, [acc] the class read so far,
    last character first. *)
Fixpoint glob_tokens (cls : option (list ascii)) (p : string) : list GlobToken :=
  match cls, p with
  | None, EmptyString => []
  | Some acc, EmptyString => [class_start (rev acc)]
  | Some acc, String "]" p' => class_start (rev acc) :: glob_tokens None p'
  | Some acc, String c p' => glob_tokens (Some (c :: acc)) p'
  | None, String "*" p' => GStar :: glob_tokens None p'
  | None, String "?" p' => GAny :: glob_tokens None p'
  | None, String "[" p' => glob_tokens (Some []) p'
  | None, String "\" (String c p') => GLit c :: glob_tokens None p'
  | None, String c p' => GLit c :: glob_tokens None p'
  end.

Definition ascii_leb (a b : ascii) : bool := (nat_of_ascii a <=? nat_of_ascii b)%nat.

Fixpoint class_member (body : list ascii) (c : ascii) : bool :=
  match body with
  | [] => false
  | lo :: "-"%char :: hi :: body' =>
      (ascii_leb lo c && ascii_leb c hi) || (ascii_leb hi c && ascii_leb c lo)
      || class_member body' c
  | x :: body' => Ascii.eqb x c || class_member body' c
  end.

Definition token_accepts (t : GlobToken) (c : ascii) : bool :=
  match t with
  | GStar => true
  | GAny => true
  | GLit x => Ascii.eqb x c
  | GClass negated body => xorb negated (class_member body c)
  end.

Fixpoint tokens_match (ts : list GlobToken) (s : string) : bool :=
  match ts with
  | [] => match s with EmptyString => true | String _ _ => false end
  | GStar :: ts' =>
      (fix star (s : string) : bool :=
         tokens_match ts' s ||
         match s with
         | EmptyString => false
         | String _ s' => star s'
         end) s
  | t :: ts' =>
      match s with
      | EmptyString => false
      | String c s' => token_accepts t c && tokens_match ts' s'
      end
  end.

Definition glob_match (pattern key : string) : bool :=
  tokens_match (glob_tokens None pattern) key.

(** The commands, as functions of the store's clock and content. A failing
    command leaves the content as it was. *)
Definition store_GET (now : Z) (db : gmap string Stored.t) (key : string) : option string :=
  Stored.payload <$> lookup_live now db key.

Definition store_SETEX (now : Z) (db : gmap string Stored.t) (key : string) (seconds : Z)
    (value : string) : Completion unit * gmap string Stored.t :=
  if seconds <=? 0 then (Throw "ERR invalid expire time in 'setex' command", db)
  else (Return tt, <[key := Stored.mk value (Some (now + seconds * 1000))]> db).

Definition store_DEL (now : Z) (db : gmap string Stored.t) (keys : list string)
    : Z * gmap string Stored.t :=
  (Z.of_nat (length (filter (fun k => is_Some (lookup_live now db k)) keys)),
   foldr delete db keys).

Definition store_INCR (now : Z) (db : gmap string Stored.t) (key : string)
    : Completion Z * gmap string Stored.t :=
  match lookup_live now db key with
  | None => (Return 1, <[key := Stored.mk (string_of_Z 1) None]> db)
  | Some e =>
      match int64_of_string (Stored.payload e) with
      | Some n =>
          if n <? int64_max then
            (Return (n + 1),
             <[key := Stored.mk (string_of_Z (n + 1)) (Stored.expireAt e)]> db)
          else (Throw "ERR increment or decrement would overflow", db)
      | None => (Throw "ERR value is not an integer or out of range", db)
      end
  end.

Definition store_EXPIRE (now : Z) (db : gmap string Stored.t) (key : string) (seconds : Z)
    : Z * gmap string Stored.t :=
  match lookup_live now db key with
  | None => (0, db)
  | Some e =>
      if seconds <=? 0 then (1, delete key db)
      else (1, <[key := Stored.mk (Stored.payload e) (Some (now + seconds * 1000))]> db)
  end.

Definition store_KEYS (now : Z) (db : gmap string Stored.t) (pattern : string) : list string :=
  (map_to_list (filter (fun kv => live now kv.2 = true /\ glob_match pattern kv.1 = true) db)).*1.

Section Program.

Context {T : Type} {platform : Platform T}.

(** [JSON.stringify] and [JSON.parse] on the cached values; [parse] is [None]
    where [JSON.parse] throws. *)
Variable stringify : T -> string.
Variable parse : string -> option T.

Variable env : Env.t.

(** [clock n] is the value of the [n]-th reading of the clock, in
    milliseconds since the epoch. [Date.now()] and the remote store read the
    same clock, one reading per call and per command. *)
Variable clock : nat -> Z.

Definition Date_now : M T Z :=
  step (fun w => (Return (clock (ticks w)), with_ticks (S (ticks w)) w)).

Definition console_warn (msg : string) : M T unit :=
  modify (fun w => with_console (console w ++ [msg]) w).

(** *** client.ts *)

(** [new Redis({ url, token })]: a client, or [UrlError] for a URL that the
    constructor does not accept. *)
Definition new_Redis (url token : string) : M T Redis.t :=
  if url_accepted url then
    step (fun w =>
      let r := Redis.mk url token (constructed w) in
      (Return r, with_redis (redis w) (S (constructed w)) w))
  else throw "UrlError".

Definition getRedis : M T (option Redis.t) :=
  if negb (Env.USE_REDIS env) then mret None
  else if negb (truthy_opt (Env.UPSTASH_REDIS_REST_URL env))
          || negb (truthy_opt (Env.UPSTASH_REDIS_REST_TOKEN env)) then
    console_warn "Redis is enabled but missing UPSTASH_REDIS_REST_URL or UPSTASH_REDIS_REST_TOKEN";;
    mret None
  else
    current ← gets redis;
    match current with
    | None =>
        r ← new_Redis (default "" (Env.UPSTASH_REDIS_REST_URL env))
                      (default "" (Env.UPSTASH_REDIS_REST_TOKEN env));
        modify (fun w => with_redis (Some r) (constructed w) w);;
        gets redis
    | Some _ => gets redis
    end.

Definition isRedisEnabled : bool :=
  Env.USE_REDIS env
  && truthy_opt (Env.UPSTASH_REDIS_REST_URL env)
  && truthy_opt (Env.UPSTASH_REDIS_REST_TOKEN env).

(** *** The client's methods: one round trip, one reading of the store's clock *)

(** The client decodes what the store answers before it hands it over
    ([automaticDeserialization], on unless the constructor is told
    otherwise): the text goes through [JSON.parse]; a number that does not
    print back as the text, and a text that [JSON.parse] rejects, are
    handed over as the text. *)
Definition parseResponse (raw : string) : Reply T :=
  match parse raw with
  | Some v =>
      if is_number v && negb (String.eqb (ToString v) raw) then Raw raw
      else Decoded v
  | None => Raw raw
  end.

(** [redis.get(key)]: [null] for a key that is not there. *)
Definition redis_get (h : Redis.t) (key : string) : M T (option (Reply T)) :=
  now ← Date_now;
  gets (fun w => parseResponse <$> store_GET now (upstash w) key).

(** [if (cached)] on what [redis.get] returned. *)
Definition truthy_reply (cached : option (Reply T)) : bool :=
  match cached with
  | Some (Decoded v) => ToBoolean v
  | Some (Raw s) => truthy s
  | None => false
  end.

(** [JSON.parse(cached)] on what [redis.get] returned: [JSON.parse] works
    on [String(cached)]; [None] where it throws. *)
Definition JSON_parse (cached : option (Reply T)) : option T :=
  match cached with
  | Some (Decoded v) => parse (ToString v)
  | Some (Raw s) => parse s
  | None => parse "null"
  end.

Definition redis_setex (h : Redis.t) (key : string) (seconds : Z) (value : string) : M T unit :=
  now ← Date_now;
  step (fun w =>
    let '(r, db) := store_SETEX now (upstash w) key seconds value in
    (r, with_upstash db w)).

Definition redis_del (h : Redis.t) (keys : list string) : M T Z :=
  now ← Date_now;
  step (fun w =>
    let '(n, db) := store_DEL now (upstash w) keys in
    (Return n, with_upstash db w)).

(** [redis.keys(pattern)]: the matching keys, handed over as the text they
    are, which is what the client does with a text that is not JSON. *)
Definition redis_keys (h : Redis.t) (pattern : string) : M T (list string) :=
  now ← Date_now;
  gets (fun w => store_KEYS now (upstash w) pattern).

Definition run_command (c : Command) : M T Z :=
  now ← Date_now;
  step (fun w =>
    match c with
    | INCR key =>
        let '(r, db) := store_INCR now (upstash w) key in
        (r, with_upstash db w)
    | EXPIRE key seconds =>
        let '(n, db) := store_EXPIRE now (upstash w) key seconds in
        (Return n, with_upstash db w)
    end).

(** [pipeline.exec()]: the queued commands run in order, each on its own;
    the call throws when one of them failed. *)
Fixpoint pipeline_exec (h : Redis.t) (cmds : list Command) : M T (list Z) :=
  match cmds with
  | [] => mret []
  | c :: cs =>
      r ← attempt (run_command c);
      rs ← attempt (pipeline_exec h cs);
      match r, rs with
      | Return x, Return xs => mret (x :: xs)
      | Throw e, _ => throw e
      | _, Throw e => throw e
      end
  end.

(** *** rate-limit.ts *)

Definition cleanupMemoryStore : M T unit :=
  now ← Date_now;
  modify (fun w =>
    with_memoryStore (filter (fun kv => ¬ (Counter.reset kv.2 < now)) (memoryStore w)) w).

(** [Math.floor(x / y)] is [x / y] on integers with [y <> 0]; with
    [windowInSeconds = 0] the source computes [NaN] for [windowStart] and
    [reset], which [Z] does not have. *)
Definition rateLimit (identifier : string) (config : RateLimitConfig.t)
    : M T RateLimitResult.t :=
  let limit := RateLimitConfig.limit config in
  let windowInSeconds := RateLimitConfig.windowInSeconds config in
  let keyPrefix := default "rl" (RateLimitConfig.keyPrefix config) in
  let key := keyPrefix +:+ ":" +:+ identifier in
  ms ← Date_now;
  let now := ms / 1000 in
  let windowStart := now / windowInSeconds * windowInSeconds in
  let reset := windowStart + windowInSeconds in
  redis ← getRedis;
  match redis with
  | Some redis =>
      results ← pipeline_exec redis [INCR key; EXPIRE key windowInSeconds];
      let count := default 0 (results !! 0%nat) in
      mret (RateLimitResult.mk (count <=? limit) (Z.max 0 (limit - count)) reset limit)
  | None =>
      cleanupMemoryStore;;
      existing ← gets (fun w => memoryStore w !! key);
      let fresh :=
        modify (fun w =>
          with_memoryStore (<[key := Counter.mk 1 (reset * 1000)]> (memoryStore w)) w);;
        mret (RateLimitResult.mk true (limit - 1) reset limit) in
      match existing with
      | None => fresh
      | Some existing =>
          t ← Date_now;
          if Counter.reset existing <? t then fresh
          else
            let count := Counter.count existing + 1 in
            modify (fun w =>
              with_memoryStore
                (<[key := Counter.mk count (Counter.reset existing)]> (memoryStore w)) w);;
            mret (RateLimitResult.mk (count <=? limit) (Z.max 0 (limit - count))
                                     (Counter.reset existing / 1000) limit)
      end
  end.

Definition defaultLimits_api : RateLimitConfig.t := RateLimitConfig.mk 100 60 None.
Definition defaultLimits_auth : RateLimitConfig.t := RateLimitConfig.mk 10 60 None.
Definition defaultLimits_reservation : RateLimitConfig.t := RateLimitConfig.mk 5 60 None.
Definition defaultLimits_search : RateLimitConfig.t := RateLimitConfig.mk 60 60 None.

Definition getClientIp (headers : gmap string string) : string :=
  let forwarded := headers !! "x-forwarded-for"%string in
  if truthy_opt forwarded then
    default "unknown" (trim <$> head (split_by "," (default "" forwarded)))
  else
    let realIp := headers !! "x-real-ip"%string in
    if truthy_opt realIp then default "" realIp
    else
      let cfConnectingIp := headers !! "cf-connecting-ip"%string in
      if truthy_opt cfConnectingIp then default "" cfConnectingIp
      else "unknown".

(** *** cache.ts *)

Definition cleanupMemoryCache : M T unit :=
  now ← Date_now;
  modify (fun w =>
    with_memoryCache (filter (fun kv => ¬ (CacheEntry.expiry kv.2 < now)) (memoryCache w)) w).

(** [await fetcher()]: the call is counted, then the fetcher runs. *)
Definition invoke (fetcher : M T T) : M T T :=
  modify (fun w => with_invoked (S (invoked w)) w);;
  fetcher.

(** The two [// Fetch and cache] blocks of [getOrSet]. *)
Definition fetch_and_cache_redis (redis : Redis.t) (fullKey : string) (ttl : Z)
    (fetcher : M T T) : M T T :=
  data ← invoke fetcher;
  redis_setex redis fullKey ttl (stringify data);;
  mret data.

Definition fetch_and_cache_memory (fullKey : string) (ttl : Z) (fetcher : M T T) : M T T :=
  data ← invoke fetcher;
  now ← Date_now;
  modify (fun w =>
    with_memoryCache
      (<[fullKey := CacheEntry.mk data (now + ttl * 1000)]> (memoryCache w)) w);;
  mret data.

Definition getOrSet (key : string) (fetcher : M T T) (config : CacheConfig.t) : M T T :=
  let ttl := default 300 (CacheConfig.ttl config) in
  let keyPrefix := default "cache" (CacheConfig.keyPrefix config) in
  let fullKey := keyPrefix +:+ ":" +:+ key in
  redis ← getRedis;
  match redis with
  | Some redis =>
      cached ← redis_get redis fullKey;
      if truthy_reply cached then
        match JSON_parse cached with
        | Some v => mret v
        | None => fetch_and_cache_redis redis fullKey ttl fetcher
        end
      else fetch_and_cache_redis redis fullKey ttl fetcher
  | None =>
      cleanupMemoryCache;;
      cached ← gets (fun w => memoryCache w !! fullKey);
      match cached with
      | None => fetch_and_cache_memory fullKey ttl fetcher
      | Some cached =>
          now ← Date_now;
          if CacheEntry.expiry cached >? now then mret (CacheEntry.data cached)
          else fetch_and_cache_memory fullKey ttl fetcher
      end
  end.

Definition get (key : string) (keyPrefix : option string) : M T (option T) :=
  let keyPrefix := default "cache" keyPrefix in
  let fullKey := keyPrefix +:+ ":" +:+ key in
  redis ← getRedis;
  match redis with
  | Some redis =>
      cached ← redis_get redis fullKey;
      if negb (truthy_reply cached) then mret None
      else mret (JSON_parse cached)
  | None =>
      cached ← gets (fun w => memoryCache w !! fullKey);
      match cached with
      | None => mret None
      | Some cached =>
          now ← Date_now;
          if CacheEntry.expiry cached >? now then mret (Some (CacheEntry.data cached))
          else mret None
      end
  end.

Definition set (key : string) (value : T) (config : CacheConfig.t) : M T unit :=
  let ttl := default 300 (CacheConfig.ttl config) in
  let keyPrefix := default "cache" (CacheConfig.keyPrefix config) in
  let fullKey := keyPrefix +:+ ":" +:+ key in
  redis ← getRedis;
  match redis with
  | Some redis => redis_setex redis fullKey ttl (stringify value)
  | None =>
      now ← Date_now;
      modify (fun w =>
        with_memoryCache
          (<[fullKey := CacheEntry.mk value (now + ttl * 1000)]> (memoryCache w)) w)
  end.

Definition del (key : string) (keyPrefix : option string) : M T unit :=
  let keyPrefix := default "cache" keyPrefix in
  let fullKey := keyPrefix +:+ ":" +:+ key in
  redis ← getRedis;
  match redis with
  | Some redis => redis_del redis [fullKey];; mret tt
  | None => modify (fun w => with_memoryCache (delete fullKey (memoryCache w)) w)
  end.

Definition delPattern (pattern : string) (keyPrefix : option string) : M T unit :=
  let keyPrefix := default "cache" keyPrefix in
  let fullPattern := keyPrefix +:+ ":" +:+ pattern in
  redis ← getRedis;
  match redis with
  | Some redis =>
      keys ← redis_keys redis fullPattern;
      if (0 <? length keys)%nat then redis_del redis keys;; mret tt
      else mret tt
  | None =>
      let prefix := replace "*" "" fullPattern in
      modify (fun w =>
        with_memoryCache
          (filter (fun kv => startsWith kv.1 prefix = false) (memoryCache w)) w)
  end.

Definition clear (keyPrefix : option string) : M T unit :=
  let keyPrefix := default "cache" keyPrefix in
  redis ← getRedis;
  match redis with
  | Some redis =>
      keys ← redis_keys redis (keyPrefix +:+ ":*");
      if (0 <? length keys)%nat then redis_del redis keys;; mret tt
      else mret tt
  | None =>
      modify (fun w =>
        with_memoryCache
          (filter (fun kv => startsWith kv.1 (keyPrefix +:+ ":") = false) (memoryCache w)) w)
  end.

Definition ttlPresets_short : Z := 60.
Definition ttlPresets_medium : Z := 300.
Definition ttlPresets_long : Z := 3600.
Definition ttlPresets_day : Z := 86400.

(** *** middleware.ts *)

(** [String(n)] for an integer [n]. *)
Definition String_of (n : Z) : string := string_of_Z n.

Definition middleware (request : NextRequest.t) : M T NextResponse.t :=
  if negb (startsWith (NextRequest.pathname request) "/api/") then
    mret (NextResponse.next [])
  else
    let ip := getClientIp (NextRequest.headers request) in
    let pathname := NextRequest.pathname request in
    let limitConfig :=
      if includes pathname "/api/auth" then defaultLimits_auth
      else if includes pathname "/reservation" then defaultLimits_reservation
      else defaultLimits_api in
    result ← rateLimit ip
      (RateLimitConfig.mk (RateLimitConfig.limit limitConfig)
         (RateLimitConfig.windowInSeconds limitConfig) (Some "mw"));
    if negb (RateLimitResult.success result) then
      mret (NextResponse.json "Too many requests. Please try again later." 429
              [("X-RateLimit-Limit", String_of (RateLimitResult.limit result));
               ("X-RateLimit-Remaining", String_of (RateLimitResult.remaining result));
               ("X-RateLimit-Reset", String_of (RateLimitResult.reset result))])
    else
      mret (NextResponse.next
              [("X-RateLimit-Limit", String_of (RateLimitResult.limit result));
               ("X-RateLimit-Remaining", String_of (RateLimitResult.remaining result));
               ("X-RateLimit-Reset", String_of (RateLimitResult.reset result))]).

End Program.

(** ** Vocabulary of the statements *)

(** [n] calls in a row, results in order. *)
Fixpoint repeatM {T A} (n : nat) (m : M T A) : M T (list A) :=
  match n with
  | O => mret []
  | S n' => x ← m; xs ← repeatM n' m; mret (x :: xs)
  end.

(** The answer of [rateLimit] for a counter that has reached [count]. *)
Definition verdict (limit reset count : Z) : RateLimitResult.t :=
  RateLimitResult.mk (count <=? limit) (Z.max 0 (limit - count)) reset limit.

(** The answers to [n] calls in a row on a counter standing at [count]. *)
Fixpoint verdicts (limit reset count : Z) (n : nat) : list RateLimitResult.t :=
  match n with
  | O => []
  | S n' => verdict limit reset (count + 1) :: verdicts limit reset (count + 1) n'
  end.

(** The [k]-th fixed window of [W] seconds, as an interval of milliseconds. *)
Definition in_window (W k t : Z) : Prop :=
  W * 1000 * k <= t < W * 1000 * (k + 1).

(** The [n] clock readings from the [from]-th on all satisfy [P]. *)
Definition readings (clock : nat -> Z) (from n : nat) (P : Z -> Prop) : Prop :=
  forall i : nat, (from <= i < from + n)%nat -> P (clock i).

Definition monotone (clock : nat -> Z) : Prop :=
  forall i j : nat, (i <= j)%nat -> clock i <= clock j.

(** The end, in seconds, of the window of [W] seconds that holds the instant
    of [ms] milliseconds: [reset] of [rateLimit], for [W <> 0]. *)
Definition window_end (W ms : Z) : Z := ms / 1000 / W * W + W.

(** The key under which [rateLimit] counts. *)
Definition rate_key (identifier : string) (config : RateLimitConfig.t) : string :=
  default "rl"%string (RateLimitConfig.keyPrefix config) +:+ ":" +:+ identifier.

(** The key under which the cache keeps [key]. *)
Definition cache_key (key : string) (keyPrefix : option string) : string :=
  default "cache"%string keyPrefix +:+ ":" +:+ key.

(** The count [INCR] starts from at store time [now]: [0] for a key that is
    absent or expired, nothing for a value that [INCR] cannot raise, one
    that is not the text of a 64-bit integer below the largest. *)
Definition durable_count (now : Z) (db : gmap string Stored.t) (key : string) : option Z :=
  match lookup_live now db key with
  | None => Some 0
  | Some e =>
      match int64_of_string (Stored.payload e) with
      | Some n => if n <? int64_max then Some n else None
      | None => None
      end
  end.

(** No counter yet for [key] on the backend that [env] selects. *)
Definition fresh_identifier {T} (env : Env.t) (w : World T) (key : string) : Prop :=
  if isRedisEnabled env then upstash w !! key = None
  else memoryStore w !! key = None.

(** On the backend that [env] selects, the counter of [key] stands at [count]
    and belongs to the [k]-th window of [W] seconds: on the in-process map
    its [reset] is the end of that window, on the remote store the key lives
    at least until then. *)
Definition counter_at {T} (env : Env.t) (w : World T) (key : string) (W k count : Z) : Prop :=
  if isRedisEnabled env then
    exists x, upstash w !! key = Some (Stored.mk (string_of_Z count) (Some x))
              /\ W * 1000 * (k + 1) <= x
  else memoryStore w !! key = Some (Counter.mk count (W * (k + 1) * 1000)).

(** On the remote store a count is a 64-bit integer: [c] is one, and stays
    one through [n] increments. The in-process map has no such bound. *)
Definition countable (env : Env.t) (c : Z) (n : nat) : Prop :=
  isRedisEnabled env = true -> int64_min <= c /\ c + Z.of_nat n <= int64_max.

(** The count kept for [key] on the backend that [env] selects, if any. *)
Definition stored_count {T} (env : Env.t) (w : World T) (key : string) : option Z :=
  if isRedisEnabled env then upstash w !! key ≫= (fun e => decimal (Stored.payload e))
  else Counter.count <$> memoryStore w !! key.

(** The in-process counter of [key], if there is one, was created by a call
    that used windows of [W] seconds: its [reset] is the end of the window
    of an earlier clock reading. *)
Definition minted {T} (clock : nat -> Z) (W : Z) (w : World T) (key : string) : Prop :=
  forall e, memoryStore w !! key = Some e ->
    exists j : nat, (j < ticks w)%nat /\ Counter.reset e = window_end W (clock j) * 1000.

(** What a call needs to find under [key] to answer with the bounds of a
    window of [W] seconds: on the remote store nothing, or a value that
    [INCR] can raise, the text of a 64-bit integer below the largest; on
    the in-process map a counter created for windows of [W] seconds. *)
Definition counter_wf {T} (clock : nat -> Z) (env : Env.t) (W : Z) (w : World T)
    (key : string) : Prop :=
  if isRedisEnabled env then is_Some (durable_count (clock (S (ticks w))) (upstash w) key)
  else minted clock W w key.

(** The counter of [key], if there is one, is over when the call starts: on
    the in-process map its [reset] is strictly in the past, on the remote
    store the key has reached its expiry. *)
Definition lapsed {T} (clock : nat -> Z) (env : Env.t) (w : World T) (key : string) : Prop :=
  if isRedisEnabled env then
    forall e, upstash w !! key = Some e ->
      exists x, Stored.expireAt e = Some x /\ x <= clock (ticks w)
  else
    forall e, memoryStore w !! key = Some e -> Counter.reset e < clock (ticks w).

(** What [cache.ts] makes of the text [raw] that the store answers: the
    client decodes it, [if (cached)] tests the outcome and [JSON.parse]
    decodes it once more. *)
Definition read_back {T} `{Platform T} (parse : string -> option T) (raw : string)
    : option T :=
  let cached := Some (parseResponse parse raw) in
  if truthy_reply cached then JSON_parse parse cached else None.

(** What a cache read makes of the remote store at store time [now]: what
    it reads back from the text of a visible key. *)
Definition durable_hit {T} `{Platform T} (parse : string -> option T) (now : Z)
    (db : gmap string Stored.t) (fullKey : string) : option T :=
  store_GET now db fullKey ≫= read_back parse.

(** [w2] holds under [fullKey] what [w1] holds, on the backend that [env]
    selects. *)
Definition same_entry {T} (env : Env.t) (w1 w2 : World T) (fullKey : string) : Prop :=
  if isRedisEnabled env then upstash w2 !! fullKey = upstash w1 !! fullKey
  else memoryCache w2 !! fullKey = memoryCache w1 !! fullKey.

(** The entry under [fullKey] has reached its expiry at instant [t]. *)
Definition expired_at {T} (env : Env.t) (w : World T) (fullKey : string) (t : Z) : Prop :=
  if isRedisEnabled env then
    exists e x, upstash w !! fullKey = Some e /\ Stored.expireAt e = Some x /\ x <= t
  else
    exists e, memoryCache w !! fullKey = Some e /\ CacheEntry.expiry e <= t.

(** The entry under [fullKey] is still before its expiry at instant [t]. *)
Definition cached_at {T} (env : Env.t) (w : World T) (fullKey : string) (t : Z) : Prop :=
  if isRedisEnabled env then
    exists e, upstash w !! fullKey = Some e /\ live t e = true
  else
    exists e, memoryCache w !! fullKey = Some e /\ t < CacheEntry.expiry e.

(** Nothing is kept under [fullKey] on the backend that [env] selects. *)
Definition uncached {T} (env : Env.t) (w : World T) (fullKey : string) : Prop :=
  if isRedisEnabled env then upstash w !! fullKey = None
  else memoryCache w !! fullKey = None.

(** The message [getRedis] gives to [console.warn]. *)
Definition misconfiguration_warning : string :=
  "Redis is enabled but missing UPSTASH_REDIS_REST_URL or UPSTASH_REDIS_REST_TOKEN".



(** Every character of [s] satisfies [P]. *)
Fixpoint all_chars (P : ascii -> bool) (s : string) : bool :=
  match s with
  | EmptyString => true
  | String c s' => P c && all_chars P s'
  end.

Definition first_char (s : string) : option ascii :=
  match s with
  | EmptyString => None
  | String c _ => Some c
  end.

Fixpoint last_char (s : string) : option ascii :=
  match s with
  | EmptyString => None
  | String c EmptyString => Some c
  | String _ s' => last_char s'
  end.

Definition not_comma (c : ascii) : bool := negb (Ascii.eqb c ",").

Definition not_star (c : ascii) : bool := negb (Ascii.eqb c "*").

(** The policy [middleware] hands to [rateLimit] for a path. *)
Definition middleware_policy (pathname : string) : RateLimitConfig.t :=
  let limitConfig :=
    if includes pathname "/api/auth" then defaultLimits_auth
    else if includes pathname "/reservation" then defaultLimits_reservation
    else defaultLimits_api in
  RateLimitConfig.mk (RateLimitConfig.limit limitConfig)
    (RateLimitConfig.windowInSeconds limitConfig) (Some "mw"%string).

(** The three headers [middleware] puts on a response. *)
Definition rateLimit_headers (result : RateLimitResult.t) : list (string * string) :=
  [("X-RateLimit-Limit"%string, String_of (RateLimitResult.limit result));
   ("X-RateLimit-Remaining"%string, String_of (RateLimitResult.remaining result));
   ("X-RateLimit-Reset"%string, String_of (RateLimitResult.reset result))].

(** The response [middleware] builds from an answer of [rateLimit]. *)
Definition response_of (result : RateLimitResult.t) : NextResponse.t :=
  if RateLimitResult.success result then NextResponse.next (rateLimit_headers result)
  else NextResponse.json "Too many requests. Please try again later." 429
         (rateLimit_headers result).

(** A response that [middleware] may give to [request]: a bare
    [NextResponse.next()] outside [/api/]; under [/api/] the response built
    from an answer that carries the limit of the path's policy and that has
    nothing remaining when it denies. *)
Definition response_ok (request : NextRequest.t) (response : NextResponse.t) : Prop :=
  if startsWith (NextRequest.pathname request) "/api/" then
    exists result,
      response = response_of result
      /\ RateLimitResult.limit result =
           RateLimitConfig.limit (middleware_policy (NextRequest.pathname request))
      /\ (RateLimitResult.success result = false -> RateLimitResult.remaining result = 0)
  else response = NextResponse.next [].

(** The requests of a list served one after the other. *)
Fixpoint serve {T} `{Platform T} (env : Env.t) (clock : nat -> Z) (requests : list NextRequest.t)
    : M T (list NextResponse.t) :=
  match requests with
  | [] => mret []
  | request :: rest =>
      response ← middleware env clock request;
      responses ← serve env clock rest;
      mret (response :: responses)
  end.

(** The conversions of the platform give [v] back from the text that
    [JSON.stringify] writes for it: the text decodes to [v], [v] is truthy,
    [String(v)] decodes to [v], and a number prints as it is written. *)
Definition survives {T} `{Platform T} (stringify : T -> string)
    (parse : string -> option T) (v : T) : Prop :=
  parse (stringify v) = Some v
  /\ ToBoolean v = true
  /\ parse (ToString v) = Some v
  /\ (is_number v = true -> ToString v = stringify v).

(** The settings let [getRedis] hand out a client: when they name the
    remote store, the constructor of the client accepts the URL. *)
Definition client_available {T} `{Platform T} (env : Env.t) : Prop :=
  isRedisEnabled env = true ->
  url_accepted (default ""%string (Env.UPSTASH_REDIS_REST_URL env)) = true.

(** What a call leaves of the client of the process. With the remote store
    as backend: the client already held; or else a first one, newly built,
    when the constructor accepts the URL; or else none, and none built.
    Without the remote store, things as they were. *)
Definition client_after {T} `{Platform T} (env : Env.t) (w w' : World T) : Prop :=
  if isRedisEnabled env then
    match redis w with
    | Some h => redis w' = Some h /\ constructed w' = constructed w
    | None =>
        if url_accepted (default ""%string (Env.UPSTASH_REDIS_REST_URL env)) then
          (exists h, redis w' = Some h) /\ constructed w' = S (constructed w)
        else redis w' = None /\ constructed w' = constructed w
    end
  else redis w' = redis w /\ constructed w' = constructed w.

(** *** Concrete settings used in the examples *)

(** The URLs that the constructor of the client accepts: [http://] or
    [https://], then a character that is neither white space nor one of
    [# $ . / ?], then any character but a line break, then no white space;
    one trailing slash does not count. *)
Definition without_slash (url : string) : string :=
  let n := String.length url in
  if String.eqb (String.substring (n - 1) 1 url) "/" then String.substring 0 (n - 1) url
  else url.

Definition host_start (c : ascii) : bool :=
  negb (is_space c)
  && negb (Ascii.eqb c "#" || Ascii.eqb c "$" || Ascii.eqb c "." || Ascii.eqb c "/"
           || Ascii.eqb c "?").

Definition line_break (c : ascii) : bool :=
  Ascii.eqb c "010" || Ascii.eqb c "013".

Fixpoint no_space (s : string) : bool :=
  match s with
  | EmptyString => true
  | String c s' => negb (is_space c) && no_space s'
  end.

Definition after_scheme (url : string) : option string :=
  if String.prefix "https://" url then Some (String.substring 8 (String.length url - 8) url)
  else if String.prefix "http://" url then Some (String.substring 7 (String.length url - 7) url)
  else None.

Definition http_url (url : string) : bool :=
  match after_scheme (without_slash url) with
  | Some (String c (String d rest)) => host_start c && negb (line_break d) && no_space rest
  | _ => false
  end.

(** A cache of integers: [String(n)] is the decimal text of [n],
    [Boolean(n)] is [n !== 0], every value is a number, and [JSON.parse]
    gives an integer for a decimal text. *)
#[global] Instance integers : Platform Z := {|
  ToString := string_of_Z;
  ToBoolean := fun n => negb (n =? 0);
  is_number := fun _ => true;
  url_accepted := http_url;
|}.

Definition env_memory : Env.t := Env.mk false None None.
Definition env_durable : Env.t := Env.mk true (Some "https://eu1.upstash.io"%string) (Some "secret"%string).
Definition env_misconfigured : Env.t := Env.mk true None (Some "secret"%string).
Definition env_malformed : Env.t := Env.mk true (Some "redis.example.com"%string) (Some "secret"%string).

(** A process that has just started, with an empty remote store. *)
Definition boot {T} : World T := mkWorld 0 [] None 0 ∅ ∅ ∅ 0.

(** A clock that stands still at [t]. *)
Definition frozen (t : Z) : nat -> Z := fun _ => t.

(** A clock that reads [t1] for the first [n] readings and [t2] afterwards. *)
Definition jump (n : nat) (t1 t2 : Z) : nat -> Z :=
  fun i => if (i <? n)%nat then t1 else t2.

(** A clock that advances by one second at every reading. *)
Definition seconds_clock : nat -> Z := fun i => 1000 * Z.of_nat i.

(** A cache of integers on the in-process map, holding under [cache:old] an
    entry stored at millisecond 0 with one second to live; the clock reads
    5000 from then on. *)
Definition stale_clock : nat -> Z := jump 1 0 5000.

Definition stale_cache : World Z :=
  (set string_of_Z env_memory stale_clock "old" 7 (CacheConfig.mk (Some 1) None) boot).2.

(** The remote store after [set("cars:7", 42, {ttl: 60})] at second 0. *)
Definition stored_42 : World Z :=
  (set string_of_Z env_durable seconds_clock "cars:7" 42 (CacheConfig.mk (Some 60) None) boot).2.

(** A first [getOrSet("cars:7", producer, {ttl: 300})] on the remote
    store, with a producer that returns 42. *)
Definition first_getOrSet : Completion Z * World Z :=
  getOrSet string_of_Z decimal env_durable seconds_clock "cars:7" (mret 42)
    (CacheConfig.mk (Some 300) None) boot.

(** The remote store holding under [cache:cars:7] a payload that is not the
    encoding of an integer. *)
Definition garbled : World Z :=
  mkWorld 0 [] None 0 {[ "cache:cars:7"%string := Stored.mk "{oops" None ]} ∅ ∅ 0.

(** The in-process map after [n] calls for ["u"] under the reservation
    policy, the clock standing at [t]. *)
Definition after_calls (n : nat) (t : Z) : World Z :=
  (repeatM n (rateLimit env_memory (frozen t) "u" defaultLimits_reservation) boot).2.

(** Seven calls for ["u"] under the reservation policy from a fresh start:
    six at millisecond [t], which take the first [n] clock readings, and a
    seventh at millisecond [t']. *)
Definition six_then_one (env : Env.t) (n : nat) (t t' : Z)
    : Completion (list RateLimitResult.t) :=
  (repeatM 7 (rateLimit env (jump n t t') "u" defaultLimits_reservation) (boot (T := Z))).1.

(** The cache after [set("a:1", 1)], [set("a:2", 2)], [set("b:1", 3)] on the
    backend that [env] selects, the clock advancing by one second at every
    reading. *)
Definition three_keys (env : Env.t) : World Z :=
  (set string_of_Z env seconds_clock "b:1" 3 (CacheConfig.mk None None)
     (set string_of_Z env seconds_clock "a:2" 2 (CacheConfig.mk None None)
        (set string_of_Z env seconds_clock "a:1" 1 (CacheConfig.mk None None) boot).2).2).2.

(** What [get] returns for these three keys after [delPattern("a:*")]. *)
Definition after_delPattern (env : Env.t) : Completion (list (option Z)) :=
  ((delPattern env seconds_clock "a:*" None;;
    x ← get decimal env seconds_clock "a:1" None;
    y ← get decimal env seconds_clock "a:2" None;
    z ← get decimal env seconds_clock "b:1" None;
    mret [x; y; z]) (three_keys env)).1.

(** The cache after [set("zero", 0, {ttl: 60})] at second 0, on the backend
    that [env] selects. *)
Definition stored_zero (env : Env.t) : World Z :=
  (set string_of_Z env seconds_clock "zero" 0 (CacheConfig.mk (Some 60) None) boot).2.

(** A first [getOrSet("zero", producer, {ttl: 300})] with a producer that
    returns 0, on the backend that [env] selects. *)
Definition first_zero (env : Env.t) : Completion Z * World Z :=
  getOrSet string_of_Z decimal env seconds_clock "zero" (mret 0)
    (CacheConfig.mk (Some 300) None) boot.

(** A second [getOrSet("zero", producer2, {ttl: 300})] after it, with a
    producer that returns 7. *)
Definition second_zero (env : Env.t) : Completion Z * World Z :=
  getOrSet string_of_Z decimal env seconds_clock "zero" (mret 7)
    (CacheConfig.mk (Some 300) None) (first_zero env).2.




(** The headers of a request that came through a proxy. *)
Definition proxied : gmap string string :=
  {[ "x-forwarded-for"%string := " 203.0.113.7 , 10.0.0.1"%string ]}.

Definition api_request (pathname : string) : NextRequest.t :=
  NextRequest.mk pathname proxied.

(** The in-process map after five requests to [/api/cars] from that
    address, the clock standing at second 90. *)
Definition after_requests : World Z :=
  (serve env_memory (frozen 90000) (replicate 5 (api_request "/api/cars")) boot).2.

(** ** Properties *)

Section Properties.

Context {T : Type} {platform : Platform T}.
Variable stringify : T -> string.
Variable parse : string -> option T.
Variable env : Env.t.
Variable clock : nat -> Z.

(** The statements about the remote store are about settings with which
    [getRedis] hands out a client. *)
Hypothesis Hclient : client_available env.

Ltac run :=
  cbv [mbind M_bind mret M_ret step modify gets throw attempt Date_now console_warn].

Ltac fields :=
  cbn [with_ticks with_console with_redis with_upstash with_memoryStore
       with_memoryCache with_invoked ticks console redis constructed upstash
       memoryStore memoryCache invoked fst snd].

(** *** Strings and numbers *)

Lemma Z_of_string_of_Z (z : Z) : Z_of_string (string_of_Z z) = Some z.
Proof.
  unfold Z_of_string, string_of_Z.
  rewrite NilZero.isi.
  - simpl. f_equal. apply DecimalZ.of_to.
  - destruct z; simpl; try discriminate.
    intros [= H]. exact (DecimalPos.Unsigned.to_uint_nonnil _ H).
  - destruct z; simpl; try discriminate.
    intros [= H]. exact (DecimalPos.Unsigned.to_uint_nonnil _ H).
Qed.

Lemma decimal_of_Z (z : Z) : decimal (string_of_Z z) = Some z.
Proof. unfold decimal. now rewrite Z_of_string_of_Z, String.eqb_refl. Qed.

Lemma int64_of_string_of_Z (z : Z) :
  int64_min <= z <= int64_max -> int64_of_string (string_of_Z z) = Some z.
Proof.
  intros [Hlo Hhi]. unfold int64_of_string. rewrite decimal_of_Z.
  apply Z.leb_le in Hlo, Hhi. now rewrite Hlo, Hhi.
Qed.

Lemma int64_of_string_inv (s : string) (z : Z) :
  int64_of_string s = Some z -> s = string_of_Z z /\ int64_min <= z <= int64_max.
Proof.
  unfold int64_of_string, decimal.
  destruct (Z_of_string s) as [n|]; [|discriminate].
  destruct (String.eqb (string_of_Z n) s) eqn:He; [|discriminate].
  destruct (int64_min <=? n) eqn:Hlo; [|discriminate].
  destruct (n <=? int64_max) eqn:Hhi; [|discriminate].
  intros [= <-]. apply String.eqb_eq in He. apply Z.leb_le in Hlo, Hhi. auto.
Qed.

Lemma world_eta (w : World T) :
  mkWorld (ticks w) (console w) (redis w) (constructed w) (upstash w)
          (memoryStore w) (memoryCache w) (invoked w) = w.
Proof. destruct w; reflexivity. Qed.

(** *** client.ts: which backend a call gets *)

Lemma getRedis_unavailable (w : World T) :
  isRedisEnabled env = false ->
  exists c, getRedis env w = (Return None, with_console c w).
Proof.
  unfold isRedisEnabled, getRedis. intros H.
  destruct (Env.USE_REDIS env); simpl in *.
  - destruct (truthy_opt (Env.UPSTASH_REDIS_REST_URL env)); simpl in *.
    + rewrite H. simpl. eexists. reflexivity.
    + eexists. reflexivity.
  - exists (console w). destruct w; reflexivity.
Qed.

Lemma getRedis_available (w : World T) :
  isRedisEnabled env = true ->
  exists h n, getRedis env w = (Return (Some h), with_redis (Some h) n w).
Proof.
  intros H. pose proof (Hclient H) as Hurl. revert H.
  unfold isRedisEnabled, getRedis. intros H.
  destruct (Env.USE_REDIS env); simpl in *; [|discriminate].
  destruct (truthy_opt (Env.UPSTASH_REDIS_REST_URL env)); simpl in *; [|discriminate].
  rewrite H. simpl. run. unfold new_Redis. rewrite Hurl. run. fields.
  destruct (redis w) as [h|] eqn:Hr.
  - exists h, (constructed w). unfold with_redis. rewrite <- Hr. now rewrite world_eta.
  - eexists _, _. reflexivity.
Qed.

(** *** rate-limit.ts on the in-process map *)

Section RateLimitMemory.

Variable identifier : string.
Variable config : RateLimitConfig.t.
Local Abbreviation limit := (RateLimitConfig.limit config).
Local Abbreviation W := (RateLimitConfig.windowInSeconds config).
Local Abbreviation key := (rate_key identifier config).

Hypothesis Hoff : isRedisEnabled env = false.

Lemma rateLimit_memory_fresh (w : World T) :
  (forall e, memoryStore w !! key = Some e -> Counter.reset e < clock (S (ticks w))) ->
  exists w',
    rateLimit env clock identifier config w =
      (Return (RateLimitResult.mk true (limit - 1) (window_end W (clock (ticks w))) limit), w')
    /\ ticks w' = S (S (ticks w))
    /\ memoryStore w' !! key = Some (Counter.mk 1 (window_end W (clock (ticks w)) * 1000)).
Proof.
  intros Hgone.
  destruct (getRedis_unavailable (with_ticks (S (ticks w)) w) Hoff) as [c Hc].
  unfold rateLimit, cleanupMemoryStore. run. rewrite Hc. fields.
  fold (rate_key identifier config).
  destruct (filter _ (memoryStore w) !! key) as [e|] eqn:He.
  - apply map_lookup_filter_Some in He as [He Hp]. simpl in Hp.
    specialize (Hgone e He). contradiction.
  - eexists. split; [reflexivity|]. fields. split; [reflexivity|].
    apply lookup_insert_eq.
Qed.

Lemma rateLimit_memory_lapsed (w : World T) (e : Counter.t) :
  memoryStore w !! key = Some e ->
  ~ Counter.reset e < clock (S (ticks w)) ->
  Counter.reset e < clock (S (S (ticks w))) ->
  exists w',
    rateLimit env clock identifier config w =
      (Return (RateLimitResult.mk true (limit - 1) (window_end W (clock (ticks w))) limit), w')
    /\ ticks w' = S (S (S (ticks w)))
    /\ memoryStore w' !! key = Some (Counter.mk 1 (window_end W (clock (ticks w)) * 1000)).
Proof.
  intros He Hkept Hlapsed.
  destruct (getRedis_unavailable (with_ticks (S (ticks w)) w) Hoff) as [c Hc].
  unfold rateLimit, cleanupMemoryStore. run. rewrite Hc. fields.
  fold (rate_key identifier config).
  assert (Hf : filter (fun kv : string * Counter.t => ~ Counter.reset kv.2 < clock (S (ticks w)))
                 (memoryStore w) !! key = Some e).
  { apply map_lookup_filter_Some. split; [exact He | exact Hkept]. }
  rewrite Hf. fields.
  apply Z.ltb_lt in Hlapsed. rewrite Hlapsed.
  eexists. split; [reflexivity|]. fields. split; [reflexivity|].
  apply lookup_insert_eq.
Qed.

Lemma rateLimit_memory_bump (w : World T) (e : Counter.t) :
  memoryStore w !! key = Some e ->
  clock (S (ticks w)) <= Counter.reset e ->
  clock (S (S (ticks w))) <= Counter.reset e ->
  exists w',
    rateLimit env clock identifier config w =
      (Return (verdict limit (Counter.reset e / 1000) (Counter.count e + 1)), w')
    /\ ticks w' = S (S (S (ticks w)))
    /\ memoryStore w' !! key = Some (Counter.mk (Counter.count e + 1) (Counter.reset e)).
Proof.
  intros He Hkept Hcurrent.
  destruct (getRedis_unavailable (with_ticks (S (ticks w)) w) Hoff) as [c Hc].
  unfold rateLimit, cleanupMemoryStore. run. rewrite Hc. fields.
  fold (rate_key identifier config).
  assert (Hf : filter (fun kv : string * Counter.t => ~ Counter.reset kv.2 < clock (S (ticks w)))
                 (memoryStore w) !! key = Some e).
  { apply map_lookup_filter_Some. split; [exact He | simpl; lia]. }
  rewrite Hf. fields.
  assert (Hnl : (Counter.reset e <? clock (S (S (ticks w)))) = false) by (apply Z.ltb_ge; lia).
  rewrite Hnl.
  eexists. split; [reflexivity|]. fields. split; [reflexivity|].
  apply lookup_insert_eq.
Qed.

End RateLimitMemory.

(** *** The commands of the remote store *)

Lemma lookup_live_Some now (db : gmap string Stored.t) k e :
  lookup_live now db k = Some e <-> db !! k = Some e /\ live now e = true.
Proof.
  unfold lookup_live. destruct (db !! k) as [e'|]; [|split; [discriminate | intros [? _]; discriminate]].
  destruct (live now e') eqn:Hl; split.
  - intros [= <-]. auto.
  - intros [[= <-] _]. reflexivity.
  - discriminate.
  - intros [[= <-] Hl']. congruence.
Qed.

Lemma lookup_live_absent now (db : gmap string Stored.t) k :
  db !! k = None -> lookup_live now db k = None.
Proof. unfold lookup_live. now intros ->. Qed.

Lemma store_INCR_counted now (db : gmap string Stored.t) k c :
  durable_count now db k = Some c ->
  store_INCR now db k =
    (Return (c + 1),
     <[k := Stored.mk (string_of_Z (c + 1)) (lookup_live now db k ≫= Stored.expireAt)]> db).
Proof.
  unfold durable_count, store_INCR.
  destruct (lookup_live now db k) as [e|]; simpl.
  - destruct (int64_of_string (Stored.payload e)) as [n|]; [|discriminate].
    destruct (n <? int64_max); [|discriminate]. intros [= <-]. reflexivity.
  - intros [= <-]. reflexivity.
Qed.

Lemma store_INCR_rejected now (db : gmap string Stored.t) k :
  durable_count now db k = None ->
  exists msg, store_INCR now db k = (Throw msg, db).
Proof.
  unfold durable_count, store_INCR.
  destruct (lookup_live now db k) as [e|]; simpl; [|discriminate].
  destruct (int64_of_string (Stored.payload e)) as [n|]; [|eexists; reflexivity].
  destruct (n <? int64_max); [discriminate|]. eexists. reflexivity.
Qed.

(** *** rate-limit.ts on the remote store *)

Section RateLimitDurable.

Variable identifier : string.
Variable config : RateLimitConfig.t.
Local Abbreviation limit := (RateLimitConfig.limit config).
Local Abbreviation W := (RateLimitConfig.windowInSeconds config).
Local Abbreviation key := (rate_key identifier config).

Hypothesis Hon : isRedisEnabled env = true.

Lemma rateLimit_durable_step (w : World T) (c : Z) :
  durable_count (clock (S (ticks w))) (upstash w) key = Some c ->
  exists w',
    rateLimit env clock identifier config w =
      (Return (verdict limit (window_end W (clock (ticks w))) (c + 1)), w')
    /\ ticks w' = S (S (S (ticks w)))
    /\ upstash w' =
         (store_EXPIRE (clock (S (S (ticks w))))
            (store_INCR (clock (S (ticks w))) (upstash w) key).2 key W).2.
Proof.
  intros Hc.
  destruct (getRedis_available (with_ticks (S (ticks w)) w) Hon) as (h & n & Hh).
  unfold rateLimit. run. rewrite Hh. fields.
  unfold pipeline_exec, run_command. run. fields.
  fold (rate_key identifier config).
  rewrite (store_INCR_counted _ _ _ _ Hc). fields.
  destruct (store_EXPIRE _ _ key W) as [r db] eqn:Hexp.
  simpl. eexists. split; [reflexivity|]. fields. split; reflexivity.
Qed.

Lemma rateLimit_durable_throws (w : World T) :
  durable_count (clock (S (ticks w))) (upstash w) key = None ->
  exists msg w', rateLimit env clock identifier config w = (Throw msg, w').
Proof.
  intros Hc.
  destruct (getRedis_available (with_ticks (S (ticks w)) w) Hon) as (h & n & Hh).
  unfold rateLimit. run. rewrite Hh. fields.
  unfold pipeline_exec, run_command. run. fields.
  fold (rate_key identifier config).
  destruct (store_INCR_rejected _ _ _ Hc) as [msg ->]. fields.
  destruct (store_EXPIRE _ _ key W) as [r db] eqn:Hexp.
  simpl. eexists _, _. reflexivity.
Qed.

End RateLimitDurable.

(** *** Windows *)

Lemma window_end_in_window (W k t : Z) :
  0 < W -> in_window W k t -> window_end W t = W * (k + 1).
Proof.
  unfold in_window, window_end. intros HW [Hlo Hhi].
  rewrite Z.div_div by lia.
  assert (Hq : t / (1000 * W) = k).
  { symmetry. apply (Z.div_unique t (1000 * W) k (t - 1000 * W * k)); lia. }
  rewrite Hq. lia.
Qed.

Lemma window_end_bounds (W ms : Z) :
  0 < W -> ms / 1000 < window_end W ms <= ms / 1000 + W.
Proof.
  unfold window_end. intros HW.
  pose proof (Z.mod_pos_bound (ms / 1000) W HW) as Hm.
  pose proof (Z.div_mod (ms / 1000) W ltac:(lia)) as Hd.
  lia.
Qed.

Lemma repeatM_S {A} (m : M T A) (n : nat) (w w1 w2 : World T) x xs :
  m w = (Return x, w1) ->
  repeatM n m w1 = (Return xs, w2) ->
  repeatM (S n) m w = (Return (x :: xs), w2).
Proof.
  intros H1 H2. cbn [repeatM]. run. rewrite H1, H2. reflexivity.
Qed.

(** A counter that is current for the next [3 * n] clock readings takes
    [n] calls in a row, one increment each. *)
Lemma rateLimit_memory_run identifier config (n : nat) :
  isRedisEnabled env = false ->
  forall (w : World T) (c R : Z),
    memoryStore w !! rate_key identifier config = Some (Counter.mk c R) ->
    readings clock (ticks w) (3 * n) (fun t => t <= R) ->
    exists w',
      repeatM n (rateLimit env clock identifier config) w =
        (Return (verdicts (RateLimitConfig.limit config) (R / 1000) c n), w')
      /\ ticks w' = (ticks w + 3 * n)%nat
      /\ memoryStore w' !! rate_key identifier config = Some (Counter.mk (c + Z.of_nat n) R).
Proof.
  intros Hoff. induction n as [|n IH]; intros w c R He Hr.
  - exists w. cbn [repeatM verdicts]. run. repeat split.
    + lia.
    + rewrite He. do 2 f_equal. lia.
  - destruct (rateLimit_memory_bump identifier config Hoff w _ He) as (w1 & Hcall & Ht1 & Hs1).
    { apply (Hr (S (ticks w))). lia. }
    { apply (Hr (S (S (ticks w)))). lia. }
    cbn [Counter.count Counter.reset] in Hcall, Hs1.
    destruct (IH w1 (c + 1) R Hs1) as (w2 & Hrest & Ht2 & Hs2).
    { intros i Hi. apply Hr. lia. }
    exists w2. split; [|split].
    + cbn [verdicts]. eapply repeatM_S; eassumption.
    + lia.
    + rewrite Hs2. do 2 f_equal. lia.
Qed.

(** One [INCR] then one [EXPIRE], as [rateLimit] queues them: the counter
    goes up by one and its expiry is pushed to [seconds] after the second
    command. *)
Lemma store_INCR_EXPIRE (t1 t2 : Z) (db : gmap string Stored.t) k (seconds c : Z) :
  0 < seconds ->
  durable_count t1 db k = Some c ->
  (forall x, lookup_live t1 db k ≫= Stored.expireAt = Some x -> t2 < x) ->
  (store_EXPIRE t2 (store_INCR t1 db k).2 k seconds).2 !! k =
    Some (Stored.mk (string_of_Z (c + 1)) (Some (t2 + seconds * 1000))).
Proof.
  intros Hs Hc Hx. rewrite (store_INCR_counted _ _ _ _ Hc). cbn [snd].
  unfold store_EXPIRE.
  set (x := lookup_live t1 db k ≫= Stored.expireAt) in *.
  assert (Hl : lookup_live t2 (<[k := Stored.mk (string_of_Z (c + 1)) x]> db) k
               = Some (Stored.mk (string_of_Z (c + 1)) x)).
  { apply lookup_live_Some. split; [apply lookup_insert_eq|].
    unfold live. cbn [Stored.expireAt]. destruct x as [x|]; [|reflexivity].
    apply Z.ltb_lt. apply Hx. reflexivity. }
  rewrite Hl. destruct (seconds <=? 0) eqn:Hle; [apply Z.leb_le in Hle; lia|].
  cbn [snd Stored.payload]. apply lookup_insert_eq.
Qed.

Lemma durable_count_stored now (db : gmap string Stored.t) k c x :
  int64_min <= c < int64_max ->
  db !! k = Some (Stored.mk (string_of_Z c) x) ->
  (forall t, x = Some t -> now < t) ->
  durable_count now db k = Some c
  /\ lookup_live now db k ≫= Stored.expireAt = x.
Proof.
  intros Hrange Hk Hx.
  assert (Hl : lookup_live now db k = Some (Stored.mk (string_of_Z c) x)).
  { apply lookup_live_Some. split; [exact Hk|]. unfold live. cbn [Stored.expireAt].
    destruct x as [t|]; [|reflexivity]. apply Z.ltb_lt. now apply Hx. }
  unfold durable_count. rewrite Hl. cbn.
  rewrite int64_of_string_of_Z by lia.
  destruct (c <? int64_max) eqn:Hlt; [|apply Z.ltb_ge in Hlt; lia].
  split; reflexivity.
Qed.

Lemma durable_count_absent now (db : gmap string Stored.t) k :
  db !! k = None ->
  durable_count now db k = Some 0
  /\ lookup_live now db k ≫= Stored.expireAt = None.
Proof.
  intros Hk. unfold durable_count. rewrite (lookup_live_absent _ _ _ Hk). split; reflexivity.
Qed.

(** A key that outlives the window takes [n] calls in a row inside the
    window, one increment each. *)
Lemma rateLimit_durable_run identifier config (k : Z) (n : nat) :
  isRedisEnabled env = true ->
  0 < RateLimitConfig.windowInSeconds config ->
  forall (w : World T) (c x : Z),
    int64_min <= c ->
    c + Z.of_nat n <= int64_max ->
    upstash w !! rate_key identifier config = Some (Stored.mk (string_of_Z c) (Some x)) ->
    RateLimitConfig.windowInSeconds config * 1000 * (k + 1) <= x ->
    readings clock (ticks w) (3 * n) (in_window (RateLimitConfig.windowInSeconds config) k) ->
    exists w' x',
      repeatM n (rateLimit env clock identifier config) w =
        (Return (verdicts (RateLimitConfig.limit config)
                   (RateLimitConfig.windowInSeconds config * (k + 1)) c n), w')
      /\ ticks w' = (ticks w + 3 * n)%nat
      /\ upstash w' !! rate_key identifier config =
           Some (Stored.mk (string_of_Z (c + Z.of_nat n)) (Some x'))
      /\ RateLimitConfig.windowInSeconds config * 1000 * (k + 1) <= x'.
Proof.
  intros Hon HW. induction n as [|n IH]; intros w c x Hlo Hhi He Hx Hr.
  - exists w, x. cbn [repeatM verdicts]. run. repeat split.
    + lia.
    + rewrite He. do 3 f_equal. lia.
    + exact Hx.
  - assert (H0 : in_window (RateLimitConfig.windowInSeconds config) k (clock (ticks w)))
      by (apply Hr; lia).
    assert (H1 : in_window (RateLimitConfig.windowInSeconds config) k (clock (S (ticks w))))
      by (apply Hr; lia).
    assert (H2 : in_window (RateLimitConfig.windowInSeconds config) k (clock (S (S (ticks w)))))
      by (apply Hr; lia).
    destruct (durable_count_stored (clock (S (ticks w))) _ _ c _ ltac:(lia) He) as [Hc Hexp].
    { intros t [= <-]. unfold in_window in H1. lia. }
    destruct (rateLimit_durable_step identifier config Hon w c Hc) as (w1 & Hcall & Ht1 & Hs1).
    rewrite (window_end_in_window _ _ _ HW H0) in Hcall.
    assert (Hk1 : upstash w1 !! rate_key identifier config =
              Some (Stored.mk (string_of_Z (c + 1))
                      (Some (clock (S (S (ticks w))) + RateLimitConfig.windowInSeconds config * 1000)))).
    { rewrite Hs1. apply store_INCR_EXPIRE; [exact HW | exact Hc |].
      rewrite Hexp. intros t [= <-]. unfold in_window in H2. lia. }
    destruct (IH w1 (c + 1) _ ltac:(lia) ltac:(lia) Hk1) as (w2 & x2 & Hrest & Ht2 & Hs2 & Hx2).
    { unfold in_window in H2. lia. }
    { intros i Hi. apply Hr. lia. }
    exists w2, x2. split; [|split; [|split]].
    + cbn [verdicts]. eapply repeatM_S; eassumption.
    + lia.
    + rewrite Hs2. do 3 f_equal. lia.
    + exact Hx2.
Qed.

(** *** Admission *)

(** C1. Under the policy [{limit: 5, windowInSeconds: 60}] (any key prefix),
    six calls in a row for an identifier that has no counter yet, all made
    inside one window, are answered in order: five admissions with
    [remaining] 4, 3, 2, 1, 0, then a denial with [remaining] 0. The
    statement holds for every [env] with which [getRedis] hands out what it
    selects, hence on the remote store and on the in-process map alike. *)
Theorem rateLimit_admission (w : World T) (identifier : string)
    (prefix : option string) (k : Z) :
  fresh_identifier env w (rate_key identifier (RateLimitConfig.mk 5 60 prefix)) ->
  readings clock (ticks w) 18 (in_window 60 k) ->
  (repeatM 6 (rateLimit env clock identifier (RateLimitConfig.mk 5 60 prefix)) w).1 =
    Return [RateLimitResult.mk true 4 (60 * (k + 1)) 5;
            RateLimitResult.mk true 3 (60 * (k + 1)) 5;
            RateLimitResult.mk true 2 (60 * (k + 1)) 5;
            RateLimitResult.mk true 1 (60 * (k + 1)) 5;
            RateLimitResult.mk true 0 (60 * (k + 1)) 5;
            RateLimitResult.mk false 0 (60 * (k + 1)) 5].
Proof.
  intros Hfresh Hr. unfold fresh_identifier in Hfresh.
  set (config := RateLimitConfig.mk 5 60 prefix) in *.
  assert (H0 : in_window 60 k (clock (ticks w))) by (apply Hr; lia).
  assert (H2 : in_window 60 k (clock (S (S (ticks w))))) by (apply Hr; lia).
  destruct (isRedisEnabled env) eqn:Hbackend.
  - destruct (durable_count_absent (clock (S (ticks w))) _ _ Hfresh) as [Hc Hexp].
    destruct (rateLimit_durable_step identifier config Hbackend w 0 Hc)
      as (w1 & Hcall & Ht1 & Hs1).
    change (RateLimitConfig.windowInSeconds config) with 60 in Hcall, Hs1.
    change (RateLimitConfig.limit config) with 5 in Hcall.
    rewrite (window_end_in_window 60 k _ ltac:(lia) H0) in Hcall.
    assert (Hk1 : upstash w1 !! rate_key identifier config =
              Some (Stored.mk (string_of_Z 1) (Some (clock (S (S (ticks w))) + 60 * 1000)))).
    { rewrite Hs1. apply (store_INCR_EXPIRE _ _ _ _ 60 0); [lia | exact Hc |].
      rewrite Hexp. discriminate. }
    destruct (rateLimit_durable_run identifier config k 5 Hbackend ltac:(cbn; lia) w1 1 _
                ltac:(unfold int64_min; lia) ltac:(unfold int64_max; lia) Hk1)
      as (w2 & x2 & Hrest & _).
    { unfold in_window in H2. cbn. lia. }
    { intros i Hi. apply Hr. lia. }
    rewrite (repeatM_S _ _ _ _ _ _ _ Hcall Hrest). reflexivity.
  - destruct (rateLimit_memory_fresh identifier config Hbackend w) as (w1 & Hcall & Ht1 & Hs1).
    { intros e He. rewrite Hfresh in He. discriminate. }
    change (RateLimitConfig.windowInSeconds config) with 60 in Hcall, Hs1.
    change (RateLimitConfig.limit config) with 5 in Hcall.
    rewrite (window_end_in_window 60 k _ ltac:(lia) H0) in Hcall, Hs1.
    destruct (rateLimit_memory_run identifier config 5 Hbackend w1 1 _ Hs1)
      as (w2 & Hrest & _).
    { intros i Hi. assert (Hi' : in_window 60 k (clock i)) by (apply Hr; lia).
      unfold in_window in Hi'. lia. }
    rewrite (repeatM_S _ _ _ _ _ _ _ Hcall Hrest).
    rewrite Z.div_mul by lia. reflexivity.
Qed.

Lemma verdicts_denied (limit reset c : Z) (n : nat) :
  limit <= c ->
  verdicts limit reset c n = replicate n (RateLimitResult.mk false 0 reset limit).
Proof.
  revert c. induction n as [|n IH]; intros c Hc; [reflexivity|].
  cbn [verdicts replicate]. rewrite IH by lia. f_equal.
  unfold verdict. f_equal.
  - apply Z.leb_gt. lia.
  - lia.
Qed.

(** Calls inside the window of a counter, on either backend. *)
Lemma rateLimit_run (w : World T) identifier config (k c : Z) (n : nat) :
  0 < RateLimitConfig.windowInSeconds config ->
  counter_at env w (rate_key identifier config) (RateLimitConfig.windowInSeconds config) k c ->
  countable env c n ->
  readings clock (ticks w) (3 * n) (in_window (RateLimitConfig.windowInSeconds config) k) ->
  exists w',
    repeatM n (rateLimit env clock identifier config) w =
      (Return (verdicts (RateLimitConfig.limit config)
                 (RateLimitConfig.windowInSeconds config * (k + 1)) c n), w')
    /\ ticks w' = (ticks w + 3 * n)%nat
    /\ counter_at env w' (rate_key identifier config)
         (RateLimitConfig.windowInSeconds config) k (c + Z.of_nat n).
Proof.
  intros HW Hat Hfit Hr. unfold counter_at, countable in *.
  destruct (isRedisEnabled env) eqn:Hbackend.
  - destruct Hat as (x & He & Hx). destruct (Hfit eq_refl) as [Hlo Hhi].
    destruct (rateLimit_durable_run identifier config k n Hbackend HW w c x Hlo Hhi He Hx Hr)
      as (w' & x' & Hrun & Ht & He' & Hx').
    exists w'. split; [exact Hrun|]. split; [exact Ht|]. exists x'. auto.
  - destruct (rateLimit_memory_run identifier config n Hbackend w c _ Hat)
      as (w' & Hrun & Ht & He').
    { intros i Hi. specialize (Hr i Hi). unfold in_window in Hr. lia. }
    exists w'. rewrite Z.div_mul in Hrun by lia. auto.
Qed.

(** The first call of a window, on either backend: the counter is created
    and stands at 1. *)
Lemma rateLimit_first_call (w : World T) identifier config (k : Z) :
  0 < RateLimitConfig.windowInSeconds config ->
  fresh_identifier env w (rate_key identifier config) ->
  readings clock (ticks w) 3 (in_window (RateLimitConfig.windowInSeconds config) k) ->
  exists r w',
    rateLimit env clock identifier config w = (Return r, w')
    /\ counter_at env w' (rate_key identifier config)
         (RateLimitConfig.windowInSeconds config) k 1.
Proof.
  intros HW Hfresh Hr. unfold fresh_identifier, counter_at in *.
  assert (H0 : in_window (RateLimitConfig.windowInSeconds config) k (clock (ticks w)))
    by (apply Hr; lia).
  assert (H2 : in_window (RateLimitConfig.windowInSeconds config) k (clock (S (S (ticks w)))))
    by (apply Hr; lia).
  destruct (isRedisEnabled env) eqn:Hbackend.
  - destruct (durable_count_absent (clock (S (ticks w))) _ _ Hfresh) as [Hc Hexp].
    destruct (rateLimit_durable_step identifier config Hbackend w 0 Hc)
      as (w' & Hcall & _ & Hs).
    eexists _, w'. split; [exact Hcall|].
    exists (clock (S (S (ticks w))) + RateLimitConfig.windowInSeconds config * 1000). split.
    + rewrite Hs. apply (store_INCR_EXPIRE _ _ _ _ _ 0); [exact HW | exact Hc |].
      rewrite Hexp. discriminate.
    + unfold in_window in H2. lia.
  - destruct (rateLimit_memory_fresh identifier config Hbackend w) as (w' & Hcall & _ & Hs).
    { intros e He. rewrite Hfresh in He. discriminate. }
    eexists _, w'. split; [exact Hcall|].
    rewrite Hs, (window_end_in_window _ k _ HW H0). reflexivity.
Qed.

(** C4. Every call raises the stored count of its window by exactly one,
    whatever its answer. Inside the window of a counter, [n] calls in a row
    move the counter from [c] to [c + n] and are answered as counts [c + 1],
    ..., [c + n]; for a counter already at or over the limit every one of
    these answers is a denial with nothing remaining, and the count still
    goes up: the identifier stays denied for the rest of the window. The
    first call of a window, which finds no counter, leaves the count at 1.
    Both backends; on the remote store for counts that stay 64-bit
    integers, the only ones [INCR] raises. *)
Theorem rateLimit_denied_still_counts (w : World T) identifier config (k : Z) :
  0 < RateLimitConfig.windowInSeconds config ->
  (forall (c : Z) (n : nat),
     counter_at env w (rate_key identifier config)
       (RateLimitConfig.windowInSeconds config) k c ->
     countable env c n ->
     readings clock (ticks w) (3 * n)
       (in_window (RateLimitConfig.windowInSeconds config) k) ->
     exists w',
       repeatM n (rateLimit env clock identifier config) w =
         (Return (verdicts (RateLimitConfig.limit config)
                    (RateLimitConfig.windowInSeconds config * (k + 1)) c n), w')
       /\ counter_at env w' (rate_key identifier config)
            (RateLimitConfig.windowInSeconds config) k (c + Z.of_nat n)
       /\ (RateLimitConfig.limit config <= c ->
           (repeatM n (rateLimit env clock identifier config) w).1 =
             Return (replicate n (RateLimitResult.mk false 0
                                    (RateLimitConfig.windowInSeconds config * (k + 1))
                                    (RateLimitConfig.limit config)))))
  /\ (fresh_identifier env w (rate_key identifier config) ->
      readings clock (ticks w) 3 (in_window (RateLimitConfig.windowInSeconds config) k) ->
      exists r w',
        rateLimit env clock identifier config w = (Return r, w')
        /\ counter_at env w' (rate_key identifier config)
             (RateLimitConfig.windowInSeconds config) k 1).
Proof.
  intros HW. split.
  - intros c n Hat Hfit Hr.
    destruct (rateLimit_run w identifier config k c n HW Hat Hfit Hr) as (w' & Hrun & _ & Hat').
    exists w'. split; [exact Hrun|]. split; [exact Hat'|].
    intros Hover. rewrite Hrun. cbn [fst]. f_equal. now apply verdicts_denied.
  - now apply rateLimit_first_call.
Qed.

(** *** Window reset *)

Lemma store_EXPIRE_payload now (db : gmap string Stored.t) k seconds e :
  0 < seconds ->
  db !! k = Some e ->
  exists e', (store_EXPIRE now db k seconds).2 !! k = Some e'
             /\ Stored.payload e' = Stored.payload e.
Proof.
  intros Hs He. unfold store_EXPIRE.
  destruct (lookup_live now db k) as [e1|] eqn:Hl.
  - apply lookup_live_Some in Hl as [Hl _]. rewrite He in Hl. injection Hl as <-.
    destruct (seconds <=? 0) eqn:Hle; [apply Z.leb_le in Hle; lia|].
    cbn [snd]. rewrite lookup_insert_eq. eexists. split; reflexivity.
  - cbn [snd]. exists e. auto.
Qed.

Lemma stored_count_durable_step (db : gmap string Stored.t) k t1 t2 seconds c :
  0 < seconds ->
  durable_count t1 db k = Some c ->
  (store_EXPIRE t2 (store_INCR t1 db k).2 k seconds).2 !! k
    ≫= (fun e => decimal (Stored.payload e)) = Some (c + 1).
Proof.
  intros Hs Hc. rewrite (store_INCR_counted _ _ _ _ Hc). cbn [snd].
  destruct (store_EXPIRE_payload t2
              (<[k := Stored.mk (string_of_Z (c + 1)) (lookup_live t1 db k ≫= Stored.expireAt)]> db)
              k seconds _ Hs (lookup_insert_eq _ _ _)) as (e' & -> & Hp).
  cbn. rewrite Hp. cbn. apply decimal_of_Z.
Qed.

(** X18. What resets a counter. A call that finds the counter of its
    identifier over (or finds none) starts a fresh one: it is admitted with
    [remaining = limit - 1], the stored count is 1 and [reset] is the end of
    the window of the call, whatever the count had reached. On the
    in-process map the counter is over once its [reset] instant is strictly
    in the past; on the remote store once its key has expired. The fresh
    counter is kept until the end of the window of the call on the
    in-process map, and for [windowInSeconds] seconds from the call on the
    remote store. For a policy with a limit and a window of at least
    one. *)
Theorem rateLimit_window_reset (w : World T) identifier config :
  0 < RateLimitConfig.limit config ->
  0 < RateLimitConfig.windowInSeconds config ->
  monotone clock ->
  lapsed clock env w (rate_key identifier config) ->
  exists w',
    rateLimit env clock identifier config w =
      (Return (RateLimitResult.mk true (RateLimitConfig.limit config - 1)
                 (window_end (RateLimitConfig.windowInSeconds config) (clock (ticks w)))
                 (RateLimitConfig.limit config)), w')
    /\ stored_count env w' (rate_key identifier config) = Some 1
    /\ (isRedisEnabled env = true ->
        upstash w' !! rate_key identifier config =
          Some (Stored.mk (string_of_Z 1)
                  (Some (clock (S (S (ticks w)))
                         + RateLimitConfig.windowInSeconds config * 1000))))
    /\ (isRedisEnabled env = false ->
        memoryStore w' !! rate_key identifier config =
          Some (Counter.mk 1
                  (window_end (RateLimitConfig.windowInSeconds config) (clock (ticks w))
                   * 1000))).
Proof.
  intros Hlimit HW Hmono Hlapsed. unfold lapsed, stored_count in *.
  pose proof (Hmono (ticks w) (S (ticks w)) ltac:(lia)) as H01.
  destruct (isRedisEnabled env) eqn:Hbackend.
  - assert (Hl : lookup_live (clock (S (ticks w))) (upstash w) (rate_key identifier config)
                 = None).
    { destruct (lookup_live _ _ _) as [e|] eqn:Hl; [|reflexivity].
      apply lookup_live_Some in Hl as [He Hlive].
      destruct (Hlapsed e He) as (x & Hx & Hle).
      unfold live in Hlive. rewrite Hx in Hlive. apply Z.ltb_lt in Hlive. lia. }
    assert (Hc : durable_count (clock (S (ticks w))) (upstash w) (rate_key identifier config)
                 = Some 0).
    { unfold durable_count. rewrite Hl. reflexivity. }
    destruct (rateLimit_durable_step identifier config Hbackend w 0 Hc)
      as (w' & Hcall & _ & Hs).
    exists w'. split; [|split; [|split; [|discriminate]]].
    + rewrite Hcall. unfold verdict. do 2 f_equal.
      f_equal; [apply Z.leb_le; lia | lia].
    + rewrite Hs. now apply (stored_count_durable_step _ _ _ _ _ 0).
    + intros _. rewrite Hs. unfold store_INCR. rewrite Hl. cbn [snd].
      unfold store_EXPIRE, lookup_live. rewrite lookup_insert_eq.
      cbn [live Stored.expireAt Stored.payload].
      destruct (RateLimitConfig.windowInSeconds config <=? 0) eqn:Hle;
        [apply Z.leb_le in Hle; lia|].
      cbn [snd]. rewrite lookup_insert_eq. reflexivity.
  - destruct (rateLimit_memory_fresh identifier config Hbackend w) as (w' & Hcall & _ & Hs).
    { intros e He. specialize (Hlapsed e He). lia. }
    exists w'. split; [exact Hcall|]. rewrite Hs.
    split; [reflexivity|]. split; [discriminate | reflexivity].
Qed.

(** *** Shape of the answer *)

(** Calls with windows of [W] seconds keep the in-process counter one that
    was created for windows of [W] seconds. *)
Lemma rateLimit_keeps_minted (w : World T) identifier config :
  isRedisEnabled env = false ->
  monotone clock ->
  minted clock (RateLimitConfig.windowInSeconds config) w (rate_key identifier config) ->
  minted clock (RateLimitConfig.windowInSeconds config)
    (rateLimit env clock identifier config w).2 (rate_key identifier config).
Proof.
  intros Hoff Hmono Hm.
  pose proof (Hmono (S (ticks w)) (S (S (ticks w))) ltac:(lia)) as H12.
  destruct (memoryStore w !! rate_key identifier config) as [e|] eqn:He.
  - destruct (Z.lt_ge_cases (Counter.reset e) (clock (S (S (ticks w))))) as [Hlt|Hge].
    + destruct (Z.lt_ge_cases (Counter.reset e) (clock (S (ticks w)))) as [Hlt1|Hge1].
      * destruct (rateLimit_memory_fresh identifier config Hoff w) as (w' & Hcall & Ht & Hs).
        { intros e' He'. rewrite He in He'. injection He' as <-. exact Hlt1. }
        rewrite Hcall. cbn [snd]. intros e' He'. rewrite Hs in He'. injection He' as <-.
        exists (ticks w). split; [lia | reflexivity].
      * destruct (rateLimit_memory_lapsed identifier config Hoff w e He ltac:(lia) Hlt)
          as (w' & Hcall & Ht & Hs).
        rewrite Hcall. cbn [snd]. intros e' He'. rewrite Hs in He'. injection He' as <-.
        exists (ticks w). split; [lia | reflexivity].
    + destruct (rateLimit_memory_bump identifier config Hoff w e He ltac:(lia) ltac:(lia))
        as (w' & Hcall & Ht & Hs).
      rewrite Hcall. cbn [snd]. intros e' He'. rewrite Hs in He'. injection He' as <-.
      destruct (Hm e He) as (j & Hj & Hreset). exists j. split; [lia | exact Hreset].
  - destruct (rateLimit_memory_fresh identifier config Hoff w) as (w' & Hcall & Ht & Hs).
    { intros e' He'. rewrite He in He'. discriminate. }
    rewrite Hcall. cbn [snd]. intros e' He'. rewrite Hs in He'. injection He' as <-.
    exists (ticks w). split; [lia | reflexivity].
Qed.

Lemma minted_boot W key : minted clock W (boot (T := T)) key.
Proof. intros e He. cbn in He. rewrite lookup_empty in He. discriminate. Qed.

(** C10, as the code has it. For a policy with [limit >= 1] and
    [windowInSeconds >= 1], under a clock that does not go back, a call that
    finds a well-formed counter returns; [limit] is the policy's,
    [remaining] is [max 0 (limit - count)] for the count the call leaves in
    the store, hence never negative; [reset] is the end of a fixed window
    of [windowInSeconds] seconds, with [now <= reset <= now +
    windowInSeconds] for [now] the second in which the call starts: on the
    remote store, and on the in-process map when the call starts a counter,
    the window of the call; on the in-process map when the call finds a
    counter that is not over, the window that counter was created in, whose
    end the counter keeps. Well-formed means, on the remote store, nothing
    or a value that [INCR] can raise; on the in-process map, created by a
    call that used the same [windowInSeconds]. *)
Theorem rateLimit_result_shape (w : World T) identifier config :
  0 < RateLimitConfig.limit config ->
  0 < RateLimitConfig.windowInSeconds config ->
  monotone clock ->
  counter_wf clock env (RateLimitConfig.windowInSeconds config) w (rate_key identifier config) ->
  exists r w' count,
    rateLimit env clock identifier config w = (Return r, w')
    /\ stored_count env w' (rate_key identifier config) = Some count
    /\ RateLimitResult.limit r = RateLimitConfig.limit config
    /\ RateLimitResult.remaining r = Z.max 0 (RateLimitConfig.limit config - count)
    /\ 0 <= RateLimitResult.remaining r
    /\ clock (ticks w) / 1000 <= RateLimitResult.reset r
         <= clock (ticks w) / 1000 + RateLimitConfig.windowInSeconds config
    /\ (exists j : nat,
          (j <= ticks w)%nat
          /\ RateLimitResult.reset r
               = window_end (RateLimitConfig.windowInSeconds config) (clock j))
    /\ (isRedisEnabled env = true ->
        RateLimitResult.reset r
          = window_end (RateLimitConfig.windowInSeconds config) (clock (ticks w)))
    /\ (isRedisEnabled env = false ->
        match memoryStore w !! rate_key identifier config with
        | Some e =>
            if Counter.reset e <? clock (S (S (ticks w))) then
              RateLimitResult.reset r
                = window_end (RateLimitConfig.windowInSeconds config) (clock (ticks w))
            else RateLimitResult.reset r * 1000 = Counter.reset e
        | None =>
            RateLimitResult.reset r
              = window_end (RateLimitConfig.windowInSeconds config) (clock (ticks w))
        end).
Proof.
  intros Hlimit HW Hmono Hwf. unfold counter_wf, stored_count in *.
  pose proof (window_end_bounds _ (clock (ticks w)) HW) as Hbounds.
  pose proof (Hmono (ticks w) (S (S (ticks w))) ltac:(lia)) as H02.
  pose proof (Hmono (S (ticks w)) (S (S (ticks w))) ltac:(lia)) as H12.
  destruct (isRedisEnabled env) eqn:Hbackend.
  - destruct Hwf as [c Hc].
    destruct (rateLimit_durable_step identifier config Hbackend w c Hc)
      as (w' & Hcall & _ & Hs).
    eexists _, w', (c + 1). split; [exact Hcall|]. split.
    { rewrite Hs. now apply stored_count_durable_step. }
    cbn [verdict RateLimitResult.limit RateLimitResult.remaining RateLimitResult.reset].
    split; [reflexivity|]. split; [reflexivity|]. split; [lia|]. split; [lia|].
    split; [exists (ticks w); split; [lia | reflexivity]|].
    split; [reflexivity | discriminate].
  - assert (Hfresh : forall w' : World T,
              memoryStore w' !! rate_key identifier config =
                Some (Counter.mk 1 (window_end (RateLimitConfig.windowInSeconds config)
                                      (clock (ticks w)) * 1000)) ->
              Counter.count <$> memoryStore w' !! rate_key identifier config = Some 1
              /\ RateLimitConfig.limit config = RateLimitConfig.limit config
              /\ RateLimitConfig.limit config - 1 = Z.max 0 (RateLimitConfig.limit config - 1)
              /\ 0 <= RateLimitConfig.limit config - 1
              /\ clock (ticks w) / 1000
                   <= window_end (RateLimitConfig.windowInSeconds config) (clock (ticks w))
                   <= clock (ticks w) / 1000 + RateLimitConfig.windowInSeconds config
              /\ (exists j : nat,
                    (j <= ticks w)%nat
                    /\ window_end (RateLimitConfig.windowInSeconds config) (clock (ticks w))
                         = window_end (RateLimitConfig.windowInSeconds config) (clock j))
              /\ (false = true ->
                  window_end (RateLimitConfig.windowInSeconds config) (clock (ticks w))
                    = window_end (RateLimitConfig.windowInSeconds config) (clock (ticks w)))).
    { intros w' ->. repeat split; try lia. exists (ticks w). split; [lia | reflexivity]. }
    destruct (memoryStore w !! rate_key identifier config) as [e|] eqn:He.
    + destruct (Z.lt_ge_cases (Counter.reset e) (clock (S (S (ticks w))))) as [Hlt|Hge].
      * assert (Hb : (Counter.reset e <? clock (S (S (ticks w)))) = true)
          by now apply Z.ltb_lt.
        destruct (Z.lt_ge_cases (Counter.reset e) (clock (S (ticks w)))) as [Hlt1|Hge1].
        -- destruct (rateLimit_memory_fresh identifier config Hbackend w)
             as (w' & Hcall & _ & Hs).
           { intros e' He'. rewrite He in He'. injection He' as <-. exact Hlt1. }
           eexists _, w', 1. split; [exact Hcall|].
           cbn [RateLimitResult.limit RateLimitResult.remaining RateLimitResult.reset].
           rewrite Hb. destruct (Hfresh w' Hs) as (? & ? & ? & ? & ? & ? & ?).
           repeat split; auto; lia.
        -- destruct (rateLimit_memory_lapsed identifier config Hbackend w e He ltac:(lia) Hlt)
             as (w' & Hcall & _ & Hs).
           eexists _, w', 1. split; [exact Hcall|].
           cbn [RateLimitResult.limit RateLimitResult.remaining RateLimitResult.reset].
           rewrite Hb. destruct (Hfresh w' Hs) as (? & ? & ? & ? & ? & ? & ?).
           repeat split; auto; lia.
      * assert (Hb : (Counter.reset e <? clock (S (S (ticks w)))) = false)
          by now apply Z.ltb_ge.
        destruct (rateLimit_memory_bump identifier config Hbackend w e He ltac:(lia) ltac:(lia))
          as (w' & Hcall & _ & Hs).
        eexists _, w', (Counter.count e + 1). split; [exact Hcall|]. split.
        { rewrite Hs. reflexivity. }
        cbn [verdict RateLimitResult.limit RateLimitResult.remaining RateLimitResult.reset].
        destruct (Hwf e He) as (j & Hj & Hreset).
        pose proof (Hmono j (ticks w) ltac:(lia)) as Hj0.
        pose proof (window_end_bounds _ (clock j) HW) as Hbj.
        pose proof (Z.div_le_mono _ _ 1000 ltac:(lia) Hj0) as Hdiv.
        pose proof (Z.div_le_mono _ _ 1000 ltac:(lia) (Z.le_trans _ _ _ H02 Hge)) as Hlow.
        rewrite Hb. rewrite Hreset in *. rewrite Z.div_mul in * by lia.
        split; [reflexivity|]. split; [reflexivity|]. split; [lia|]. split; [lia|].
        split; [exists j; split; [lia | reflexivity]|].
        split; [discriminate | reflexivity].
    + destruct (rateLimit_memory_fresh identifier config Hbackend w) as (w' & Hcall & _ & Hs).
      { intros e' He'. rewrite He in He'. discriminate. }
      eexists _, w', 1. split; [exact Hcall|].
      cbn [RateLimitResult.limit RateLimitResult.remaining RateLimitResult.reset].
      destruct (Hfresh w' Hs) as (? & ? & ? & ? & ? & ? & ?).
      repeat split; auto; lia.
Qed.

(** *** client.ts: calls in a row *)

Lemma getRedis_disabled :
  Env.USE_REDIS env = false -> getRedis env (T := T) = mret None.
Proof. unfold getRedis. intros ->. reflexivity. Qed.

Lemma getRedis_misconfigured :
  Env.USE_REDIS env = true ->
  isRedisEnabled env = false ->
  getRedis env (T := T) = (console_warn misconfiguration_warning;; mret None).
Proof.
  unfold getRedis, isRedisEnabled. intros ->. cbn [negb andb]. intros H.
  destruct (truthy_opt (Env.UPSTASH_REDIS_REST_URL env)); cbn in *; [rewrite H|]; reflexivity.
Qed.

Lemma getRedis_reuses (w : World T) (h : Redis.t) :
  isRedisEnabled env = true ->
  redis w = Some h ->
  getRedis env w = (Return (Some h), w).
Proof.
  unfold getRedis, isRedisEnabled. intros H Hr.
  destruct (Env.USE_REDIS env); cbn in H; [|discriminate].
  destruct (truthy_opt (Env.UPSTASH_REDIS_REST_URL env)); cbn in H; [|discriminate].
  rewrite H. cbn [negb orb]. run. rewrite Hr. rewrite Hr. reflexivity.
Qed.

Lemma getRedis_constructs (w : World T) :
  isRedisEnabled env = true ->
  url_accepted (default ""%string (Env.UPSTASH_REDIS_REST_URL env)) = true ->
  redis w = None ->
  exists h,
    getRedis env w = (Return (Some h), with_redis (Some h) (S (constructed w)) w).
Proof.
  unfold getRedis, isRedisEnabled. intros H Hurl Hr.
  destruct (Env.USE_REDIS env); cbn in H; [|discriminate].
  destruct (truthy_opt (Env.UPSTASH_REDIS_REST_URL env)); cbn in H; [|discriminate].
  rewrite H. cbn [negb orb]. unfold new_Redis. rewrite Hurl. run. rewrite Hr. fields.
  eexists. reflexivity.
Qed.

(** With a URL that the constructor does not accept, a call that holds no
    client throws the constructor's error and leaves everything as it
    was. *)
Lemma getRedis_rejects (w : World T) :
  isRedisEnabled env = true ->
  url_accepted (default ""%string (Env.UPSTASH_REDIS_REST_URL env)) = false ->
  redis w = None ->
  getRedis env w = (Throw "UrlError", w).
Proof.
  unfold getRedis, isRedisEnabled. intros H Hurl Hr.
  destruct (Env.USE_REDIS env); cbn in H; [|discriminate].
  destruct (truthy_opt (Env.UPSTASH_REDIS_REST_URL env)); cbn in H; [|discriminate].
  rewrite H. cbn [negb orb]. unfold new_Redis. rewrite Hurl. run. rewrite Hr.
  reflexivity.
Qed.

Lemma repeatM_getRedis_reuses (n : nat) (w : World T) (h : Redis.t) :
  isRedisEnabled env = true ->
  redis w = Some h ->
  repeatM n (getRedis env) w = (Return (replicate n (Some h)), w).
Proof.
  intros Hon Hr. induction n as [|n IH]; [reflexivity|].
  cbn [replicate]. eapply repeatM_S; [apply getRedis_reuses|]; eassumption.
Qed.

(** C8, as the code has it. While the remote store is not enabled, or
    enabled with a credential missing, [getRedis] never throws: every one
    of [n] calls in a row returns nothing and constructs nothing, and
    [console.warn] gets the warning at every call made with a credential
    missing (and nothing when [USE_REDIS] is off). Enabled with both
    credentials, when a client is held already or the constructor accepts
    the URL, [getRedis] never throws either: every one of [n] calls in a
    row returns the same client, the one already held if there is one, and
    at most one client is constructed. Enabled with both credentials, no
    client held and a URL that the constructor does not accept, the call
    throws the constructor's error and leaves everything as it was, so the
    next call does the same. *)
Theorem getRedis_calls (w : World T) (n : nat) :
  (isRedisEnabled env = false ->
   exists w',
     repeatM n (getRedis env) w = (Return (replicate n None), w')
     /\ redis w' = redis w
     /\ constructed w' = constructed w
     /\ (Env.USE_REDIS env = false -> console w' = console w)
     /\ (Env.USE_REDIS env = true ->
         console w' = console w ++ replicate n misconfiguration_warning))
  /\ (isRedisEnabled env = true ->
      (redis w = None ->
       url_accepted (default ""%string (Env.UPSTASH_REDIS_REST_URL env)) = true) ->
      exists h w',
        repeatM n (getRedis env) w = (Return (replicate n (Some h)), w')
        /\ console w' = console w
        /\ (constructed w' <= S (constructed w))%nat
        /\ (forall h0, redis w = Some h0 -> h = h0 /\ constructed w' = constructed w)
        /\ ((0 < n)%nat -> redis w' = Some h))
  /\ (isRedisEnabled env = true ->
      redis w = None ->
      url_accepted (default ""%string (Env.UPSTASH_REDIS_REST_URL env)) = false ->
      getRedis env w = (Throw "UrlError", w)
      /\ repeatM (S n) (getRedis env) w = (Throw "UrlError", w)).
Proof.
  split; [|split].
  - intros Hbackend. destruct (Env.USE_REDIS env) eqn:Huse.
    + assert (Hrun : forall w0 : World T,
                repeatM n (getRedis env) w0 =
                  (Return (replicate n None),
                   with_console (console w0 ++ replicate n misconfiguration_warning) w0)).
      { induction n as [|n IH]; intros w0.
        - cbn [repeatM replicate]. run. rewrite app_nil_r. unfold with_console.
          now rewrite world_eta.
        - cbn [replicate]. eapply repeatM_S.
          + rewrite (getRedis_misconfigured Huse Hbackend). run. reflexivity.
          + rewrite IH. fields. unfold with_console. fields.
            now rewrite <- app_assoc. }
      eexists. split; [apply Hrun|]. fields.
      split; [reflexivity|]. split; [reflexivity|]. split; [discriminate | auto].
    + exists w. split.
      { rewrite (getRedis_disabled Huse). induction n as [|n IH]; [reflexivity|].
        cbn [replicate]. eapply repeatM_S; [reflexivity | exact IH]. }
      split; [reflexivity|]. split; [reflexivity|]. split; [auto | discriminate].
  - intros Hbackend Hurl. destruct (redis w) as [h0|] eqn:Hr.
    + exists h0, w. split; [now apply repeatM_getRedis_reuses|].
      split; [reflexivity|]. split; [lia|]. split.
      * intros h1 [= <-]. auto.
      * intros _. exact Hr.
    + destruct n as [|n].
      * exists (Redis.mk "" "" 0), w. split; [reflexivity|].
        split; [reflexivity|]. split; [lia|]. split; [discriminate | lia].
      * destruct (getRedis_constructs w Hbackend (Hurl eq_refl) Hr) as [h Hcall].
        exists h, (with_redis (Some h) (S (constructed w)) w). split.
        { cbn [replicate]. eapply repeatM_S; [exact Hcall|].
          now apply repeatM_getRedis_reuses. }
        fields. split; [reflexivity|]. split; [lia|]. split; [discriminate | reflexivity].
  - intros Hbackend Hr Hurl.
    pose proof (getRedis_rejects w Hbackend Hurl Hr) as Hcall.
    split; [exact Hcall|].
    cbn [repeatM]. run. rewrite Hcall. reflexivity.
Qed.

(** *** cache.ts on the in-process map *)

Section CacheMemory.

Hypothesis Hoff : isRedisEnabled env = false.

Lemma set_memory (w : World T) key value config :
  exists c,
    set stringify env clock key value config w =
      (Return tt,
       with_memoryCache
         (<[cache_key key (CacheConfig.keyPrefix config) :=
              CacheEntry.mk value (clock (ticks w) + default 300 (CacheConfig.ttl config) * 1000)]>
            (memoryCache w))
         (with_ticks (S (ticks w)) (with_console c w))).
Proof.
  destruct (getRedis_unavailable w Hoff) as [c Hc]. exists c.
  unfold set. run. rewrite Hc. reflexivity.
Qed.

Lemma del_memory (w : World T) key keyPrefix :
  exists c,
    del env clock key keyPrefix w =
      (Return tt, with_memoryCache (delete (cache_key key keyPrefix) (memoryCache w))
                    (with_console c w)).
Proof.
  destruct (getRedis_unavailable w Hoff) as [c Hc]. exists c.
  unfold del. run. rewrite Hc. reflexivity.
Qed.

Lemma get_memory_absent (w : World T) key keyPrefix :
  memoryCache w !! cache_key key keyPrefix = None ->
  exists c, get parse env clock key keyPrefix w = (Return None, with_console c w).
Proof.
  intros Hk. destruct (getRedis_unavailable w Hoff) as [c Hc]. exists c.
  unfold get. run. rewrite Hc. fields.
  fold (cache_key key keyPrefix). rewrite Hk. reflexivity.
Qed.

Lemma get_memory_present (w : World T) key keyPrefix (e : CacheEntry.t T) :
  memoryCache w !! cache_key key keyPrefix = Some e ->
  exists c,
    get parse env clock key keyPrefix w =
      (Return (if CacheEntry.expiry e >? clock (ticks w) then Some (CacheEntry.data e) else None),
       with_ticks (S (ticks w)) (with_console c w)).
Proof.
  intros Hk. destruct (getRedis_unavailable w Hoff) as [c Hc]. exists c.
  unfold get. run. rewrite Hc. fields.
  fold (cache_key key keyPrefix). rewrite Hk. fields.
  destruct (CacheEntry.expiry e >? clock (ticks w)); reflexivity.
Qed.

(** [getOrSet] sweeps, then looks its key up in what the sweep left. *)
Lemma getOrSet_memory (w : World T) key fetcher config :
  exists c,
    let swept :=
      with_memoryCache
        (filter (fun kv : string * CacheEntry.t T => ~ CacheEntry.expiry kv.2 < clock (ticks w))
           (memoryCache w))
        (with_ticks (S (ticks w)) (with_console c w)) in
    getOrSet stringify parse env clock key fetcher config w =
      match memoryCache swept !! cache_key key (CacheConfig.keyPrefix config) with
      | None =>
          fetch_and_cache_memory clock (cache_key key (CacheConfig.keyPrefix config))
            (default 300 (CacheConfig.ttl config)) fetcher swept
      | Some cached =>
          if CacheEntry.expiry cached >? clock (S (ticks w)) then
            (Return (CacheEntry.data cached), with_ticks (S (S (ticks w))) swept)
          else
            fetch_and_cache_memory clock (cache_key key (CacheConfig.keyPrefix config))
              (default 300 (CacheConfig.ttl config)) fetcher
              (with_ticks (S (S (ticks w))) swept)
      end.
Proof.
  destruct (getRedis_unavailable w Hoff) as [c Hc]. exists c.
  unfold getOrSet, cleanupMemoryCache. run. rewrite Hc. fields.
  fold (cache_key key (CacheConfig.keyPrefix config)).
  destruct (filter _ (memoryCache w) !! cache_key key (CacheConfig.keyPrefix config)) as [e|];
    [|reflexivity].
  fields. destruct (CacheEntry.expiry e >? clock (S (ticks w))); reflexivity.
Qed.

Lemma fetch_and_cache_memory_returns (w w' : World T) fullKey ttl fetcher (d : T) :
  fetcher (with_invoked (S (invoked w)) w) = (Return d, w') ->
  fetch_and_cache_memory clock fullKey ttl fetcher w =
    (Return d,
     with_memoryCache (<[fullKey := CacheEntry.mk d (clock (ticks w') + ttl * 1000)]> (memoryCache w'))
       (with_ticks (S (ticks w')) w')).
Proof.
  intros Hf. unfold fetch_and_cache_memory, invoke. run. rewrite Hf. reflexivity.
Qed.

Lemma fetch_and_cache_memory_throws (w w' : World T) fullKey ttl fetcher msg :
  fetcher (with_invoked (S (invoked w)) w) = (Throw msg, w') ->
  fetch_and_cache_memory clock fullKey ttl fetcher w = (Throw msg, w').
Proof.
  intros Hf. unfold fetch_and_cache_memory, invoke. run. rewrite Hf. reflexivity.
Qed.

End CacheMemory.

(** *** cache.ts on the remote store *)

Section CacheDurable.

Hypothesis Hon : isRedisEnabled env = true.

Lemma set_durable (w : World T) key value config :
  0 < default 300 (CacheConfig.ttl config) ->
  exists h n,
    set stringify env clock key value config w =
      (Return tt,
       with_upstash
         (<[cache_key key (CacheConfig.keyPrefix config) :=
              Stored.mk (stringify value)
                (Some (clock (ticks w) + default 300 (CacheConfig.ttl config) * 1000))]>
            (upstash w))
         (with_ticks (S (ticks w)) (with_redis (Some h) n w))).
Proof.
  intros Httl. destruct (getRedis_available w Hon) as (h & n & Hh). exists h, n.
  unfold set, redis_setex, store_SETEX. run. rewrite Hh. fields.
  destruct (default 300 (CacheConfig.ttl config) <=? 0) eqn:Hle;
    [apply Z.leb_le in Hle; lia|].
  reflexivity.
Qed.

Lemma get_durable (w : World T) key keyPrefix :
  exists h n,
    get parse env clock key keyPrefix w =
      (Return (durable_hit parse (clock (ticks w)) (upstash w) (cache_key key keyPrefix)),
       with_ticks (S (ticks w)) (with_redis (Some h) n w)).
Proof.
  destruct (getRedis_available w Hon) as (h & n & Hh). exists h, n.
  unfold get, redis_get, durable_hit. run. rewrite Hh. fields.
  fold (cache_key key keyPrefix).
  destruct (store_GET _ _ _) as [s|]; [|reflexivity].
  cbn [fmap option_fmap option_map mbind option_bind]. unfold read_back.
  destruct (truthy_reply _); reflexivity.
Qed.

Lemma getOrSet_durable (w : World T) key fetcher config :
  exists h n,
    getOrSet stringify parse env clock key fetcher config w =
      match durable_hit parse (clock (ticks w)) (upstash w)
              (cache_key key (CacheConfig.keyPrefix config)) with
      | Some v => (Return v, with_ticks (S (ticks w)) (with_redis (Some h) n w))
      | None =>
          fetch_and_cache_redis stringify clock h (cache_key key (CacheConfig.keyPrefix config))
            (default 300 (CacheConfig.ttl config)) fetcher
            (with_ticks (S (ticks w)) (with_redis (Some h) n w))
      end.
Proof.
  destruct (getRedis_available w Hon) as (h & n & Hh). exists h, n.
  unfold getOrSet, redis_get, durable_hit. run. rewrite Hh. fields.
  fold (cache_key key (CacheConfig.keyPrefix config)).
  destruct (store_GET _ _ _) as [s|]; [|reflexivity].
  cbn [fmap option_fmap option_map mbind option_bind]. unfold read_back.
  destruct (truthy_reply _); [|reflexivity].
  destruct (JSON_parse _ _); reflexivity.
Qed.

Lemma fetch_and_cache_redis_returns (w w' : World T) h fullKey ttl fetcher (d : T) :
  0 < ttl ->
  fetcher (with_invoked (S (invoked w)) w) = (Return d, w') ->
  fetch_and_cache_redis stringify clock h fullKey ttl fetcher w =
    (Return d,
     with_upstash
       (<[fullKey := Stored.mk (stringify d) (Some (clock (ticks w') + ttl * 1000))]> (upstash w'))
       (with_ticks (S (ticks w')) w')).
Proof.
  intros Httl Hf. unfold fetch_and_cache_redis, invoke, redis_setex, store_SETEX. run.
  rewrite Hf. fields.
  destruct (ttl <=? 0) eqn:Hle; [apply Z.leb_le in Hle; lia|]. reflexivity.
Qed.

End CacheDurable.

(** A value that survives the conversions is read back from its text. *)
Lemma read_back_survives (v : T) :
  survives stringify parse v -> read_back parse (stringify v) = Some v.
Proof.
  intros (Hp & Hb & Hs & Hn). unfold read_back, parseResponse. rewrite Hp.
  destruct (is_number v) eqn:Hnum; cbn [andb].
  - rewrite (Hn eq_refl), String.eqb_refl. cbn [negb truthy_reply JSON_parse].
    rewrite Hb. exact Hs.
  - cbn [truthy_reply JSON_parse]. rewrite Hb. exact Hs.
Qed.

(** A text that [JSON.parse] rejects is read back as nothing. *)
Lemma read_back_malformed (raw : string) : parse raw = None -> read_back parse raw = None.
Proof.
  intros Hp. unfold read_back, parseResponse. rewrite Hp.
  cbn [truthy_reply JSON_parse]. rewrite Hp. now destruct (truthy raw).
Qed.

Lemma durable_hit_stored now (db : gmap string Stored.t) fullKey (v : T) x :
  survives stringify parse v ->
  db !! fullKey = Some (Stored.mk (stringify v) (Some x)) ->
  durable_hit parse now db fullKey = if now <? x then Some v else None.
Proof.
  intros Hv Hk. unfold durable_hit, store_GET, lookup_live. rewrite Hk.
  unfold live. cbn [Stored.expireAt].
  destruct (now <? x); cbn; [now apply read_back_survives | reflexivity].
Qed.

(** *** Expiry *)

Lemma set_durable_rejects (w : World T) key value config :
  isRedisEnabled env = true ->
  default 300 (CacheConfig.ttl config) <= 0 ->
  exists msg w', set stringify env clock key value config w = (Throw msg, w').
Proof.
  intros Hon Httl. destruct (getRedis_available w Hon) as (h & n & Hh).
  unfold set, redis_setex, store_SETEX. run. rewrite Hh. fields.
  destruct (default 300 (CacheConfig.ttl config) <=? 0) eqn:Hle;
    [|apply Z.leb_gt in Hle; lia].
  eexists _, _. reflexivity.
Qed.

(** A read never returns an entry that has reached its expiry: [get] answers
    nothing and [getOrSet] goes to its fetch-and-cache block, no producer
    called yet. *)
Lemma expired_never_read (w : World T) key fetcher config :
  readings clock (ticks w) 2
    (expired_at env w (cache_key key (CacheConfig.keyPrefix config))) ->
  (get parse env clock key (CacheConfig.keyPrefix config) w).1 = Return None
  /\ exists h w',
       invoked w' = invoked w
       /\ getOrSet stringify parse env clock key fetcher config w =
         (if isRedisEnabled env
          then fetch_and_cache_redis stringify clock h
                 (cache_key key (CacheConfig.keyPrefix config))
                 (default 300 (CacheConfig.ttl config)) fetcher
          else fetch_and_cache_memory clock
                 (cache_key key (CacheConfig.keyPrefix config))
                 (default 300 (CacheConfig.ttl config)) fetcher) w'.
Proof.
  intros Hr.
  pose proof (Hr (ticks w) ltac:(lia)) as H0.
  pose proof (Hr (S (ticks w)) ltac:(lia)) as H1.
  unfold expired_at in *.
  destruct (isRedisEnabled env) eqn:Hbackend.
  - destruct H0 as (e & x & He & Hx & Hle).
    assert (Hmiss : durable_hit parse (clock (ticks w)) (upstash w)
                      (cache_key key (CacheConfig.keyPrefix config)) = None).
    { unfold durable_hit, store_GET, lookup_live, live. rewrite He, Hx.
      destruct (clock (ticks w) <? x) eqn:Hlt; [apply Z.ltb_lt in Hlt; lia | reflexivity]. }
    split.
    + destruct (get_durable Hbackend w key (CacheConfig.keyPrefix config)) as (h & n & ->).
      cbn [fst]. now rewrite Hmiss.
    + destruct (getOrSet_durable Hbackend w key fetcher config) as (h & n & ->).
      rewrite Hmiss. eexists _, _. split; [|reflexivity]. reflexivity.
  - destruct H0 as (e & He & Hle). destruct H1 as (e1 & He1 & Hle1).
    rewrite He in He1. injection He1 as <-.
    split.
    + destruct (get_memory_present Hbackend w key (CacheConfig.keyPrefix config) e He)
        as (c & ->).
      cbn [fst]. destruct (CacheEntry.expiry e >? clock (ticks w)) eqn:Hgt; [|reflexivity].
      apply Z.gtb_lt in Hgt. lia.
    + exists (Redis.mk "" "" 0).
      destruct (getOrSet_memory Hbackend w key fetcher config) as (c & ->).
      cbv zeta. fields.
      destruct (filter _ (memoryCache w) !! _) as [e'|] eqn:Hf.
      * apply map_lookup_filter_Some in Hf as [Hf _]. rewrite He in Hf. injection Hf as <-.
        destruct (CacheEntry.expiry e >? clock (S (ticks w))) eqn:Hgt.
        { apply Z.gtb_lt in Hgt. lia. }
        eexists. split; [|reflexivity]. reflexivity.
      * eexists. split; [|reflexivity]. reflexivity.
Qed.

(** X19. A value that survives the conversions of the remote store, stored
    by [set] with a time to live of [T] seconds, is what [get] returns as
    long as less than [T] seconds (counted in milliseconds on the clock)
    have passed since the store, and [get] returns nothing once [T] seconds
    or more have passed. An entry that has reached its expiry is not
    returned by [get], nor by [getOrSet], which returns what its producer
    returns. Both backends; on the in-process map for every value. *)
Theorem cache_ttl_expiry (w w2 : World T) key value config :
  (set stringify env clock key value config w).1 = Return tt ->
  (isRedisEnabled env = true -> survives stringify parse value) ->
  same_entry env (set stringify env clock key value config w).2 w2
    (cache_key key (CacheConfig.keyPrefix config)) ->
  (clock (ticks w2) - clock (ticks w) < default 300 (CacheConfig.ttl config) * 1000 ->
   (get parse env clock key (CacheConfig.keyPrefix config) w2).1 = Return (Some value))
  /\ (default 300 (CacheConfig.ttl config) * 1000 <= clock (ticks w2) - clock (ticks w) ->
      (get parse env clock key (CacheConfig.keyPrefix config) w2).1 = Return None)
  /\ (forall (w3 : World T) fetcher,
        readings clock (ticks w3) 2
          (expired_at env w3 (cache_key key (CacheConfig.keyPrefix config))) ->
        (get parse env clock key (CacheConfig.keyPrefix config) w3).1 = Return None
        /\ exists w_in,
             invoked w_in = invoked w3
             /\ forall (d : T) (w_out : World T),
                  fetcher (with_invoked (S (invoked w_in)) w_in) = (Return d, w_out) ->
                  (getOrSet stringify parse env clock key fetcher config w3).1 = Return d).
Proof.
  intros Hset Hjson Hsame.
  assert (Httl : isRedisEnabled env = true -> 0 < default 300 (CacheConfig.ttl config)).
  { intros Hbackend.
    destruct (Z.le_gt_cases (default 300 (CacheConfig.ttl config)) 0) as [Hle|Hpos]; [|lia].
    destruct (set_durable_rejects w key value config Hbackend Hle) as (msg & w' & Hthrow).
    rewrite Hthrow in Hset. discriminate. }
  assert (Hget : (get parse env clock key (CacheConfig.keyPrefix config) w2).1 =
                 Return (if clock (ticks w2) <?
                            clock (ticks w) + default 300 (CacheConfig.ttl config) * 1000
                         then Some value else None)).
  { unfold same_entry in Hsame. destruct (isRedisEnabled env) eqn:Hbackend.
    - destruct (set_durable Hbackend w key value config (Httl eq_refl)) as (h & n & Hs).
      rewrite Hs in Hsame. cbn [snd] in Hsame. fields. revert Hsame. fields.
      rewrite lookup_insert_eq. intros Hk.
      destruct (get_durable Hbackend w2 key (CacheConfig.keyPrefix config)) as (h2 & n2 & ->).
      cbn [fst]. f_equal. apply durable_hit_stored; [exact (Hjson eq_refl) | exact Hk].
    - destruct (set_memory Hbackend w key value config) as (c & Hs).
      rewrite Hs in Hsame. cbn [snd] in Hsame. revert Hsame. fields.
      rewrite lookup_insert_eq. intros Hk.
      destruct (get_memory_present Hbackend w2 key (CacheConfig.keyPrefix config) _ Hk)
        as (c2 & ->).
      cbn [fst CacheEntry.expiry CacheEntry.data]. rewrite Z.gtb_ltb. reflexivity. }
  split; [|split].
  - intros Hlt. rewrite Hget.
    destruct (_ <? _) eqn:Hb; [reflexivity | apply Z.ltb_ge in Hb; lia].
  - intros Hge. rewrite Hget.
    destruct (_ <? _) eqn:Hb; [apply Z.ltb_lt in Hb; lia | reflexivity].
  - intros w3 fetcher Hr.
    destruct (expired_never_read w3 key fetcher config Hr) as (Hnone & h & w_in & Hinv & Hcall).
    split; [exact Hnone|]. exists w_in. split; [exact Hinv|].
    intros d w_out Hf. rewrite Hcall. destruct (isRedisEnabled env) eqn:Hbackend.
    + now rewrite (fetch_and_cache_redis_returns w_in w_out h _ _ fetcher d (Httl eq_refl) Hf).
    + now rewrite (fetch_and_cache_memory_returns _ _ _ _ _ _ Hf).
Qed.

(** *** Hits after a production *)

Lemma fetch_and_cache_memory_inv (w w1 : World T) fullKey ttl fetcher (v : T) :
  fetch_and_cache_memory clock fullKey ttl fetcher w = (Return v, w1) ->
  exists w3,
    fetcher (with_invoked (S (invoked w)) w) = (Return v, w3)
    /\ w1 = with_memoryCache
              (<[fullKey := CacheEntry.mk v (clock (ticks w3) + ttl * 1000)]> (memoryCache w3))
              (with_ticks (S (ticks w3)) w3).
Proof.
  unfold fetch_and_cache_memory, invoke. run.
  destruct (fetcher _) as [[d|msg] w3]; [|discriminate].
  intros [= <- <-]. exists w3. split; reflexivity.
Qed.

Lemma fetch_and_cache_redis_inv (w w1 : World T) h fullKey ttl fetcher (v : T) :
  fetch_and_cache_redis stringify clock h fullKey ttl fetcher w = (Return v, w1) ->
  exists w3,
    fetcher (with_invoked (S (invoked w)) w) = (Return v, w3)
    /\ 0 < ttl
    /\ w1 = with_upstash
              (<[fullKey := Stored.mk (stringify v) (Some (clock (ticks w3) + ttl * 1000))]>
                 (upstash w3))
              (with_ticks (S (ticks w3)) w3).
Proof.
  unfold fetch_and_cache_redis, invoke, redis_setex, store_SETEX. run.
  destruct (fetcher _) as [[d|msg] w3]; [|discriminate]. fields.
  destruct (ttl <=? 0) eqn:Hle; [discriminate|].
  intros [= <- <-]. exists w3. apply Z.leb_gt in Hle. repeat split. lia.
Qed.

(** X20. After a [getOrSet] on [K] with [{ttl: 300}] has returned a value
    [v1] that survives the conversions of the remote store, a [getOrSet] on
    [K] made while the entry it left is before its expiry returns [v1] and
    does not call its producer, whatever that producer is. When nothing was
    cached under [K] before the first call, so that [v1] was produced by
    it, the entry is before its expiry for 300 seconds from the instant it
    was stored, the last clock reading of that call. Both backends; on the
    in-process map for every value. *)
Theorem getOrSet_produces_once (w w1 w2 : World T) key producer producer2 prefix (v1 : T) :
  getOrSet stringify parse env clock key producer (CacheConfig.mk (Some 300) prefix) w
    = (Return v1, w1) ->
  (isRedisEnabled env = true -> survives stringify parse v1) ->
  same_entry env w1 w2 (cache_key key prefix) ->
  readings clock (ticks w2) 2 (cached_at env w1 (cache_key key prefix)) ->
  (exists w2',
     getOrSet stringify parse env clock key producer2 (CacheConfig.mk (Some 300) prefix) w2
       = (Return v1, w2')
     /\ invoked w2' = invoked w2)
  /\ (uncached env w (cache_key key prefix) ->
      forall t, t < clock (pred (ticks w1)) + 300 * 1000 ->
        cached_at env w1 (cache_key key prefix) t).
Proof.
  intros Hfirst Hjson Hsame Hr.
  pose proof (Hr (ticks w2) ltac:(lia)) as H0.
  pose proof (Hr (S (ticks w2)) ltac:(lia)) as H1.
  unfold same_entry, cached_at, uncached in *.
  destruct (isRedisEnabled env) eqn:Hbackend.
  - destruct (getOrSet_durable Hbackend w key producer (CacheConfig.mk (Some 300) prefix))
      as (h & n & Hcall).
    rewrite Hcall in Hfirst. clear Hcall.
    cbn [CacheConfig.keyPrefix CacheConfig.ttl default from_option id] in Hfirst.
    assert (Hentry : exists e, upstash w1 !! cache_key key prefix = Some e
                               /\ read_back parse (Stored.payload e) = Some v1
                               /\ (upstash w !! cache_key key prefix = None ->
                                   Stored.expireAt e = Some (clock (pred (ticks w1)) + 300 * 1000))).
    { destruct (durable_hit _ _ _ _) as [v|] eqn:Hhit.
      - injection Hfirst as <- <-. fields.
        unfold durable_hit, store_GET in Hhit.
        destruct (lookup_live _ _ _) as [e|] eqn:Hl; [|discriminate].
        apply lookup_live_Some in Hl as [He _]. cbn in Hhit.
        exists e. repeat split; auto. intros Hnone. rewrite Hnone in He. discriminate.
      - apply fetch_and_cache_redis_inv in Hfirst as (w3 & _ & _ & ->). fields.
        eexists. split; [apply lookup_insert_eq|]. cbn [Stored.payload Stored.expireAt].
        split; [apply read_back_survives; exact (Hjson eq_refl) | reflexivity]. }
    destruct Hentry as (e & He & Hp & Hexp).
    split.
    + destruct (getOrSet_durable Hbackend w2 key producer2 (CacheConfig.mk (Some 300) prefix))
        as (h2 & n2 & ->).
      cbn [CacheConfig.keyPrefix CacheConfig.ttl default from_option id].
      destruct H0 as (e0 & He0 & Hlive). rewrite He in He0. injection He0 as <-.
      assert (Hhit : durable_hit parse (clock (ticks w2)) (upstash w2) (cache_key key prefix)
                     = Some v1).
      { unfold durable_hit, store_GET, lookup_live. rewrite Hsame, He, Hlive. cbn.
        exact Hp. }
      rewrite Hhit. eexists. split; reflexivity.
    + intros Hnone t Hlt. exists e. split; [exact He|].
      unfold live. rewrite (Hexp Hnone). apply Z.ltb_lt. exact Hlt.
  - destruct (getOrSet_memory Hbackend w key producer (CacheConfig.mk (Some 300) prefix))
      as (c & Hcall).
    rewrite Hcall in Hfirst. clear Hcall. cbv zeta in Hfirst. revert Hfirst. fields.
    cbn [CacheConfig.keyPrefix CacheConfig.ttl default from_option id]. intros Hfirst.
    assert (Hentry : exists e, memoryCache w1 !! cache_key key prefix = Some e
                               /\ CacheEntry.data e = v1
                               /\ (memoryCache w !! cache_key key prefix = None ->
                                   CacheEntry.expiry e = clock (pred (ticks w1)) + 300 * 1000)).
    { destruct (filter _ (memoryCache w) !! cache_key key prefix) as [e|] eqn:Hf.
      - apply map_lookup_filter_Some in Hf as [He Hkept].
        destruct (CacheEntry.expiry e >? clock (S (ticks w))) eqn:Hgt.
        + injection Hfirst as <- <-. fields.
          exists e. split; [|split; [reflexivity|]].
          * apply map_lookup_filter_Some. split; [exact He | exact Hkept].
          * intros Hnone. rewrite Hnone in He. discriminate.
        + apply fetch_and_cache_memory_inv in Hfirst as (w3 & _ & ->). fields.
          eexists. split; [apply lookup_insert_eq|]. split; reflexivity.
      - apply fetch_and_cache_memory_inv in Hfirst as (w3 & _ & ->). fields.
        eexists. split; [apply lookup_insert_eq|]. split; reflexivity. }
    destruct Hentry as (e & He & Hd & Hexp).
    split.
    + destruct (getOrSet_memory Hbackend w2 key producer2 (CacheConfig.mk (Some 300) prefix))
        as (c2 & ->).
      cbv zeta. fields. cbn [CacheConfig.keyPrefix CacheConfig.ttl default from_option id].
      destruct H0 as (e0 & He0 & Hlt0). rewrite He in He0. injection He0 as <-.
      destruct H1 as (e1 & He1 & Hlt1). rewrite He in He1. injection He1 as <-.
      assert (Hf : filter (fun kv : string * CacheEntry.t T =>
                             ~ CacheEntry.expiry kv.2 < clock (ticks w2))
                     (memoryCache w2) !! cache_key key prefix = Some e).
      { apply map_lookup_filter_Some. split; [now rewrite Hsame | simpl; lia]. }
      rewrite Hf.
      assert (Hgt : (CacheEntry.expiry e >? clock (S (ticks w2))) = true).
      { rewrite Z.gtb_ltb. apply Z.ltb_lt. exact Hlt1. }
      rewrite Hgt. eexists. split; [rewrite Hd; reflexivity | reflexivity].
    + intros Hnone t Hlt. exists e. split; [exact He|]. rewrite (Hexp Hnone). exact Hlt.
Qed.

(** *** Malformed payloads *)

Lemma getRedis_available_frame (w : World T) (db : gmap string Stored.t) :
  isRedisEnabled env = true ->
  exists h n,
    getRedis env w = (Return (Some h), with_redis (Some h) n w)
    /\ getRedis env (with_upstash db w) = (Return (Some h), with_redis (Some h) n (with_upstash db w)).
Proof.
  intros Hon. destruct (redis w) as [h|] eqn:Hr.
  - exists h, (constructed w). split.
    + rewrite (getRedis_reuses w h Hon Hr). unfold with_redis. rewrite <- Hr.
      now rewrite world_eta.
    + rewrite (getRedis_reuses (with_upstash db w) h Hon Hr).
      unfold with_redis, with_upstash. fields. now rewrite Hr.
  - destruct (getRedis_constructs w Hon (Hclient Hon) Hr) as [h Hc].
    destruct (getRedis_constructs (with_upstash db w) Hon (Hclient Hon) Hr) as [h' Hc'].
    assert (h' = h).
    { unfold getRedis, new_Redis in Hc, Hc'. revert Hc Hc'.
      destruct (negb (Env.USE_REDIS env)); [discriminate|].
      destruct (_ || _); [discriminate|].
      rewrite (Hclient Hon). run. fields. rewrite Hr. intros [= <-] [= <-]. reflexivity. }
    subst h'. exists h, (S (constructed w)). split; assumption.
Qed.

(** C7. On the remote store, when the payload kept under a key does not
    decode, [get] returns nothing and does not throw, and [getOrSet] does
    what it does on a miss: it runs, from the same point on, the same
    fetch-and-cache block as when the key is not there at all. That block
    calls the producer once and, when the producer returns [d], stores [d]
    encoded with the given time to live and returns [d]. *)
Theorem cache_malformed_payload (w : World T) key prefix (s : string) :
  isRedisEnabled env = true ->
  store_GET (clock (ticks w)) (upstash w) (cache_key key prefix) = Some s ->
  parse s = None ->
  (get parse env clock key prefix w).1 = Return None
  /\ forall fetcher ttl,
       exists h w_in,
         ticks w_in = S (ticks w) /\ upstash w_in = upstash w /\ invoked w_in = invoked w
         /\ getOrSet stringify parse env clock key fetcher (CacheConfig.mk ttl prefix) w =
              fetch_and_cache_redis stringify clock h (cache_key key prefix)
                (default 300 ttl) fetcher w_in
         /\ getOrSet stringify parse env clock key fetcher (CacheConfig.mk ttl prefix)
              (with_upstash (delete (cache_key key prefix) (upstash w)) w) =
              fetch_and_cache_redis stringify clock h (cache_key key prefix)
                (default 300 ttl) fetcher
                (with_upstash (delete (cache_key key prefix) (upstash w)) w_in)
         /\ forall (d : T) (w_out : World T),
              0 < default 300 ttl ->
              fetcher (with_invoked (S (invoked w_in)) w_in) = (Return d, w_out) ->
              getOrSet stringify parse env clock key fetcher (CacheConfig.mk ttl prefix) w =
                (Return d,
                 with_upstash
                   (<[cache_key key prefix :=
                        Stored.mk (stringify d)
                          (Some (clock (ticks w_out) + default 300 ttl * 1000))]>
                      (upstash w_out))
                   (with_ticks (S (ticks w_out)) w_out)).
Proof.
  intros Hon Hget Hparse.
  assert (Hmiss : durable_hit parse (clock (ticks w)) (upstash w) (cache_key key prefix) = None).
  { unfold durable_hit. rewrite Hget. now apply read_back_malformed. }
  split.
  - destruct (get_durable Hon w key prefix) as (h & n & ->). cbn [fst]. now rewrite Hmiss.
  - intros fetcher ttl.
    destruct (getRedis_available_frame w (delete (cache_key key prefix) (upstash w)) Hon)
      as (h & n & Hh & Hh').
    exists h, (with_ticks (S (ticks w)) (with_redis (Some h) n w)). fields.
    assert (Hcall : getOrSet stringify parse env clock key fetcher (CacheConfig.mk ttl prefix) w =
              fetch_and_cache_redis stringify clock h (cache_key key prefix)
                (default 300 ttl) fetcher (with_ticks (S (ticks w)) (with_redis (Some h) n w))).
    { unfold getOrSet, redis_get. run. rewrite Hh. fields.
      cbn [CacheConfig.keyPrefix CacheConfig.ttl]. fold (cache_key key prefix).
      rewrite Hget. cbn [fmap option_fmap option_map].
      pose proof (read_back_malformed s Hparse) as Hback. unfold read_back in Hback.
      destruct (truthy_reply _); [now rewrite Hback | reflexivity]. }
    split; [reflexivity|]. split; [reflexivity|]. split; [reflexivity|].
    split; [exact Hcall|]. split.
    + unfold getOrSet, redis_get. run. rewrite Hh'. fields.
      cbn [CacheConfig.keyPrefix CacheConfig.ttl]. fold (cache_key key prefix).
      unfold store_GET, lookup_live. rewrite lookup_delete_eq. reflexivity.
    + intros d w_out Httl Hf. rewrite Hcall.
      now apply fetch_and_cache_redis_returns.
Qed.

(** *** Prefixes and patterns *)

Lemma append_assoc (a b c : string) : (a +:+ b) +:+ c = a +:+ (b +:+ c).
Proof.
  induction a as [|x a IH]; [reflexivity|].
  change (String x ((a +:+ b) +:+ c) = String x (a +:+ (b +:+ c))). now rewrite IH.
Qed.


Lemma prefix_cons (c d : ascii) (p s : string) :
  String.prefix (String c p) (String d s) = Ascii.eqb c d && String.prefix p s.
Proof.
  cbn. destruct (ascii_dec c d) as [->|Hne].
  - now rewrite Ascii.eqb_refl.
  - apply Ascii.eqb_neq in Hne. now rewrite Hne.
Qed.






(** *** Deleting by pattern *)


Lemma delPattern_memory (w : World T) pattern keyPrefix :
  isRedisEnabled env = false ->
  exists c,
    delPattern env clock pattern keyPrefix w =
      (Return tt,
       with_memoryCache
         (filter (fun kv : string * CacheEntry.t T =>
                    startsWith kv.1 (replace "*" "" (cache_key pattern keyPrefix)) = false)
            (memoryCache w))
         (with_console c w)).
Proof.
  intros Hoff. destruct (getRedis_unavailable w Hoff) as [c Hc]. exists c.
  unfold delPattern. run. rewrite Hc. reflexivity.
Qed.




(** *** Sweeping *)

(** C9, as the code has it. On the in-process map, [getOrSet] first removes
    every entry whose expiry is strictly before its first clock reading and
    looks its key up in what is left. [get] removes nothing: it leaves the
    map as it found it. [set] and [del] touch the entry of their own key
    and no other, expired or not. *)
Theorem cache_sweep_on_getOrSet (w : World T) key :
  isRedisEnabled env = false ->
  (forall fetcher config,
     exists swept : World T,
       ticks swept = S (ticks w)
       /\ (forall k e,
             memoryCache swept !! k = Some e <->
             memoryCache w !! k = Some e /\ clock (ticks w) <= CacheEntry.expiry e)
       /\ getOrSet stringify parse env clock key fetcher config w =
            match memoryCache swept !! cache_key key (CacheConfig.keyPrefix config) with
            | None =>
                fetch_and_cache_memory clock (cache_key key (CacheConfig.keyPrefix config))
                  (default 300 (CacheConfig.ttl config)) fetcher swept
            | Some cached =>
                if CacheEntry.expiry cached >? clock (S (ticks w)) then
                  (Return (CacheEntry.data cached), with_ticks (S (S (ticks w))) swept)
                else
                  fetch_and_cache_memory clock (cache_key key (CacheConfig.keyPrefix config))
                    (default 300 (CacheConfig.ttl config)) fetcher
                    (with_ticks (S (S (ticks w))) swept)
            end)
  /\ (forall keyPrefix,
        memoryCache (get parse env clock key keyPrefix w).2 = memoryCache w)
  /\ (forall value config,
        memoryCache (set stringify env clock key value config w).2 =
          <[cache_key key (CacheConfig.keyPrefix config) :=
              CacheEntry.mk value
                (clock (ticks w) + default 300 (CacheConfig.ttl config) * 1000)]>
            (memoryCache w))
  /\ (forall keyPrefix,
        memoryCache (del env clock key keyPrefix w).2 =
          delete (cache_key key keyPrefix) (memoryCache w)).
Proof.
  intros Hoff. split; [|split; [|split]].
  - intros fetcher config.
    destruct (getOrSet_memory Hoff w key fetcher config) as (c & Hcall).
    cbv zeta in Hcall. eexists. split; [|split; [|exact Hcall]].
    + reflexivity.
    + intros k e. fields. rewrite map_lookup_filter_Some. cbn. split.
      * intros [He Hkept]. split; [exact He | lia].
      * intros [He Hkept]. split; [exact He | lia].
  - intros keyPrefix.
    destruct (memoryCache w !! cache_key key keyPrefix) as [e|] eqn:He.
    + destruct (get_memory_present Hoff w key keyPrefix e He) as (c & ->). reflexivity.
    + destruct (get_memory_absent Hoff w key keyPrefix He) as (c & ->). reflexivity.
  - intros value config.
    destruct (set_memory Hoff w key value config) as (c & ->). reflexivity.
  - intros keyPrefix.
    destruct (del_memory Hoff w key keyPrefix) as (c & ->). reflexivity.
Qed.

(** ** Further properties *)

(** *** What a read depends on *)

Lemma list_ascii_of_append (a b : string) :
  list_ascii_of_string (a +:+ b) = (list_ascii_of_string a ++ list_ascii_of_string b)%list.
Proof.
  induction a as [|c a IH]; [reflexivity|].
  change (String c a +:+ b) with (String c (a +:+ b)). cbn. now rewrite IH.
Qed.

Lemma append_cancel_r (a b s : string) : a +:+ s = b +:+ s -> a = b.
Proof.
  intros H. apply (f_equal list_ascii_of_string) in H.
  rewrite !list_ascii_of_append in H. apply app_inv_tail in H.
  rewrite <- (string_of_list_ascii_of_string a), <- (string_of_list_ascii_of_string b).
  now rewrite H.
Qed.

Lemma append_cancel_l (s a b : string) : s +:+ a = s +:+ b -> a = b.
Proof.
  induction s as [|c s IH]; [auto|].
  change (String c s +:+ a) with (String c (s +:+ a)).
  change (String c s +:+ b) with (String c (s +:+ b)).
  intros [= H]. auto.
Qed.

(** Two cache keys differ as soon as the logical keys differ under one
    prefix, or the prefixes differ for one logical key. *)
Lemma cache_key_apart (k1 k2 : string) (p1 p2 : option string) :
  (k1 = k2 /\ default "cache"%string p1 <> default "cache"%string p2)
  \/ (default "cache"%string p1 = default "cache"%string p2 /\ k1 <> k2) ->
  cache_key k1 p1 <> cache_key k2 p2.
Proof.
  unfold cache_key. intros [[-> Hp] | [Hp Hk]] Heq.
  - apply Hp. exact (append_cancel_r _ _ _ Heq).
  - rewrite Hp in Heq. apply append_cancel_l in Heq. apply append_cancel_l in Heq. auto.
Qed.

Lemma durable_hit_ext now (db1 db2 : gmap string Stored.t) fullKey :
  db1 !! fullKey = db2 !! fullKey ->
  durable_hit parse now db1 fullKey = durable_hit parse now db2 fullKey.
Proof. unfold durable_hit, store_GET, lookup_live. now intros ->. Qed.

(** The answer of [get]: a function of the entry under its key and of one
    clock reading. *)
Lemma get_answer (w : World T) key keyPrefix :
  (get parse env clock key keyPrefix w).1 =
    Return (if isRedisEnabled env
            then durable_hit parse (clock (ticks w)) (upstash w) (cache_key key keyPrefix)
            else match memoryCache w !! cache_key key keyPrefix with
                 | Some e => if CacheEntry.expiry e >? clock (ticks w)
                             then Some (CacheEntry.data e) else None
                 | None => None
                 end).
Proof.
  destruct (isRedisEnabled env) eqn:Hbackend.
  - destruct (get_durable Hbackend w key keyPrefix) as (h & n & ->). reflexivity.
  - destruct (memoryCache w !! cache_key key keyPrefix) as [e|] eqn:He.
    + destruct (get_memory_present Hbackend w key keyPrefix e He) as (c & ->). reflexivity.
    + destruct (get_memory_absent Hbackend w key keyPrefix He) as (c & ->). reflexivity.
Qed.

Lemma get_same_entry (w1 w2 : World T) key keyPrefix :
  same_entry env w1 w2 (cache_key key keyPrefix) ->
  clock (ticks w2) = clock (ticks w1) ->
  (get parse env clock key keyPrefix w2).1 = (get parse env clock key keyPrefix w1).1.
Proof.
  intros Hsame Ht. rewrite !get_answer. unfold same_entry in Hsame.
  destruct (isRedisEnabled env).
  - rewrite Ht. f_equal. now apply durable_hit_ext.
  - now rewrite Hsame, Ht.
Qed.

(** [set], whether it returns or throws, takes one clock reading and leaves
    every other key as it was. *)
Lemma set_frame (w : World T) key value config fullKey :
  fullKey <> cache_key key (CacheConfig.keyPrefix config) ->
  ticks (set stringify env clock key value config w).2 = S (ticks w)
  /\ same_entry env w (set stringify env clock key value config w).2 fullKey.
Proof.
  intros Hne. unfold same_entry. destruct (isRedisEnabled env) eqn:Hbackend.
  - destruct (getRedis_available w Hbackend) as (h & n & Hh).
    unfold set, redis_setex, store_SETEX. run. rewrite Hh. fields.
    fold (cache_key key (CacheConfig.keyPrefix config)).
    destruct (default 300 (CacheConfig.ttl config) <=? 0); fields.
    + split; reflexivity.
    + split; [reflexivity|]. now apply lookup_insert_ne.
  - destruct (set_memory Hbackend w key value config) as (c & ->). fields.
    split; [reflexivity|]. now apply lookup_insert_ne.
Qed.

(** X1. Namespaces and keys are isolated. After [set(k1, v, {keyPrefix: p1})],
    a [get(k2, p2)] for the same key under another prefix, or for another
    key under the same prefix, answers what it would have answered at the
    same clock reading had the [set] not been made. Both backends. *)
Theorem cache_namespace_isolation (w : World T) k1 k2 value ttl p1 p2 :
  (k1 = k2 /\ default "cache"%string p1 <> default "cache"%string p2)
  \/ (default "cache"%string p1 = default "cache"%string p2 /\ k1 <> k2) ->
  (get parse env clock k2 p2 (set stringify env clock k1 value (CacheConfig.mk ttl p1) w).2).1 =
  (get parse env clock k2 p2 (with_ticks (S (ticks w)) w)).1.
Proof.
  intros Hapart. apply cache_key_apart in Hapart.
  destruct (set_frame w k1 value (CacheConfig.mk ttl p1) (cache_key k2 p2)) as [Ht Hsame].
  { intros Heq. apply Hapart. now rewrite Heq. }
  apply get_same_entry.
  - unfold same_entry in *. fields. exact Hsame.
  - now rewrite Ht.
Qed.

(** *** Deleting one key *)

Lemma del_durable (w : World T) key keyPrefix :
  isRedisEnabled env = true ->
  exists h n,
    del env clock key keyPrefix w =
      (Return tt,
       with_upstash (delete (cache_key key keyPrefix) (upstash w))
         (with_ticks (S (ticks w)) (with_redis (Some h) n w))).
Proof.
  intros Hon. destruct (getRedis_available w Hon) as (h & n & Hh). exists h, n.
  unfold del, redis_del, store_DEL. run. rewrite Hh. reflexivity.
Qed.

(** A key under which nothing is kept is a miss: [get] answers nothing and
    [getOrSet] goes to its fetch-and-cache block, with the key still not
    there and no producer called yet. *)
Lemma uncached_is_a_miss (w : World T) key fetcher config :
  uncached env w (cache_key key (CacheConfig.keyPrefix config)) ->
  (get parse env clock key (CacheConfig.keyPrefix config) w).1 = Return None
  /\ exists h w_in,
       uncached env w_in (cache_key key (CacheConfig.keyPrefix config))
       /\ invoked w_in = invoked w
       /\ getOrSet stringify parse env clock key fetcher config w =
            (if isRedisEnabled env
             then fetch_and_cache_redis stringify clock h
                    (cache_key key (CacheConfig.keyPrefix config))
                    (default 300 (CacheConfig.ttl config)) fetcher
             else fetch_and_cache_memory clock
                    (cache_key key (CacheConfig.keyPrefix config))
                    (default 300 (CacheConfig.ttl config)) fetcher) w_in.
Proof.
  intros Hun. rewrite get_answer. unfold uncached in *.
  destruct (isRedisEnabled env) eqn:Hbackend.
  - assert (Hmiss : durable_hit parse (clock (ticks w)) (upstash w)
                      (cache_key key (CacheConfig.keyPrefix config)) = None).
    { unfold durable_hit, store_GET. now rewrite (lookup_live_absent _ _ _ Hun). }
    rewrite Hmiss. split; [reflexivity|].
    destruct (getOrSet_durable Hbackend w key fetcher config) as (h & n & ->).
    rewrite Hmiss. eexists h, _. split; [|split; [|reflexivity]]; fields; auto.
  - rewrite Hun. split; [reflexivity|]. exists (Redis.mk "" "" 0).
    destruct (getOrSet_memory Hbackend w key fetcher config) as (c & ->).
    cbv zeta. fields.
    assert (Hf : filter (fun kv : string * CacheEntry.t T =>
                           ~ CacheEntry.expiry kv.2 < clock (ticks w))
                   (memoryCache w) !! cache_key key (CacheConfig.keyPrefix config) = None).
    { apply map_lookup_filter_None. left. exact Hun. }
    rewrite Hf. eexists. split; [|split; [|reflexivity]]; fields; auto.
Qed.

(** X2. [del] forgets its key and nothing else. It returns, whether or not the
    key was there; afterwards nothing is kept under the key, so that [get]
    answers nothing, and every other key holds what it held. Both
    backends. *)
Theorem del_forgets (w : World T) key keyPrefix :
  exists w',
    del env clock key keyPrefix w = (Return tt, w')
    /\ uncached env w' (cache_key key keyPrefix)
    /\ (forall fullKey, fullKey <> cache_key key keyPrefix -> same_entry env w w' fullKey)
    /\ (forall w2 : World T,
          same_entry env w' w2 (cache_key key keyPrefix) ->
          (get parse env clock key keyPrefix w2).1 = Return None).
Proof.
  assert (Hget : forall w' w2 : World T,
            uncached env w' (cache_key key keyPrefix) ->
            same_entry env w' w2 (cache_key key keyPrefix) ->
            (get parse env clock key keyPrefix w2).1 = Return None).
  { intros w' w2 Hun Hsame. rewrite get_answer.
    unfold uncached, same_entry in *. destruct (isRedisEnabled env).
    - unfold durable_hit, store_GET.
      rewrite lookup_live_absent by congruence. reflexivity.
    - rewrite Hsame, Hun. reflexivity. }
  unfold uncached, same_entry in *. destruct (isRedisEnabled env) eqn:Hbackend.
  - destruct (del_durable w key keyPrefix Hbackend) as (h & n & Hcall).
    eexists. split; [exact Hcall|]. fields.
    split; [apply lookup_delete_eq|]. split.
    + intros fullKey Hne. now apply lookup_delete_ne.
    + intros w2 Hs. rewrite lookup_delete_eq in Hs. now apply (Hget w2 w2).
  - destruct (del_memory Hbackend w key keyPrefix) as (c & Hcall).
    eexists. split; [exact Hcall|]. fields.
    split; [apply lookup_delete_eq|]. split.
    + intros fullKey Hne. now apply lookup_delete_ne.
    + intros w2 Hs. rewrite lookup_delete_eq in Hs. now apply (Hget w2 w2).
Qed.

(** *** Producers that throw, and hits *)

Lemma fetch_and_cache_redis_throws (w w' : World T) h fullKey ttl fetcher msg :
  fetcher (with_invoked (S (invoked w)) w) = (Throw msg, w') ->
  fetch_and_cache_redis stringify clock h fullKey ttl fetcher w = (Throw msg, w').
Proof.
  intros Hf. unfold fetch_and_cache_redis, invoke. run. rewrite Hf. reflexivity.
Qed.

(** X3. When nothing is cached under the key and the producer throws,
    [getOrSet] throws what the producer threw and stores nothing: the
    producer starts with the key still not there, its call is the only one
    counted, and the world it leaves is the world [getOrSet] leaves. Both
    backends. *)
Theorem getOrSet_producer_throws (w : World T) key fetcher config :
  uncached env w (cache_key key (CacheConfig.keyPrefix config)) ->
  exists w_in,
    uncached env w_in (cache_key key (CacheConfig.keyPrefix config))
    /\ invoked w_in = invoked w
    /\ forall msg w_out,
         fetcher (with_invoked (S (invoked w_in)) w_in) = (Throw msg, w_out) ->
         getOrSet stringify parse env clock key fetcher config w = (Throw msg, w_out).
Proof.
  intros Hun.
  destruct (uncached_is_a_miss w key fetcher config Hun) as (_ & h & w_in & Hin & Hinv & Hcall).
  exists w_in. split; [exact Hin|]. split; [exact Hinv|].
  intros msg w_out Hf. rewrite Hcall. destruct (isRedisEnabled env).
  - now apply fetch_and_cache_redis_throws.
  - now apply fetch_and_cache_memory_throws.
Qed.

Lemma getOrSet_memory_hit (w : World T) key fetcher config (e : CacheEntry.t T) :
  isRedisEnabled env = false ->
  memoryCache w !! cache_key key (CacheConfig.keyPrefix config) = Some e ->
  readings clock (ticks w) 2 (fun t => t < CacheEntry.expiry e) ->
  exists w',
    getOrSet stringify parse env clock key fetcher config w = (Return (CacheEntry.data e), w')
    /\ invoked w' = invoked w
    /\ memoryCache w' !! cache_key key (CacheConfig.keyPrefix config) = Some e.
Proof.
  intros Hoff He Hr.
  pose proof (Hr (ticks w) ltac:(lia)) as H0. pose proof (Hr (S (ticks w)) ltac:(lia)) as H1.
  cbn beta in H0, H1.
  destruct (getOrSet_memory Hoff w key fetcher config) as (c & ->). cbv zeta. fields.
  assert (Hf : filter (fun kv : string * CacheEntry.t T =>
                         ~ CacheEntry.expiry kv.2 < clock (ticks w))
                 (memoryCache w) !! cache_key key (CacheConfig.keyPrefix config) = Some e).
  { apply map_lookup_filter_Some. split; [exact He | simpl; lia]. }
  rewrite Hf.
  assert (Hgt : (CacheEntry.expiry e >? clock (S (ticks w))) = true)
    by (rewrite Z.gtb_ltb; now apply Z.ltb_lt).
  rewrite Hgt. eexists. split; [reflexivity|]. fields. split; [reflexivity | exact Hf].
Qed.

Lemma getOrSet_durable_hit (w : World T) key fetcher config (v : T) :
  isRedisEnabled env = true ->
  durable_hit parse (clock (ticks w)) (upstash w)
    (cache_key key (CacheConfig.keyPrefix config)) = Some v ->
  exists w',
    getOrSet stringify parse env clock key fetcher config w = (Return v, w')
    /\ invoked w' = invoked w
    /\ upstash w' = upstash w.
Proof.
  intros Hon Hhit. destruct (getOrSet_durable Hon w key fetcher config) as (h & n & ->).
  rewrite Hhit. eexists. split; [reflexivity|]. split; reflexivity.
Qed.

(** A text that decodes to a truthy value [d], a number only if it prints
    as the text, is read back as what [String(d)] decodes to. *)
Lemma read_back_decoded (raw : string) (d : T) :
  parse raw = Some d ->
  (is_number d = true -> ToString d = raw) ->
  ToBoolean d = true ->
  read_back parse raw = parse (ToString d).
Proof.
  intros Hp Hn Hb. unfold read_back, parseResponse. rewrite Hp.
  destruct (is_number d) eqn:Hnum; cbn [andb].
  - rewrite (Hn eq_refl), String.eqb_refl. cbn [negb truthy_reply JSON_parse].
    now rewrite Hb, (Hn eq_refl).
  - cbn [truthy_reply JSON_parse]. now rewrite Hb.
Qed.

(** X4. A read that is served from the cache writes nothing. [get] leaves
    both stores as they are. On the in-process map a [getOrSet] that finds
    an entry before its expiry returns its value, calls no producer and
    leaves the entry, expiry included, as it was. On the remote store a
    [getOrSet] is served from the cache when the text under the key decodes
    to a truthy value [d] (a number only if it prints as the text) and
    [String(d)] decodes in turn, to [v]: it returns [v], calls no producer
    and leaves the store as it was. *)
Theorem reads_keep_entries (w : World T) key fetcher config :
  (memoryCache (get parse env clock key (CacheConfig.keyPrefix config) w).2 = memoryCache w
   /\ upstash (get parse env clock key (CacheConfig.keyPrefix config) w).2 = upstash w)
  /\ (isRedisEnabled env = false ->
      forall e,
        memoryCache w !! cache_key key (CacheConfig.keyPrefix config) = Some e ->
        readings clock (ticks w) 2 (fun t => t < CacheEntry.expiry e) ->
        exists w',
          getOrSet stringify parse env clock key fetcher config w
            = (Return (CacheEntry.data e), w')
          /\ invoked w' = invoked w
          /\ memoryCache w' !! cache_key key (CacheConfig.keyPrefix config) = Some e)
  /\ (isRedisEnabled env = true ->
      forall raw d v,
        store_GET (clock (ticks w)) (upstash w)
          (cache_key key (CacheConfig.keyPrefix config)) = Some raw ->
        parse raw = Some d ->
        (is_number d = true -> ToString d = raw) ->
        ToBoolean d = true ->
        parse (ToString d) = Some v ->
        exists w',
          getOrSet stringify parse env clock key fetcher config w = (Return v, w')
          /\ invoked w' = invoked w
          /\ upstash w' = upstash w).
Proof.
  split; [|split].
  - destruct (isRedisEnabled env) eqn:Hbackend.
    + destruct (get_durable Hbackend w key (CacheConfig.keyPrefix config)) as (h & n & ->).
      split; reflexivity.
    + destruct (memoryCache w !! cache_key key (CacheConfig.keyPrefix config)) as [e|] eqn:He.
      * destruct (get_memory_present Hbackend w key _ e He) as (c & ->). split; reflexivity.
      * destruct (get_memory_absent Hbackend w key _ He) as (c & ->). split; reflexivity.
  - intros Hoff e He Hr. now apply getOrSet_memory_hit.
  - intros Hon raw d v Hraw Hp Hn Hb Hv. apply getOrSet_durable_hit; [exact Hon|].
    unfold durable_hit. rewrite Hraw. cbn [mbind option_bind].
    now rewrite (read_back_decoded raw d Hp Hn Hb).
Qed.

(** X5. What [set] stores, [getOrSet] serves. After a [set] that returned, a
    [getOrSet] on the same key made less than the time to live after the
    [set] returns the value set and calls no producer. On the in-process
    map for every value; on the remote store for a value that survives the
    conversions: truthy, given back by [JSON.parse] from its
    [JSON.stringify] text and from its [String] text, and, if a number,
    printed as it is written. *)
Theorem set_then_getOrSet (w w2 : World T) key value config fetcher ttl2 :
  (set stringify env clock key value config w).1 = Return tt ->
  (isRedisEnabled env = true -> survives stringify parse value) ->
  same_entry env (set stringify env clock key value config w).2 w2
    (cache_key key (CacheConfig.keyPrefix config)) ->
  readings clock (ticks w2) 2
    (fun t => t - clock (ticks w) < default 300 (CacheConfig.ttl config) * 1000) ->
  exists w2',
    getOrSet stringify parse env clock key fetcher
      (CacheConfig.mk ttl2 (CacheConfig.keyPrefix config)) w2 = (Return value, w2')
    /\ invoked w2' = invoked w2.
Proof.
  intros Hset Hjson Hsame Hr. unfold same_entry in Hsame.
  pose proof (Hr (ticks w2) ltac:(lia)) as H0. cbn beta in H0.
  destruct (isRedisEnabled env) eqn:Hbackend.
  - destruct (Z.le_gt_cases (default 300 (CacheConfig.ttl config)) 0) as [Hle|Hpos].
    { destruct (set_durable_rejects w key value config Hbackend Hle) as (msg & w' & Hthrow).
      rewrite Hthrow in Hset. discriminate. }
    destruct (set_durable Hbackend w key value config ltac:(lia)) as (h & n & Hs).
    rewrite Hs in Hsame. cbn [snd] in Hsame. revert Hsame. fields.
    rewrite lookup_insert_eq. intros Hk.
    destruct (getOrSet_durable_hit w2 key fetcher
                (CacheConfig.mk ttl2 (CacheConfig.keyPrefix config)) value Hbackend)
      as (w2' & Hcall & Hinv & _).
    { cbn [CacheConfig.keyPrefix]. rewrite (durable_hit_stored _ _ _ _ _ (Hjson eq_refl) Hk).
      destruct (_ <? _) eqn:Hlt; [reflexivity | apply Z.ltb_ge in Hlt; lia]. }
    exists w2'. auto.
  - destruct (set_memory Hbackend w key value config) as (c & Hs).
    rewrite Hs in Hsame. cbn [snd] in Hsame. revert Hsame. fields.
    rewrite lookup_insert_eq. intros Hk.
    destruct (getOrSet_memory_hit w2 key fetcher
                (CacheConfig.mk ttl2 (CacheConfig.keyPrefix config)) _ Hbackend Hk)
      as (w2' & Hcall & Hinv & _).
    { intros i Hi. specialize (Hr i Hi). cbn [CacheEntry.expiry]. cbn beta in Hr. lia. }
    exists w2'. auto.
Qed.

(** *** Clearing a namespace *)


Lemma all_chars_append (P : ascii -> bool) (a b : string) :
  all_chars P (a +:+ b) = all_chars P a && all_chars P b.
Proof.
  induction a as [|c a IH]; [reflexivity|].
  change (String c a +:+ b) with (String c (a +:+ b)). cbn [all_chars].
  now rewrite IH, andb_assoc.
Qed.


Lemma replace_first_star (p : string) :
  all_chars not_star p = true -> replace "*" "" (p +:+ "*") = p.
Proof.
  induction p as [|c p IH]; [reflexivity|].
  cbn [all_chars]. intros [Hc Hp]%andb_prop. unfold not_star in Hc.
  apply negb_true_iff in Hc. rewrite Ascii.eqb_sym in Hc.
  change (String c p +:+ "*") with (String c (p +:+ "*")).
  cbn [replace]. rewrite prefix_cons, Hc. cbn [andb]. now rewrite IH.
Qed.

Lemma clear_memory (w : World T) keyPrefix :
  isRedisEnabled env = false ->
  exists c,
    clear env clock keyPrefix w =
      (Return tt,
       with_memoryCache
         (filter (fun kv : string * CacheEntry.t T =>
                    startsWith kv.1 (default "cache"%string keyPrefix +:+ ":") = false)
            (memoryCache w))
         (with_console c w)).
Proof.
  intros Hoff. destruct (getRedis_unavailable w Hoff) as [c Hc]. exists c.
  unfold clear. run. rewrite Hc. reflexivity.
Qed.



(** X6. [clear(keyPrefix)] is [delPattern("*", keyPrefix)]: the same
    computation, with the same result and the same effects. On the
    in-process map this needs a key prefix without [*], since [delPattern]
    removes the first [*] of the whole pattern. *)
Theorem clear_is_delPattern_star (w : World T) keyPrefix :
  (isRedisEnabled env = false ->
   all_chars not_star (default "cache"%string keyPrefix) = true) ->
  clear env clock keyPrefix w = delPattern env clock "*" keyPrefix w.
Proof.
  intros Hstar. destruct (isRedisEnabled env) eqn:Hbackend.
  - destruct (getRedis_available w Hbackend) as (h & n & Hh).
    unfold clear, delPattern. run. rewrite Hh. reflexivity.
  - destruct (clear_memory w keyPrefix Hbackend) as (c & Hclear).
    destruct (delPattern_memory w "*" keyPrefix Hbackend) as (c' & Hdel).
    assert (c' = c).
    { destruct (getRedis_unavailable w Hbackend) as [c0 Hc0].
      unfold clear in Hclear. unfold delPattern in Hdel. revert Hclear Hdel.
      run. rewrite Hc0. intros [= Hc] [= Hc']. congruence. }
    subst c'. rewrite Hclear, Hdel. do 3 f_equal.
    unfold cache_key. rewrite <- append_assoc, replace_first_star; [reflexivity|].
    rewrite all_chars_append, (Hstar eq_refl). reflexivity.
Qed.


(** *** Answers of the rate limiter, and other identifiers *)

(** On the in-process map a call always returns; it sweeps, then writes the
    counter of its key and no other. Its answer is the fresh one or the
    verdict on a counter it found. *)
Lemma rateLimit_memory_cases (w : World T) identifier config :
  isRedisEnabled env = false ->
  exists r c0 w',
    rateLimit env clock identifier config w = (Return r, w')
    /\ memoryStore w' =
         <[rate_key identifier config := c0]>
           (filter (fun kv : string * Counter.t => ~ Counter.reset kv.2 < clock (S (ticks w)))
              (memoryStore w))
    /\ (r = RateLimitResult.mk true (RateLimitConfig.limit config - 1)
              (window_end (RateLimitConfig.windowInSeconds config) (clock (ticks w)))
              (RateLimitConfig.limit config)
        \/ exists e, r = verdict (RateLimitConfig.limit config) (Counter.reset e / 1000)
                           (Counter.count e + 1)).
Proof.
  intros Hoff.
  destruct (getRedis_unavailable (with_ticks (S (ticks w)) w) Hoff) as [c Hc].
  unfold rateLimit, cleanupMemoryStore. run. rewrite Hc. fields.
  fold (rate_key identifier config).
  destruct (filter _ (memoryStore w) !! rate_key identifier config) as [e|] eqn:He.
  - fields. destruct (Counter.reset e <? clock (S (S (ticks w)))).
    + eexists _, _, _. split; [reflexivity|]. fields. split; [reflexivity|]. now left.
    + eexists _, _, _. split; [reflexivity|]. fields. split; [reflexivity|].
      right. exists e. reflexivity.
  - eexists _, _, _. split; [reflexivity|]. fields. split; [reflexivity|]. now left.
Qed.

(** On the remote store a call, whether it returns or throws, leaves the
    store as [INCR] then [EXPIRE] on its key leave it. *)
Lemma rateLimit_durable_store (w : World T) identifier config :
  isRedisEnabled env = true ->
  upstash (rateLimit env clock identifier config w).2 =
    (store_EXPIRE (clock (S (S (ticks w))))
       (store_INCR (clock (S (ticks w))) (upstash w) (rate_key identifier config)).2
       (rate_key identifier config) (RateLimitConfig.windowInSeconds config)).2.
Proof.
  intros Hon.
  destruct (getRedis_available (with_ticks (S (ticks w)) w) Hon) as (h & n & Hh).
  unfold rateLimit. run. rewrite Hh. fields.
  unfold pipeline_exec, run_command. run. fields.
  fold (rate_key identifier config).
  destruct (store_INCR _ _ _) as [[x|msg] db1]; fields;
    destruct (store_EXPIRE _ db1 _ _) as [y db2]; reflexivity.
Qed.

Lemma store_INCR_other now (db : gmap string Stored.t) k k' :
  k' <> k -> (store_INCR now db k).2 !! k' = db !! k'.
Proof.
  intros Hne. unfold store_INCR.
  destruct (lookup_live now db k) as [e|];
    [destruct (int64_of_string _) as [n|]; [destruct (n <? int64_max)|]|]; cbn [snd];
    rewrite ?lookup_insert_ne by congruence; reflexivity.
Qed.

Lemma store_EXPIRE_other now (db : gmap string Stored.t) k k' seconds :
  k' <> k -> (store_EXPIRE now db k seconds).2 !! k' = db !! k'.
Proof.
  intros Hne. unfold store_EXPIRE.
  destruct (lookup_live now db k) as [e|]; [destruct (seconds <=? 0)|]; cbn [snd];
    rewrite ?lookup_insert_ne, ?lookup_delete_ne by congruence; reflexivity.
Qed.

Lemma rate_key_apart identifier identifier' config config' :
  identifier' <> identifier ->
  RateLimitConfig.keyPrefix config' = RateLimitConfig.keyPrefix config ->
  rate_key identifier' config' <> rate_key identifier config.
Proof.
  unfold rate_key. intros Hne -> Heq.
  apply append_cancel_l in Heq. apply append_cancel_l in Heq. auto.
Qed.

(** X8. A denial never shows anything remaining. For every call that returns,
    on either backend and whatever the store holds: the answer carries the
    limit of the policy, [success = false] comes with [remaining = 0], and
    [remaining > 0] comes with [success = true]. *)
Theorem rateLimit_denial_has_nothing_left (w w' : World T) identifier config r :
  rateLimit env clock identifier config w = (Return r, w') ->
  RateLimitResult.limit r = RateLimitConfig.limit config
  /\ (RateLimitResult.success r = false -> RateLimitResult.remaining r = 0)
  /\ (0 < RateLimitResult.remaining r -> RateLimitResult.success r = true).
Proof.
  intros Hcall.
  assert (Hverdict : forall reset count,
            RateLimitResult.limit (verdict (RateLimitConfig.limit config) reset count)
              = RateLimitConfig.limit config
            /\ (RateLimitResult.success (verdict (RateLimitConfig.limit config) reset count) = false ->
                RateLimitResult.remaining (verdict (RateLimitConfig.limit config) reset count) = 0)
            /\ (0 < RateLimitResult.remaining (verdict (RateLimitConfig.limit config) reset count) ->
                RateLimitResult.success (verdict (RateLimitConfig.limit config) reset count) = true)).
  { intros reset count. cbn. split; [reflexivity|]. split.
    - intros Hd. apply Z.leb_gt in Hd. lia.
    - intros Hpos. apply Z.leb_le. lia. }
  destruct (isRedisEnabled env) eqn:Hbackend.
  - destruct (durable_count (clock (S (ticks w))) (upstash w) (rate_key identifier config))
      as [c|] eqn:Hc.
    + destruct (rateLimit_durable_step identifier config Hbackend w c Hc) as (w1 & Hstep & _).
      rewrite Hstep in Hcall. injection Hcall as <- _. apply Hverdict.
    + destruct (rateLimit_durable_throws identifier config Hbackend w Hc) as (msg & w1 & Hthrow).
      rewrite Hthrow in Hcall. discriminate.
  - destruct (rateLimit_memory_cases w identifier config Hbackend)
      as (r0 & c0 & w1 & Hstep & _ & Hr).
    rewrite Hstep in Hcall. injection Hcall as <- _.
    destruct Hr as [-> | [e ->]]; [|apply Hverdict].
    cbn. split; [reflexivity|]. split; [discriminate | reflexivity].
Qed.

(** X9. Identifiers do not interfere. A call for one identifier leaves the
    counter of every other identifier under the same key prefix as it was:
    on the remote store untouched, on the in-process map kept when its
    [reset] is not before the sweep of the call and dropped when it is. *)
Theorem rateLimit_other_identifiers (w : World T) identifier identifier' config config' :
  identifier' <> identifier ->
  RateLimitConfig.keyPrefix config' = RateLimitConfig.keyPrefix config ->
  (isRedisEnabled env = true ->
   upstash (rateLimit env clock identifier config w).2 !! rate_key identifier' config'
     = upstash w !! rate_key identifier' config')
  /\ (isRedisEnabled env = false ->
      forall e,
        memoryStore (rateLimit env clock identifier config w).2 !! rate_key identifier' config'
          = Some e
        <-> memoryStore w !! rate_key identifier' config' = Some e
            /\ clock (S (ticks w)) <= Counter.reset e).
Proof.
  intros Hid Hprefix.
  pose proof (rate_key_apart _ _ _ _ Hid Hprefix) as Hne.
  split.
  - intros Hon. rewrite (rateLimit_durable_store w identifier config Hon).
    rewrite store_EXPIRE_other, store_INCR_other by exact Hne. reflexivity.
  - intros Hoff e.
    destruct (rateLimit_memory_cases w identifier config Hoff)
      as (r & c0 & w' & Hcall & Hstore & _).
    rewrite Hcall. cbn [snd]. rewrite Hstore, lookup_insert_ne by congruence.
    rewrite map_lookup_filter_Some. cbn. split; intros [He Hk]; (split; [exact He | lia]).
Qed.

(** *** The caller's address *)

Lemma append_empty_r (s : string) : s +:+ "" = s.
Proof.
  induction s as [|c s IH]; [reflexivity|].
  change (String c s +:+ "") with (String c (s +:+ "")). now rewrite IH.
Qed.

(** The first piece of a split holds no separator, and the string is that
    piece, alone or followed by a separator. *)
Lemma split_by_head (sep : ascii) (s : string) :
  exists x xs,
    split_by sep s = x :: xs
    /\ all_chars (fun c => negb (Ascii.eqb c sep)) x = true
    /\ (s = x \/ exists rest, s = x +:+ String sep rest).
Proof.
  induction s as [|c s (x & xs & Hs & Hx & Hrest)].
  - exists "", []. repeat split. now left.
  - cbn [split_by]. destruct (Ascii.eqb c sep) eqn:Hc.
    + apply Ascii.eqb_eq in Hc as ->. exists "", (split_by sep s).
      repeat split. right. exists s. reflexivity.
    + rewrite Hs. exists (String c x), xs. split; [reflexivity|]. split.
      * cbn [all_chars]. now rewrite Hc, Hx.
      * destruct Hrest as [-> | [rest ->]]; [now left|]. right. exists rest. reflexivity.
Qed.

Lemma split_by_piece (sep : ascii) (x : string) :
  all_chars (fun c => negb (Ascii.eqb c sep)) x = true ->
  split_by sep x = [x]
  /\ forall rest, split_by sep (x +:+ String sep rest) = x :: split_by sep rest.
Proof.
  induction x as [|c x IH]; [intros _; split; [reflexivity|]|].
  - intros rest. change ("" +:+ String sep rest) with (String sep rest).
    cbn [split_by]. now rewrite Ascii.eqb_refl.
  - cbn [all_chars]. intros [Hc Hx]%andb_prop. apply negb_true_iff in Hc.
    destruct (IH Hx) as [H1 H2]. split.
    + cbn [split_by]. now rewrite Hc, H1.
    + intros rest. change (String c x +:+ String sep rest) with (String c (x +:+ String sep rest)).
      cbn [split_by]. now rewrite Hc, H2.
Qed.

Lemma trimStart_spec (s : string) :
  exists pre,
    s = pre +:+ trimStart s
    /\ all_chars is_space pre = true
    /\ forall c, first_char (trimStart s) = Some c -> is_space c = false.
Proof.
  induction s as [|c s (pre & Hs & Hpre & Hfirst)].
  - exists "". repeat split. discriminate.
  - cbn [trimStart]. destruct (is_space c) eqn:Hc.
    + exists (String c pre). split; [|split].
      * change (String c pre +:+ trimStart s) with (String c (pre +:+ trimStart s)).
        now rewrite <- Hs.
      * cbn [all_chars]. now rewrite Hc, Hpre.
      * exact Hfirst.
    + exists "". repeat split. intros c' [= <-]. exact Hc.
Qed.

Lemma trimEnd_spec (s : string) :
  exists post,
    s = trimEnd s +:+ post
    /\ all_chars is_space post = true
    /\ (forall c, last_char (trimEnd s) = Some c -> is_space c = false)
    /\ (trimEnd s <> "" -> first_char (trimEnd s) = first_char s).
Proof.
  induction s as [|c s (post & Hs & Hpost & Hlast & Hfirst)].
  - exists "". split; [reflexivity|]. split; [reflexivity|]. split; [discriminate|reflexivity].
  - cbn [trimEnd]. destruct (trimEnd s) as [|d t] eqn:Ht.
    + destruct (is_space c) eqn:Hc.
      * exists (String c post). split; [|split; [|split]].
        -- change ("" +:+ String c post) with (String c post).
           change ("" +:+ post) with post in Hs. now rewrite <- Hs.
        -- cbn [all_chars]. now rewrite Hc, Hpost.
        -- discriminate.
        -- congruence.
      * exists post. split; [|split; [|split]].
        -- change (String c "" +:+ post) with (String c ("" +:+ post)). now rewrite <- Hs.
        -- exact Hpost.
        -- intros c' [= <-]. exact Hc.
        -- reflexivity.
    + exists post. split; [|split; [|split]].
      * change (String c (String d t) +:+ post) with (String c (String d t +:+ post)).
        now rewrite <- Hs.
      * exact Hpost.
      * exact Hlast.
      * reflexivity.
Qed.

(** [trim] cuts white space off both ends and nothing else. *)
Lemma trim_spec (s : string) :
  exists pre post,
    s = pre +:+ trim s +:+ post
    /\ all_chars is_space pre = true
    /\ all_chars is_space post = true
    /\ (forall c, first_char (trim s) = Some c -> is_space c = false)
    /\ (forall c, last_char (trim s) = Some c -> is_space c = false).
Proof.
  unfold trim.
  destruct (trimStart_spec s) as (pre & Hs & Hpre & Hfirst).
  destruct (trimEnd_spec (trimStart s)) as (post & Ht & Hpost & Hlast & Hkeep).
  exists pre, post. split; [|split; [|split; [|split]]]; auto.
  - now rewrite <- Ht.
  - intros c Hc. apply Hfirst. rewrite <- Hkeep; [exact Hc|].
    intros Hempty. rewrite Hempty in Hc. discriminate.
Qed.

Lemma trim_empty_iff (s : string) : trim s = "" <-> all_chars is_space s = true.
Proof.
  split.
  - intros He. destruct (trim_spec s) as (pre & post & Hs & Hpre & Hpost & _).
    rewrite He in Hs. rewrite Hs, !all_chars_append, Hpre, Hpost. reflexivity.
  - unfold trim. induction s as [|c s IH]; [reflexivity|].
    cbn [all_chars trimStart]. intros [Hc Hs]%andb_prop. rewrite Hc. auto.
Qed.

Lemma space_is_not_comma (s : string) :
  all_chars is_space s = true -> all_chars (fun c => negb (Ascii.eqb c ",")) s = true.
Proof.
  induction s as [|c s IH]; [reflexivity|].
  cbn [all_chars]. intros [Hc Hs]%andb_prop. rewrite (IH Hs), andb_true_r.
  destruct (Ascii.eqb c ",") eqn:He; [|reflexivity].
  apply Ascii.eqb_eq in He. subst c. discriminate.
Qed.

Lemma truthy_nonempty (s : string) : truthy s = true <-> s <> "".
Proof. destruct s; cbn; split; congruence. Qed.

(** X10. With a non-empty [x-forwarded-for], [getClientIp] is the first entry of
    the list without its surrounding white space, whatever the other
    headers say: the header is the result between two runs of white space,
    followed by nothing or by a comma; the result holds no comma and
    neither starts nor ends with white space. *)
Theorem getClientIp_forwarded (headers : gmap string string) (forwarded : string) :
  headers !! "x-forwarded-for"%string = Some forwarded ->
  forwarded <> "" ->
  exists pre post rest,
    forwarded = pre +:+ getClientIp headers +:+ post +:+ rest
    /\ all_chars is_space pre = true
    /\ all_chars is_space post = true
    /\ (rest = "" \/ first_char rest = Some ","%char)
    /\ all_chars not_comma (getClientIp headers) = true
    /\ (forall c, first_char (getClientIp headers) = Some c -> is_space c = false)
    /\ (forall c, last_char (getClientIp headers) = Some c -> is_space c = false).
Proof.
  intros Hf Hne. unfold getClientIp. rewrite Hf.
  cbn [truthy_opt default from_option id].
  rewrite (proj2 (truthy_nonempty forwarded) Hne).
  destruct (split_by_head "," forwarded) as (x & xs & -> & Hx & Hrest).
  cbn [head fmap option_fmap option_map default from_option id].
  destruct (trim_spec x) as (pre & post & Hs & Hpre & Hpost & Hfirst & Hlast).
  assert (Hcomma : all_chars not_comma (trim x) = true).
  { rewrite Hs, !all_chars_append in Hx.
    apply andb_prop in Hx as [_ Hx]. apply andb_prop in Hx as [Hx _]. exact Hx. }
  destruct Hrest as [-> | [rest ->]].
  - exists pre, post, "". rewrite append_empty_r. repeat split; auto.
  - exists pre, post, (String "," rest). split; [|repeat split; auto].
    rewrite Hs at 1. now rewrite !append_assoc.
Qed.

(** X11. [getClientIp] returns the empty string exactly when [x-forwarded-for]
    is non-empty and begins with a blank entry: white space only, up to
    the end or up to a comma. The ["unknown"] it falls back to when the
    first entry is missing is never reached there, and the other headers
    are not consulted. *)
Theorem getClientIp_empty_iff (headers : gmap string string) :
  getClientIp headers = "" <->
  exists blank rest,
    headers !! "x-forwarded-for"%string = Some (blank +:+ rest)
    /\ blank +:+ rest <> ""
    /\ all_chars is_space blank = true
    /\ (rest = "" \/ first_char rest = Some ","%char).
Proof.
  unfold getClientIp. split.
  - destruct (headers !! "x-forwarded-for"%string) as [forwarded|] eqn:Hf;
      cbn [truthy_opt default from_option id].
    + destruct (truthy forwarded) eqn:Ht.
      * apply truthy_nonempty in Ht.
        destruct (split_by_head "," forwarded) as (x & xs & -> & Hx & Hrest).
        cbn [head fmap option_fmap option_map default from_option id].
        intros Hblank%trim_empty_iff.
        destruct Hrest as [-> | [rest ->]].
        -- exists x, "". rewrite append_empty_r. repeat split; auto.
        -- exists x, (String "," rest). repeat split; auto.
      * destruct (headers !! "x-real-ip"%string) as [[|c s]|];
          cbn [truthy_opt truthy default from_option id]; try discriminate;
          destruct (headers !! "cf-connecting-ip"%string) as [[|c' s']|];
          cbn [truthy_opt truthy default from_option id]; discriminate.
    + destruct (headers !! "x-real-ip"%string) as [[|c s]|];
        cbn [truthy_opt truthy default from_option id]; try discriminate;
        destruct (headers !! "cf-connecting-ip"%string) as [[|c' s']|];
        cbn [truthy_opt truthy default from_option id]; discriminate.
  - intros (blank & rest & -> & Hne & Hblank & Hrest).
    cbn [truthy_opt default from_option id].
    rewrite (proj2 (truthy_nonempty _) Hne).
    destruct (split_by_piece "," blank (space_is_not_comma _ Hblank)) as [H1 H2].
    destruct Hrest as [-> | Hcomma].
    + rewrite append_empty_r, H1. cbn. now apply trim_empty_iff.
    + destruct rest as [|c rest]; [discriminate|]. injection Hcomma as ->.
      rewrite H2. cbn. now apply trim_empty_iff.
Qed.

(** *** middleware.ts *)

Lemma middleware_outside_api (w : World T) request :
  startsWith (NextRequest.pathname request) "/api/" = false ->
  middleware env clock request w = (Return (NextResponse.next []), w).
Proof. unfold middleware. intros ->. reflexivity. Qed.

(** Under [/api/], [middleware] is one call of [rateLimit] for the caller's
    address under the policy of the path, and the response built from its
    answer. *)
Lemma middleware_api (w : World T) request :
  startsWith (NextRequest.pathname request) "/api/" = true ->
  middleware env clock request w =
    match rateLimit env clock (getClientIp (NextRequest.headers request))
            (middleware_policy (NextRequest.pathname request)) w with
    | (Return result, w') => (Return (response_of result), w')
    | (Throw msg, w') => (Throw msg, w')
    end.
Proof.
  unfold middleware. intros ->. cbn [negb]. fold (middleware_policy (NextRequest.pathname request)).
  run. destruct (rateLimit _ _ _ _ w) as [[result|msg] w']; [|reflexivity].
  unfold response_of, rateLimit_headers. destruct (RateLimitResult.success result); reflexivity.
Qed.

Lemma middleware_policy_window pathname :
  RateLimitConfig.windowInSeconds (middleware_policy pathname) = 60.
Proof.
  unfold middleware_policy.
  destruct (includes pathname "/api/auth"); [reflexivity|].
  destruct (includes pathname "/reservation"); reflexivity.
Qed.

Lemma middleware_policy_key pathname ip :
  rate_key ip (middleware_policy pathname) = ("mw:" +:+ ip)%string.
Proof. reflexivity. Qed.

(** X12. One counter per address, whatever the path. Within a window of 60
    seconds, a request under [/api/] from an address whose counter stands
    at [c] is answered from the count [c + 1] against the limit of its own
    path, and leaves the counter at [c + 1] for the next request of that
    address, to any path: requests to the auth, reservation and other API
    routes draw on the same count. The response passes with the three
    headers while [c + 1] does not exceed the limit of the path, and is the
    429 otherwise. On the remote store for a count that [INCR] can raise, a
    64-bit integer below the largest. *)
Theorem middleware_one_counter_per_address (w : World T) request (k c : Z) :
  startsWith (NextRequest.pathname request) "/api/" = true ->
  counter_at env w ("mw:" +:+ getClientIp (NextRequest.headers request)) 60 k c ->
  countable env c 1 ->
  readings clock (ticks w) 3 (in_window 60 k) ->
  exists w',
    middleware env clock request w =
      (Return (response_of
                 (verdict (RateLimitConfig.limit (middleware_policy (NextRequest.pathname request)))
                    (60 * (k + 1)) (c + 1))), w')
    /\ ticks w' = (ticks w + 3)%nat
    /\ counter_at env w' ("mw:" +:+ getClientIp (NextRequest.headers request)) 60 k (c + 1).
Proof.
  intros Hapi Hat Hfit Hr. rewrite (middleware_api w request Hapi).
  remember (getClientIp (NextRequest.headers request)) as ip eqn:Hip.
  assert (Hkey : rate_key ip (middleware_policy (NextRequest.pathname request))
                 = ("mw:" +:+ ip)%string) by reflexivity.
  pose proof (middleware_policy_window (NextRequest.pathname request)) as HW.
  remember (middleware_policy (NextRequest.pathname request)) as policy eqn:Hpolicy.
  destruct (rateLimit_run w ip policy k c 1) as (w' & Hrun & Ht & Hat').
  - rewrite HW. lia.
  - rewrite HW, Hkey. exact Hat.
  - exact Hfit.
  - rewrite HW. exact Hr.
  - cbn [repeatM verdicts] in Hrun. rewrite HW, Hkey in *. revert Hrun. run.
    destruct (rateLimit env clock ip policy w) as [[result|msg] w1]; [|discriminate].
    intros [= -> ->]. exists w'. split; [reflexivity|].
    split; [lia|]. exact Hat'.
Qed.

Lemma verdict_shape (limit reset count : Z) :
  RateLimitResult.limit (verdict limit reset count) = limit
  /\ (RateLimitResult.success (verdict limit reset count) = false ->
      RateLimitResult.remaining (verdict limit reset count) = 0).
Proof.
  cbn. split; [reflexivity|]. intros Hd. apply Z.leb_gt in Hd. lia.
Qed.

(** X13. Without the remote store [middleware] answers every request. Any
    list of requests served one after the other gives one response per
    request and never throws; outside [/api/] the response is the bare
    pass, under [/api/] it is built from an answer of [rateLimit] that
    carries the limit of the path's policy and has nothing remaining when
    it is the 429: the limiter is applied on the in-process map as well. *)
Theorem serve_answers_every_request (requests : list NextRequest.t) (w : World T) :
  isRedisEnabled env = false ->
  exists responses w',
    serve env clock requests w = (Return responses, w')
    /\ Forall2 response_ok requests responses.
Proof.
  intros Hoff. revert w. induction requests as [|request rest IH]; intros w.
  - exists [], w. split; [reflexivity | constructor].
  - assert (Hone : exists response w1,
               middleware env clock request w = (Return response, w1)
               /\ response_ok request response).
    { unfold response_ok.
      destruct (startsWith (NextRequest.pathname request) "/api/") eqn:Hapi.
      - rewrite (middleware_api w request Hapi).
        set (ip := getClientIp (NextRequest.headers request)).
        set (policy := middleware_policy (NextRequest.pathname request)).
        destruct (rateLimit_memory_cases w ip policy Hoff) as (r & c0 & w1 & -> & _ & Hr).
        exists (response_of r), w1. split; [reflexivity|].
        exists r. split; [reflexivity|].
        destruct Hr as [-> | [e ->]]; [|apply verdict_shape].
        cbn. split; [reflexivity | discriminate].
      - rewrite (middleware_outside_api w request Hapi).
        eexists _, w. split; reflexivity. }
    destruct Hone as (response & w1 & Hcall & Hok).
    destruct (IH w1) as (responses & w' & Hrest & Hoks).
    exists (response :: responses), w'. split.
    + cbn [serve]. run. rewrite Hcall, Hrest. reflexivity.
    + constructor; assumption.
Qed.

(** *** Patterns without a wildcard *)




(** *** A time to live that is not positive *)

Lemma fetch_and_cache_redis_rejects (w w' : World T) h fullKey ttl fetcher (d : T) :
  ttl <= 0 ->
  fetcher (with_invoked (S (invoked w)) w) = (Return d, w') ->
  exists msg w1,
    fetch_and_cache_redis stringify clock h fullKey ttl fetcher w = (Throw msg, w1)
    /\ upstash w1 = upstash w'
    /\ invoked w1 = invoked w'.
Proof.
  intros Httl Hf. unfold fetch_and_cache_redis, invoke, redis_setex, store_SETEX. run.
  rewrite Hf. fields.
  destruct (ttl <=? 0) eqn:Hle; [|apply Z.leb_gt in Hle; lia].
  eexists _, _. split; [reflexivity|]. fields. split; reflexivity.
Qed.

(** X15. With a time to live of zero or less the two backends part ways. On the
    remote store [set] throws and leaves the store as it was, and a
    [getOrSet] that finds nothing under its key throws after its producer
    has returned, the value lost and nothing stored. On the in-process map
    [set] returns and replaces the entry by one that no later [get] will
    return, whatever was kept there before. *)
Theorem nonpositive_ttl (w : World T) key value fetcher config :
  default 300 (CacheConfig.ttl config) <= 0 ->
  (isRedisEnabled env = true ->
   (exists msg w',
      set stringify env clock key value config w = (Throw msg, w')
      /\ upstash w' = upstash w)
   /\ (uncached env w (cache_key key (CacheConfig.keyPrefix config)) ->
       exists w_in,
         invoked w_in = invoked w
         /\ forall d w_out,
              fetcher (with_invoked (S (invoked w_in)) w_in) = (Return d, w_out) ->
              exists msg w',
                getOrSet stringify parse env clock key fetcher config w = (Throw msg, w')
                /\ upstash w' = upstash w_out
                /\ invoked w' = invoked w_out))
  /\ (isRedisEnabled env = false ->
      exists w',
        set stringify env clock key value config w = (Return tt, w')
        /\ forall w2 : World T,
             same_entry env w' w2 (cache_key key (CacheConfig.keyPrefix config)) ->
             clock (ticks w) <= clock (ticks w2) ->
             (get parse env clock key (CacheConfig.keyPrefix config) w2).1 = Return None).
Proof.
  intros Httl. split.
  - intros Hon. split.
    + destruct (getRedis_available w Hon) as (h & n & Hh).
      unfold set, redis_setex, store_SETEX. run. rewrite Hh. fields.
      destruct (default 300 (CacheConfig.ttl config) <=? 0) eqn:Hle;
        [|apply Z.leb_gt in Hle; lia].
      eexists _, _. split; [reflexivity|]. reflexivity.
    + intros Hun.
      destruct (uncached_is_a_miss w key fetcher config Hun)
        as (_ & h & w_in & _ & Hinv & Hcall).
      exists w_in. split; [exact Hinv|]. intros d w_out Hf.
      rewrite Hcall, Hon.
      exact (fetch_and_cache_redis_rejects w_in w_out h _ _ fetcher d Httl Hf).
  - intros Hoff. destruct (set_memory Hoff w key value config) as (c & Hset).
    eexists. split; [exact Hset|]. intros w2 Hsame Hlater.
    rewrite get_answer. unfold same_entry in Hsame. rewrite Hoff in *.
    rewrite Hsame. fields. rewrite lookup_insert_eq. cbn [CacheEntry.expiry].
    destruct (_ >? _) eqn:Hgt; [|reflexivity].
    apply Z.gtb_lt in Hgt. lia.
Qed.

(** *** One client for the rate limiter and the cache *)

Lemma getRedis_client_after (w : World T) :
  exists r w1, getRedis env w = (r, w1) /\ client_after env w w1.
Proof.
  unfold client_after. destruct (isRedisEnabled env) eqn:Hbackend.
  - destruct (redis w) as [h|] eqn:Hr.
    + exists (Return (Some h)), w. split; [now apply getRedis_reuses|]. auto.
    + destruct (url_accepted (default ""%string (Env.UPSTASH_REDIS_REST_URL env))) eqn:Hurl.
      * destruct (getRedis_constructs w Hbackend Hurl Hr) as [h Hc].
        eexists _, _. split; [exact Hc|]. fields. split; [eauto | reflexivity].
      * eexists _, _. split; [exact (getRedis_rejects w Hbackend Hurl Hr)|]. auto.
  - destruct (getRedis_unavailable w Hbackend) as [c Hc].
    eexists _, _. split; [exact Hc|]. fields. auto.
Qed.

Lemma client_after_ticks (w w1 : World T) n :
  client_after env (with_ticks n w) w1 -> client_after env w w1.
Proof. unfold client_after. now fields. Qed.

Ltac client_kept Hc :=
  unfold client_after in *; fields;
  repeat (match goal with
          | |- context [match ?x with _ => _ end] =>
              lazymatch x with
              | isRedisEnabled _ => fail
              | redis _ => fail
              | url_accepted _ => fail
              | context [match _ with _ => _ end] => fail
              | _ => destruct x
              end
          end; fields);
  try exact Hc.

(** X16. The rate limiter and the cache share the client of the process. Each
    of [rateLimit], [get], [set], [del], [delPattern] and [clear], whether
    it returns or throws, leaves the client it found in place and builds
    none; it builds one, the first, only when none is held, the remote
    store is the backend and the constructor accepts the URL. When the
    constructor does not accept the URL, no client is held afterwards
    either and none was built. *)
Theorem operations_share_the_client (w : World T) :
  (forall identifier config, client_after env w (rateLimit env clock identifier config w).2)
  /\ (forall key keyPrefix, client_after env w (get parse env clock key keyPrefix w).2)
  /\ (forall key value config, client_after env w (set stringify env clock key value config w).2)
  /\ (forall key keyPrefix, client_after env w (del env clock key keyPrefix w).2)
  /\ (forall pattern keyPrefix, client_after env w (delPattern env clock pattern keyPrefix w).2)
  /\ (forall keyPrefix, client_after env w (clear env clock keyPrefix w).2).
Proof.
  repeat split.
  - intros identifier config.
    destruct (getRedis_client_after (with_ticks (S (ticks w)) w)) as (r & w1 & Hh & Hc).
    apply client_after_ticks in Hc.
    unfold rateLimit, cleanupMemoryStore. run. rewrite Hh. fields.
    destruct r as [[h|]|msg].
    + unfold pipeline_exec, run_command. run. fields. client_kept Hc.
    + client_kept Hc.
    + exact Hc.
  - intros key keyPrefix.
    destruct (getRedis_client_after w) as (r & w1 & Hh & Hc).
    unfold get, redis_get. run. rewrite Hh. fields.
    destruct r as [[h|]|msg]; client_kept Hc.
  - intros key value config.
    destruct (getRedis_client_after w) as (r & w1 & Hh & Hc).
    unfold set, redis_setex. run. rewrite Hh. fields.
    destruct r as [[h|]|msg]; client_kept Hc.
  - intros key keyPrefix.
    destruct (getRedis_client_after w) as (r & w1 & Hh & Hc).
    unfold del, redis_del. run. rewrite Hh. fields.
    destruct r as [[h|]|msg]; client_kept Hc.
  - intros pattern keyPrefix.
    destruct (getRedis_client_after w) as (r & w1 & Hh & Hc).
    unfold delPattern, redis_keys, redis_del. run. rewrite Hh. fields.
    destruct r as [[h|]|msg]; client_kept Hc.
  - intros keyPrefix.
    destruct (getRedis_client_after w) as (r & w1 & Hh & Hc).
    unfold clear, redis_keys, redis_del. run. rewrite Hh. fields.
    destruct r as [[h|]|msg]; client_kept Hc.
Qed.

(** *** The first call, whatever the limit *)

(** X17. The first call for an identifier does not look at the limit on the
    in-process map: it is admitted with [remaining = limit - 1], also under
    a limit of zero or less, where that is negative. On the remote store it
    is judged as every other call: admitted exactly when the limit is at
    least one, with [remaining] never negative. The two backends give the
    same answer exactly when the limit is at least one. For a window that
    is not zero. *)
Theorem rateLimit_first_call_and_limit (w : World T) identifier config :
  RateLimitConfig.windowInSeconds config <> 0 ->
  fresh_identifier env w (rate_key identifier config) ->
  exists r w',
    rateLimit env clock identifier config w = (Return r, w')
    /\ RateLimitResult.reset r
         = window_end (RateLimitConfig.windowInSeconds config) (clock (ticks w))
    /\ (isRedisEnabled env = false ->
        RateLimitResult.success r = true
        /\ RateLimitResult.remaining r = RateLimitConfig.limit config - 1)
    /\ (isRedisEnabled env = true ->
        (RateLimitResult.success r = true <-> 1 <= RateLimitConfig.limit config)
        /\ RateLimitResult.remaining r = Z.max 0 (RateLimitConfig.limit config - 1)).
Proof.
  unfold fresh_identifier. intros _ Hfresh.
  destruct (isRedisEnabled env) eqn:Hbackend.
  - destruct (durable_count_absent (clock (S (ticks w))) _ _ Hfresh) as [Hc _].
    destruct (rateLimit_durable_step identifier config Hbackend w 0 Hc) as (w' & Hcall & _).
    eexists _, w'. split; [exact Hcall|]. cbn. split; [reflexivity|].
    split; [discriminate|]. intros _. split; [|reflexivity].
    apply Z.leb_le.
  - destruct (rateLimit_memory_fresh identifier config Hbackend w) as (w' & Hcall & _).
    { intros e He. rewrite Hfresh in He. discriminate. }
    eexists _, w'. split; [exact Hcall|]. cbn. split; [reflexivity|].
    split; [auto | discriminate].
Qed.

End Properties.

(** ** Concrete runs *)

Section Runs.

Lemma monotone_jump (n : nat) (t1 t2 : Z) : t1 <= t2 -> monotone (jump n t1 t2).
Proof.
  intros Hle i j Hij. unfold jump.
  destruct (i <? n)%nat eqn:Hi, (j <? n)%nat eqn:Hj; try lia.
  apply Nat.ltb_lt in Hj. apply Nat.ltb_ge in Hi. lia.
Qed.

Lemma monotone_seconds_clock : monotone seconds_clock.
Proof. intros i j Hij. unfold seconds_clock. lia. Qed.

(** Without the remote store there is no client to build; the constructor
    accepts the URL of [env_durable]. *)
Lemma available_memory : client_available env_memory.
Proof. intros H. discriminate H. Qed.

Lemma available_durable : client_available env_durable.
Proof. intros _. vm_compute. reflexivity. Qed.

(** The integer 42 survives the conversions. *)
Lemma survives_42 : survives string_of_Z decimal 42.
Proof. repeat split; vm_compute; reflexivity. Qed.

(** C1 at work on the remote store, for the key prefix of the middleware,
    all six calls at second 90. *)
Lemma rateLimit_admission_witness :
  client_available env_durable
  /\ (fresh_identifier env_durable (boot (T := Z))
    (rate_key "203.0.113.7" (RateLimitConfig.mk 5 60 (Some "mw"%string)))
  /\ readings (frozen 90000) 0 18 (in_window 60 1)
  /\ (repeatM 6 (rateLimit env_durable (frozen 90000) "203.0.113.7"
                  (RateLimitConfig.mk 5 60 (Some "mw"%string))) (boot (T := Z))).1 =
       Return [RateLimitResult.mk true 4 120 5;
               RateLimitResult.mk true 3 120 5;
               RateLimitResult.mk true 2 120 5;
               RateLimitResult.mk true 1 120 5;
               RateLimitResult.mk true 0 120 5;
               RateLimitResult.mk false 0 120 5]).
Proof.
  split; [exact available_durable|].
  assert (Hfresh : fresh_identifier env_durable (boot (T := Z))
            (rate_key "203.0.113.7" (RateLimitConfig.mk 5 60 (Some "mw"%string))))
    by reflexivity.
  assert (Hr : readings (frozen 90000) 0 18 (in_window 60 1))
    by (intros i _; unfold frozen, in_window; lia).
  split; [exact Hfresh | split; [exact Hr |]].
  exact (rateLimit_admission env_durable (frozen 90000) available_durable boot "203.0.113.7"
           (Some "mw"%string) 1 Hfresh Hr).
Defined.

(** The same six calls on the in-process map. *)
Example rateLimit_admission_memory :
  (repeatM 6 (rateLimit env_memory (frozen 90000) "203.0.113.7" defaultLimits_reservation)
     (boot (T := Z))).1 =
    Return [RateLimitResult.mk true 4 120 5;
            RateLimitResult.mk true 3 120 5;
            RateLimitResult.mk true 2 120 5;
            RateLimitResult.mk true 1 120 5;
            RateLimitResult.mk true 0 120 5;
            RateLimitResult.mk false 0 120 5].
Proof. vm_compute. reflexivity. Qed.

(** C4 at work: an identifier that has used its five requests is denied
    three more times in the same window. *)
Lemma rateLimit_denied_still_counts_witness :
  client_available env_memory
  /\ (0 < RateLimitConfig.windowInSeconds defaultLimits_reservation
  /\ counter_at env_memory (after_calls 5 30000) (rate_key "u" defaultLimits_reservation) 60 0 5
  /\ countable env_memory 5 3
  /\ readings (frozen 30000) (ticks (after_calls 5 30000)) (3 * 3) (in_window 60 0)
  /\ (repeatM 3 (rateLimit env_memory (frozen 30000) "u" defaultLimits_reservation)
        (after_calls 5 30000)).1 =
     Return (replicate 3 (RateLimitResult.mk false 0 60 5))).
Proof.
  split; [exact available_memory|].
  assert (HW : 0 < RateLimitConfig.windowInSeconds defaultLimits_reservation) by reflexivity.
  assert (Hat : counter_at env_memory (after_calls 5 30000)
                  (rate_key "u" defaultLimits_reservation)
                  (RateLimitConfig.windowInSeconds defaultLimits_reservation) 0 5)
    by (vm_compute; reflexivity).
  assert (Hr : readings (frozen 30000) (ticks (after_calls 5 30000)) (3 * 3)
                 (in_window (RateLimitConfig.windowInSeconds defaultLimits_reservation) 0))
    by (intros i _; unfold frozen, in_window; cbn; lia).
  assert (Hfit : countable env_memory 5 3) by (intros H; discriminate H).
  split; [exact HW | split; [exact Hat | split; [exact Hfit | split; [exact Hr |]]]].
  destruct (rateLimit_denied_still_counts env_memory (frozen 30000) available_memory
              (after_calls 5 30000) "u" defaultLimits_reservation 0 HW) as [Hcounts _].
  destruct (Hcounts 5 3%nat Hat Hfit Hr) as (w' & Hrun & _ & Hdenied).
  assert (Hover : RateLimitConfig.limit defaultLimits_reservation <= 5) by (cbn; lia).
  exact (Hdenied Hover).
Defined.

(** On the in-process map, one millisecond after the end of the window in
    which it was denied, the identifier is admitted again. *)
Lemma rateLimit_window_reset_witness :
  client_available env_memory
  /\ (0 < RateLimitConfig.limit defaultLimits_reservation
  /\ 0 < RateLimitConfig.windowInSeconds defaultLimits_reservation
  /\ monotone (jump 17 0 60001)
  /\ lapsed (jump 17 0 60001) env_memory (after_calls 6 0)
       (rate_key "u" defaultLimits_reservation)
  /\ (rateLimit env_memory (jump 17 0 60001) "u" defaultLimits_reservation
        (after_calls 6 0)).1 =
     Return (RateLimitResult.mk true 4 120 5)).
Proof.
  split; [exact available_memory|].
  assert (Hlimit : 0 < RateLimitConfig.limit defaultLimits_reservation) by reflexivity.
  assert (HW : 0 < RateLimitConfig.windowInSeconds defaultLimits_reservation) by reflexivity.
  assert (Hmono : monotone (jump 17 0 60001)) by (apply monotone_jump; lia).
  assert (Hlapsed : lapsed (jump 17 0 60001) env_memory (after_calls 6 0)
                      (rate_key "u" defaultLimits_reservation)).
  { intros e He. vm_compute in He. injection He as <-. vm_compute. reflexivity. }
  split; [exact Hlimit | split; [exact HW | split; [exact Hmono | split; [exact Hlapsed |]]]].
  destruct (rateLimit_window_reset env_memory (jump 17 0 60001) available_memory
              (after_calls 6 0) "u" defaultLimits_reservation Hlimit HW Hmono Hlapsed)
    as (w' & Hcall & _).
  rewrite Hcall. reflexivity.
Defined.

(** C5 fails on the remote store. The policy is
    [{limit: 5, windowInSeconds: 60}]: six calls at second 30, whose
    answers carry [reset = 60], then a call at second 61. The window from
    second 0 to second 60 has fully elapsed, but every call renewed the
    expiry of the key (to second 90 here), so the key is still there and the
    seventh call counts 7: denied, where [success] with [remaining = 4] was
    due. On the in-process map the same calls at the same instants do start
    a fresh counter; there the old counter is kept only at the very
    millisecond of its [reset] (six calls at millisecond 0, a seventh at
    millisecond 60000), the test [existing.reset < Date.now()] being
    strict. *)
Theorem rateLimit_counter_outlives_window :
  six_then_one env_durable 18 30000 61000 =
    Return [RateLimitResult.mk true 4 60 5;
            RateLimitResult.mk true 3 60 5;
            RateLimitResult.mk true 2 60 5;
            RateLimitResult.mk true 1 60 5;
            RateLimitResult.mk true 0 60 5;
            RateLimitResult.mk false 0 60 5;
            RateLimitResult.mk false 0 120 5]
  /\ six_then_one env_memory 17 30000 61000 =
       Return [RateLimitResult.mk true 4 60 5;
               RateLimitResult.mk true 3 60 5;
               RateLimitResult.mk true 2 60 5;
               RateLimitResult.mk true 1 60 5;
               RateLimitResult.mk true 0 60 5;
               RateLimitResult.mk false 0 60 5;
               RateLimitResult.mk true 4 120 5]
  /\ six_then_one env_memory 17 0 60000 =
       Return [RateLimitResult.mk true 4 60 5;
               RateLimitResult.mk true 3 60 5;
               RateLimitResult.mk true 2 60 5;
               RateLimitResult.mk true 1 60 5;
               RateLimitResult.mk true 0 60 5;
               RateLimitResult.mk false 0 60 5;
               RateLimitResult.mk false 0 60 5].
Proof. repeat split; vm_compute; reflexivity. Qed.

(** C2 fails on the remote store at a value that JavaScript takes for
    false. [set("zero", 0, {ttl: 60})] at second 0 returns and leaves the
    text [0] under [cache:zero]; a [get("zero")] one second later, with 59
    seconds of the time to live left, finds it, the client hands it over
    decoded as the number 0, [if (!cached)] takes that for a miss and [get]
    returns nothing. On the in-process map the same two calls return 0. *)
Theorem get_misses_stored_zero :
  (set string_of_Z env_durable seconds_clock "zero" 0 (CacheConfig.mk (Some 60) None)
     boot).1 = Return tt
  /\ upstash (stored_zero env_durable) !! "cache:zero"%string
       = Some (Stored.mk "0" (Some 60000))
  /\ (redis_get decimal seconds_clock (Redis.mk "https://eu1.upstash.io" "secret" 0)
        "cache:zero"
        (stored_zero env_durable)).1 = Return (Some (Decoded 0))
  /\ (get decimal env_durable seconds_clock "zero" None (stored_zero env_durable)).1
       = Return None
  /\ (get decimal env_memory seconds_clock "zero" None (stored_zero env_memory)).1
       = Return (Some 0).
Proof. repeat split; vm_compute; reflexivity. Qed.

(** C3 fails on the remote store at a value that JavaScript takes for
    false. A first [getOrSet("zero", producer, {ttl: 300})] whose producer
    returns 0 returns 0 and stores it; a second
    [getOrSet("zero", producer2, {ttl: 300})] a few seconds later, whose
    producer returns 7, reads the stored 0 decoded by the client, takes it
    for a miss, calls [producer2] and returns 7: two producers have run. On
    the in-process map the second call returns 0 and one producer has
    run. *)
Theorem getOrSet_produces_again_for_zero :
  (first_zero env_durable).1 = Return 0
  /\ invoked (first_zero env_durable).2 = 1%nat
  /\ (second_zero env_durable).1 = Return 7
  /\ invoked (second_zero env_durable).2 = 2%nat
  /\ (second_zero env_memory).1 = Return 0
  /\ invoked (second_zero env_memory).2 = 1%nat.
Proof. repeat split; vm_compute; reflexivity. Qed.

(** With [USE_REDIS] on and the URL missing, three calls of [getRedis] in
    one process give [console.warn] the warning three times, not once. *)
Lemma getRedis_warns_every_call :
  console (repeatM 3 (getRedis env_misconfigured) (boot (T := Z))).2 =
    [misconfiguration_warning; misconfiguration_warning; misconfiguration_warning]
  /\ (repeatM 3 (getRedis env_misconfigured) (boot (T := Z))).1 =
       Return [None; None; None].
Proof. split; vm_compute; reflexivity. Qed.

(** With both credentials, three calls construct one client and return it
    three times. *)
Example getRedis_singleton :
  repeatM 3 (getRedis env_durable) (boot (T := Z)) =
    (Return (replicate 3 (Some (Redis.mk "https://eu1.upstash.io" "secret" 0))),
     mkWorld 0 [] (Some (Redis.mk "https://eu1.upstash.io" "secret" 0)) 1 ∅ ∅ ∅ 0).
Proof. vm_compute. reflexivity. Qed.

(** [get] does not sweep. An entry stored under [cache:old] at millisecond 0
    with one second to live is still in the map after a [get] of another key
    at millisecond 5000, and after a [get] of its own key, which returns
    nothing; a [getOrSet] at the same instant does remove it. *)
Lemma get_leaves_expired_entries :
  memoryCache stale_cache !! "cache:old"%string = Some (CacheEntry.mk 7 1000)
  /\ memoryCache (get decimal env_memory stale_clock "other" None stale_cache).2
       !! "cache:old"%string = Some (CacheEntry.mk 7 1000)
  /\ get decimal env_memory stale_clock "old" None stale_cache
       = (Return None, with_ticks 2 stale_cache)
  /\ memoryCache (getOrSet string_of_Z decimal env_memory stale_clock "other"
                    (mret 1) (CacheConfig.mk None None) stale_cache).2
       !! "cache:old"%string = None.
Proof. repeat split; vm_compute; reflexivity. Qed.

(** C9 at work: the map is the same before and after a [get]. *)
Lemma cache_sweep_on_getOrSet_witness :
  isRedisEnabled env_memory = false
  /\ memoryCache (get decimal env_memory stale_clock "old" None stale_cache).2
     = memoryCache stale_cache.
Proof.
  assert (Hoff : isRedisEnabled env_memory = false) by reflexivity.
  split; [exact Hoff|].
  destruct (cache_sweep_on_getOrSet string_of_Z decimal env_memory stale_clock
              stale_cache "old" Hoff) as (_ & Hget & _).
  apply Hget.
Defined.

(** A counter created under windows of one hour and then used under windows
    of one minute, both calls at second 1: the second call answers
    [reset = 3600], which is beyond [now + windowInSeconds = 61]. *)
Lemma rateLimit_reset_beyond_window :
  (rateLimit env_memory (frozen 1000) "u" (RateLimitConfig.mk 5 60 None)
     (rateLimit env_memory (frozen 1000) "u" (RateLimitConfig.mk 5 3600 None)
        (boot (T := Z))).2).1 =
    Return (RateLimitResult.mk true 3 3600 5)
  /\ ~ 3600 <= frozen 1000 0%nat / 1000 + 60.
Proof. split; [vm_compute; reflexivity | vm_compute; intros H; apply H; reflexivity]. Qed.

(** C10 at work: the sixth call of the window, on the in-process map. *)
Lemma rateLimit_result_shape_witness :
  client_available env_memory
  /\ (0 < RateLimitConfig.limit defaultLimits_reservation
  /\ 0 < RateLimitConfig.windowInSeconds defaultLimits_reservation
  /\ monotone (frozen 30000)
  /\ counter_wf (frozen 30000) env_memory 60 (after_calls 5 30000)
       (rate_key "u" defaultLimits_reservation)
  /\ exists r,
       (rateLimit env_memory (frozen 30000) "u" defaultLimits_reservation
          (after_calls 5 30000)).1 = Return r
       /\ RateLimitResult.limit r = 5
       /\ 0 <= RateLimitResult.remaining r
       /\ 30 <= RateLimitResult.reset r <= 30 + 60
       /\ RateLimitResult.reset r = 60).
Proof.
  split; [exact available_memory|].
  assert (Hlimit : 0 < RateLimitConfig.limit defaultLimits_reservation) by reflexivity.
  assert (HW : 0 < RateLimitConfig.windowInSeconds defaultLimits_reservation) by reflexivity.
  assert (Hmono : monotone (frozen 30000)) by (intros i j _; unfold frozen; lia).
  assert (Hwf : counter_wf (frozen 30000) env_memory
                  (RateLimitConfig.windowInSeconds defaultLimits_reservation)
                  (after_calls 5 30000) (rate_key "u" defaultLimits_reservation)).
  { intros e He. vm_compute in He. injection He as <-. exists 0%nat.
    split; [vm_compute; lia | vm_compute; reflexivity]. }
  split; [exact Hlimit | split; [exact HW | split; [exact Hmono | split; [exact Hwf |]]]].
  destruct (rateLimit_result_shape env_memory (frozen 30000) available_memory (after_calls 5 30000) "u"
              defaultLimits_reservation Hlimit HW Hmono Hwf)
    as (r & w' & count & Hcall & _ & Hl & _ & Hrem & Hreset & (j & _ & Hend) & _).
  exists r. rewrite Hcall. split; [reflexivity|]. split; [exact Hl|]. split; [exact Hrem|].
  split; [exact Hreset|]. rewrite Hend. vm_compute. reflexivity.
Defined.

(** On the remote store the value 42, stored at second 0 with one minute to
    live, is read back at second 1. *)
Lemma cache_ttl_expiry_witness :
  client_available env_durable
  /\ ((set string_of_Z env_durable seconds_clock "cars:7" 42
     (CacheConfig.mk (Some 60) None) boot).1 = Return tt
  /\ (isRedisEnabled env_durable = true -> survives string_of_Z decimal 42)
  /\ same_entry env_durable stored_42 stored_42 (cache_key "cars:7" None)
  /\ (get decimal env_durable seconds_clock "cars:7" None stored_42).1 = Return (Some 42)).
Proof.
  split; [exact available_durable|].
  assert (Hset : (set string_of_Z env_durable seconds_clock "cars:7" 42
                    (CacheConfig.mk (Some 60) None) boot).1 = Return tt)
    by (vm_compute; reflexivity).
  assert (Hjson : isRedisEnabled env_durable = true -> survives string_of_Z decimal 42)
    by (intros _; exact survives_42).
  assert (Hsame : same_entry env_durable
            (set string_of_Z env_durable seconds_clock "cars:7" 42
               (CacheConfig.mk (Some 60) None) boot).2
            stored_42
            (cache_key "cars:7" (CacheConfig.keyPrefix (CacheConfig.mk (Some 60) None))))
    by reflexivity.
  split; [exact Hset | split; [exact Hjson | split; [exact Hsame |]]].
  destruct (cache_ttl_expiry string_of_Z decimal env_durable seconds_clock available_durable boot stored_42
              "cars:7" 42 (CacheConfig.mk (Some 60) None) Hset Hjson Hsame) as [Hlive _].
  apply Hlive. vm_compute. reflexivity.
Defined.

(** The same value is gone at second 60 and after. *)
Example cache_ttl_expiry_gone :
  (get decimal env_durable (frozen 59999) "cars:7" None stored_42).1 = Return (Some 42)
  /\ (get decimal env_durable (frozen 60000) "cars:7" None stored_42).1 = Return None
  /\ (get decimal env_memory (jump 1 0 59999) "cars:7" None
        (set string_of_Z env_memory (jump 1 0 59999) "cars:7" 42
           (CacheConfig.mk (Some 60) None) boot).2).1 = Return (Some 42)
  /\ (get decimal env_memory (jump 1 0 60000) "cars:7" None
        (set string_of_Z env_memory (jump 1 0 60000) "cars:7" 42
           (CacheConfig.mk (Some 60) None) boot).2).1 = Return None.
Proof. repeat split; vm_compute; reflexivity. Qed.

(** On the remote store, after a first [getOrSet] has produced 42 and
    stored it at second 1, a second one at second 2 returns 42 although its
    producer would throw. *)
Lemma getOrSet_produces_once_witness :
  client_available env_durable
  /\ (getOrSet string_of_Z decimal env_durable seconds_clock "cars:7" (mret 42)
    (CacheConfig.mk (Some 300) None) boot = (Return 42, first_getOrSet.2)
  /\ (isRedisEnabled env_durable = true -> survives string_of_Z decimal 42)
  /\ same_entry env_durable first_getOrSet.2 first_getOrSet.2 (cache_key "cars:7" None)
  /\ readings seconds_clock (ticks first_getOrSet.2) 2
       (cached_at env_durable first_getOrSet.2 (cache_key "cars:7" None))
  /\ (getOrSet string_of_Z decimal env_durable seconds_clock "cars:7"
        (throw "the producer ran") (CacheConfig.mk (Some 300) None) first_getOrSet.2).1
     = Return 42).
Proof.
  split; [exact available_durable|].
  assert (Hfirst : getOrSet string_of_Z decimal env_durable seconds_clock "cars:7"
                     (mret 42) (CacheConfig.mk (Some 300) None) boot
                   = (Return 42, first_getOrSet.2)) by (vm_compute; reflexivity).
  assert (Hjson : isRedisEnabled env_durable = true -> survives string_of_Z decimal 42)
    by (intros _; exact survives_42).
  assert (Hsame : same_entry env_durable first_getOrSet.2 first_getOrSet.2
                    (cache_key "cars:7" None))
    by reflexivity.
  assert (Hr : readings seconds_clock (ticks first_getOrSet.2) 2
                 (cached_at env_durable first_getOrSet.2 (cache_key "cars:7" None))).
  { intros i Hi. change (ticks first_getOrSet.2) with 2%nat in Hi.
    exists (Stored.mk "42" (Some 301000)). split; [vm_compute; reflexivity|].
    unfold live, seconds_clock. cbn [Stored.expireAt]. apply Z.ltb_lt. lia. }
  split; [exact Hfirst | split; [exact Hjson | split; [exact Hsame | split; [exact Hr |]]]].
  destruct (getOrSet_produces_once string_of_Z decimal env_durable seconds_clock available_durable
              boot first_getOrSet.2 first_getOrSet.2 "cars:7" (mret 42)
              (throw "the producer ran") None 42
              Hfirst Hjson Hsame Hr) as [(w2' & Hsecond & _) _].
  rewrite Hsecond. reflexivity.
Defined.

(** The same on the in-process map, and past the 300 seconds the producer
    runs again. *)
Example getOrSet_produces_once_memory :
  (getOrSet string_of_Z decimal env_memory seconds_clock "cars:7" (throw "the producer ran")
     (CacheConfig.mk (Some 300) None)
     (getOrSet string_of_Z decimal env_memory seconds_clock "cars:7" (mret 42)
        (CacheConfig.mk (Some 300) None) boot).2).1 = Return 42
  /\ (getOrSet string_of_Z decimal env_memory (jump 3 0 300000) "cars:7" (mret 43)
        (CacheConfig.mk (Some 300) None)
        (getOrSet string_of_Z decimal env_memory (jump 3 0 300000) "cars:7" (mret 42)
           (CacheConfig.mk (Some 300) None) boot).2).1 = Return 43.
Proof. split; vm_compute; reflexivity. Qed.


(** The example of the pattern delete, read back through [get], on both
    backends. *)
Example delPattern_example :
  after_delPattern env_memory = Return [None; None; Some 3]
  /\ after_delPattern env_durable = Return [None; None; Some 3].
Proof. split; vm_compute; reflexivity. Qed.

(** A key prefix that holds a [*]: the in-process map removes the first
    [*] of the whole pattern, the one of the prefix. *)
Example delPattern_star_in_prefix :
  replace "*" "" (cache_key "a:*" (Some "c*"%string)) = "c:a:*"%string.
Proof. reflexivity. Qed.


(** C7 at work: a payload that is not an integer is read as nothing, and
    [getOrSet] produces, stores and returns 42. *)
Lemma cache_malformed_payload_witness :
  client_available env_durable
  /\ (isRedisEnabled env_durable = true
  /\ store_GET (seconds_clock (ticks garbled)) (upstash garbled) (cache_key "cars:7" None)
     = Some "{oops"%string
  /\ decimal "{oops" = None
  /\ (get decimal env_durable seconds_clock "cars:7" None garbled).1 = Return None
  /\ (getOrSet string_of_Z decimal env_durable seconds_clock "cars:7" (mret 42)
        (CacheConfig.mk (Some 60) None) garbled).1 = Return 42).
Proof.
  split; [exact available_durable|].
  assert (Hon : isRedisEnabled env_durable = true) by reflexivity.
  assert (Hget : store_GET (seconds_clock (ticks garbled)) (upstash garbled)
                   (cache_key "cars:7" None) = Some "{oops"%string)
    by (vm_compute; reflexivity).
  assert (Hparse : decimal "{oops" = None) by reflexivity.
  split; [exact Hon | split; [exact Hget | split; [exact Hparse |]]].
  destruct (cache_malformed_payload string_of_Z decimal env_durable seconds_clock available_durable
              garbled "cars:7" None "{oops" Hon Hget Hparse) as [Hnone Hproduce].
  split; [exact Hnone|].
  destruct (Hproduce (mret 42) (Some 60)) as (h & w_in & _ & _ & _ & _ & _ & Hstore).
  rewrite (Hstore 42 _ ltac:(cbn; lia) eq_refl). reflexivity.
Defined.

(** *** Further properties at work *)

(** A [set] under the prefix [v2] does not show under the default prefix:
    [cache:cars:7] still reads 42. *)
Lemma cache_namespace_isolation_witness :
  client_available env_durable
  /\ ((("cars:7"%string = "cars:7"%string
    /\ default "cache"%string (Some "v2"%string) <> default "cache"%string None)
   \/ (default "cache"%string (Some "v2"%string) = default "cache"%string None
       /\ "cars:7"%string <> "cars:7"%string))
  /\ (get decimal env_durable seconds_clock "cars:7" None
        (set string_of_Z env_durable seconds_clock "cars:7" 43
           (CacheConfig.mk (Some 60) (Some "v2"%string)) stored_42).2).1
     = Return (Some 42)).
Proof.
  split; [exact available_durable|].
  assert (H : ("cars:7"%string = "cars:7"%string
               /\ default "cache"%string (Some "v2"%string) <> default "cache"%string None)
              \/ (default "cache"%string (Some "v2"%string) = default "cache"%string None
                  /\ "cars:7"%string <> "cars:7"%string))
    by (left; split; [reflexivity | discriminate]).
  split; [exact H|].
  rewrite (cache_namespace_isolation string_of_Z decimal env_durable seconds_clock available_durable
             stored_42 "cars:7" "cars:7" 43 (Some 60) (Some "v2"%string) None H).
  vm_compute. reflexivity.
Defined.

(** A producer that throws on an empty cache: [getOrSet] throws the same. *)
Lemma getOrSet_producer_throws_witness :
  client_available env_memory
  /\ (uncached env_memory (boot (T := Z)) (cache_key "cars:7" None)
  /\ (getOrSet string_of_Z decimal env_memory seconds_clock "cars:7"
        (throw "db down") (CacheConfig.mk None None) boot).1 = Throw "db down").
Proof.
  split; [exact available_memory|].
  assert (H : uncached env_memory (boot (T := Z))
                (cache_key "cars:7" (CacheConfig.keyPrefix (CacheConfig.mk None None))))
    by reflexivity.
  split; [exact H|].
  destruct (getOrSet_producer_throws string_of_Z decimal env_memory seconds_clock available_memory
              boot "cars:7" (throw "db down") (CacheConfig.mk None None) H)
    as (w_in & _ & _ & Hthrow).
  rewrite (Hthrow "db down"%string _ eq_refl). reflexivity.
Defined.

(** After [set("cars:7", 42, {ttl: 60})], a [getOrSet] one second later
    returns 42 and leaves its producer alone. *)
Lemma set_then_getOrSet_witness :
  client_available env_durable
  /\ ((set string_of_Z env_durable seconds_clock "cars:7" 42
     (CacheConfig.mk (Some 60) None) boot).1 = Return tt
  /\ (isRedisEnabled env_durable = true -> survives string_of_Z decimal 42)
  /\ same_entry env_durable stored_42 stored_42 (cache_key "cars:7" None)
  /\ readings seconds_clock (ticks stored_42) 2
       (fun t => t - seconds_clock (ticks (boot (T := Z))) < 60 * 1000)
  /\ (getOrSet string_of_Z decimal env_durable seconds_clock "cars:7"
        (throw "the producer ran") (CacheConfig.mk None None) stored_42).1 = Return 42).
Proof.
  split; [exact available_durable|].
  assert (Hset : (set string_of_Z env_durable seconds_clock "cars:7" 42
                    (CacheConfig.mk (Some 60) None) boot).1 = Return tt)
    by (vm_compute; reflexivity).
  assert (Hjson : isRedisEnabled env_durable = true -> survives string_of_Z decimal 42)
    by (intros _; exact survives_42).
  assert (Hsame : same_entry env_durable
            (set string_of_Z env_durable seconds_clock "cars:7" 42
               (CacheConfig.mk (Some 60) None) boot).2
            stored_42
            (cache_key "cars:7" (CacheConfig.keyPrefix (CacheConfig.mk (Some 60) None))))
    by reflexivity.
  assert (Hr : readings seconds_clock (ticks stored_42) 2
                 (fun t => t - seconds_clock (ticks (boot (T := Z)))
                           < default 300 (CacheConfig.ttl (CacheConfig.mk (Some 60) None)) * 1000)).
  { intros i Hi. change (ticks stored_42) with 1%nat in Hi.
    unfold seconds_clock. cbn. lia. }
  split; [exact Hset | split; [exact Hjson | split; [exact Hsame | split; [exact Hr |]]]].
  destruct (set_then_getOrSet string_of_Z decimal env_durable seconds_clock available_durable
              boot stored_42 "cars:7" 42 (CacheConfig.mk (Some 60) None)
              (throw "the producer ran") None Hset Hjson Hsame Hr) as (w2' & Hcall & _).
  cbn [CacheConfig.keyPrefix] in Hcall. rewrite Hcall. reflexivity.
Defined.

(** On the in-process map [clear()] and [delPattern("*")] do the same to
    the three keys of the example. *)
Lemma clear_is_delPattern_star_witness :
  client_available env_memory
  /\ ((isRedisEnabled env_memory = false -> all_chars not_star (default "cache"%string None) = true)
  /\ clear env_memory seconds_clock None (three_keys env_memory)
     = delPattern env_memory seconds_clock "*" None (three_keys env_memory)).
Proof.
  split; [exact available_memory|].
  assert (H : isRedisEnabled env_memory = false ->
              all_chars not_star (default "cache"%string None) = true)
    by (intros _; reflexivity).
  split; [exact H|].
  exact (clear_is_delPattern_star env_memory seconds_clock available_memory (three_keys env_memory) None H).
Defined.


(** The sixth call of a window under the reservation policy: denied, with
    nothing remaining. *)
Lemma rateLimit_denial_has_nothing_left_witness :
  client_available env_memory
  /\ (rateLimit env_memory (frozen 30000) "u" defaultLimits_reservation (after_calls 5 30000)
    = (Return (RateLimitResult.mk false 0 60 5),
       (rateLimit env_memory (frozen 30000) "u" defaultLimits_reservation
          (after_calls 5 30000)).2)
  /\ RateLimitResult.limit (RateLimitResult.mk false 0 60 5)
       = RateLimitConfig.limit defaultLimits_reservation
  /\ (RateLimitResult.success (RateLimitResult.mk false 0 60 5) = false ->
      RateLimitResult.remaining (RateLimitResult.mk false 0 60 5) = 0)
  /\ (0 < RateLimitResult.remaining (RateLimitResult.mk false 0 60 5) ->
      RateLimitResult.success (RateLimitResult.mk false 0 60 5) = true)).
Proof.
  split; [exact available_memory|].
  assert (H : rateLimit env_memory (frozen 30000) "u" defaultLimits_reservation
                (after_calls 5 30000)
              = (Return (RateLimitResult.mk false 0 60 5),
                 (rateLimit env_memory (frozen 30000) "u" defaultLimits_reservation
                    (after_calls 5 30000)).2))
    by (vm_compute; reflexivity).
  split; [exact H|].
  exact (rateLimit_denial_has_nothing_left env_memory (frozen 30000) available_memory (after_calls 5 30000) _
           "u" defaultLimits_reservation _ H).
Defined.

(** A call for ["v"] leaves the counter of ["u"] at 5. *)
Lemma rateLimit_other_identifiers_witness :
  client_available env_memory
  /\ ("u"%string <> "v"%string
  /\ RateLimitConfig.keyPrefix defaultLimits_reservation
       = RateLimitConfig.keyPrefix defaultLimits_reservation
  /\ memoryStore (rateLimit env_memory (frozen 30000) "v" defaultLimits_reservation
                    (after_calls 5 30000)).2
       !! rate_key "u" defaultLimits_reservation
     = Some (Counter.mk 5 60000)).
Proof.
  split; [exact available_memory|].
  assert (Hne : "u"%string <> "v"%string) by discriminate.
  split; [exact Hne | split; [reflexivity|]].
  apply (proj2 (rateLimit_other_identifiers env_memory (frozen 30000) available_memory (after_calls 5 30000)
                  "v" "u" defaultLimits_reservation defaultLimits_reservation Hne eq_refl)
           eq_refl (Counter.mk 5 60000)).
  split; [vm_compute; reflexivity|].
  apply Z.leb_le. vm_compute. reflexivity.
Defined.

(** The address of a proxied request holds no comma. *)
Lemma getClientIp_forwarded_witness :
  proxied !! "x-forwarded-for"%string = Some " 203.0.113.7 , 10.0.0.1"%string
  /\ " 203.0.113.7 , 10.0.0.1"%string <> ""%string
  /\ getClientIp proxied = "203.0.113.7"%string
  /\ all_chars not_comma (getClientIp proxied) = true.
Proof.
  assert (Hf : proxied !! "x-forwarded-for"%string = Some " 203.0.113.7 , 10.0.0.1"%string)
    by (vm_compute; reflexivity).
  assert (Hne : " 203.0.113.7 , 10.0.0.1"%string <> ""%string) by discriminate.
  split; [exact Hf | split; [exact Hne | split; [vm_compute; reflexivity|]]].
  destruct (getClientIp_forwarded proxied _ Hf Hne)
    as (pre & post & rest & _ & _ & _ & _ & Hcomma & _).
  exact Hcomma.
Defined.

(** Five requests to [/api/cars] use up the five of [/api/reservation]:
    the first request there from the same address is the 429. *)
Lemma middleware_one_counter_per_address_witness :
  client_available env_memory
  /\ (startsWith (NextRequest.pathname (api_request "/api/reservation")) "/api/" = true
  /\ counter_at env_memory after_requests
       ("mw:" +:+ getClientIp (NextRequest.headers (api_request "/api/reservation"))) 60 1 5
  /\ countable env_memory 5 1
  /\ readings (frozen 90000) (ticks after_requests) 3 (in_window 60 1)
  /\ (middleware env_memory (frozen 90000) (api_request "/api/reservation") after_requests).1
     = Return (NextResponse.json "Too many requests. Please try again later." 429
                 [("X-RateLimit-Limit"%string, "5"%string);
                  ("X-RateLimit-Remaining"%string, "0"%string);
                  ("X-RateLimit-Reset"%string, "120"%string)])).
Proof.
  split; [exact available_memory|].
  assert (Hapi : startsWith (NextRequest.pathname (api_request "/api/reservation")) "/api/"
                 = true) by reflexivity.
  assert (Hat : counter_at env_memory after_requests
                  ("mw:" +:+ getClientIp (NextRequest.headers (api_request "/api/reservation")))
                  60 1 5) by (vm_compute; reflexivity).
  assert (Hr : readings (frozen 90000) (ticks after_requests) 3 (in_window 60 1))
    by (intros i _; unfold frozen, in_window; lia).
  assert (Hfit : countable env_memory 5 1) by (intros H; discriminate H).
  split; [exact Hapi | split; [exact Hat | split; [exact Hfit | split; [exact Hr|]]]].
  destruct (middleware_one_counter_per_address env_memory (frozen 90000) available_memory
              after_requests (api_request "/api/reservation") 1 5 Hapi Hat Hfit Hr)
    as (w' & Hcall & _).
  rewrite Hcall. vm_compute. reflexivity.
Defined.

(** From a fresh start without the remote store, three requests get three
    responses. *)
Lemma serve_answers_every_request_witness :
  isRedisEnabled env_memory = false
  /\ exists responses w',
       serve env_memory (frozen 90000)
         [api_request "/api/auth/login"; api_request "/about"; api_request "/api/cars"]
         (boot (T := Z)) = (Return responses, w')
       /\ Forall2 response_ok
            [api_request "/api/auth/login"; api_request "/about"; api_request "/api/cars"]
            responses.
Proof.
  assert (H : isRedisEnabled env_memory = false) by reflexivity.
  split; [exact H|].
  exact (serve_answers_every_request env_memory (frozen 90000)
           [api_request "/api/auth/login"; api_request "/about"; api_request "/api/cars"]
           boot H).
Defined.


(** [set] with [{ttl: 0}] on the remote store throws and leaves the 42
    where it was. *)
Lemma nonpositive_ttl_witness :
  client_available env_durable
  /\ (default 300 (CacheConfig.ttl (CacheConfig.mk (Some 0) None)) <= 0
  /\ exists msg w',
       set string_of_Z env_durable seconds_clock "cars:7" 43 (CacheConfig.mk (Some 0) None)
         stored_42 = (Throw msg, w')
       /\ upstash w' = upstash stored_42).
Proof.
  split; [exact available_durable|].
  assert (H : default 300 (CacheConfig.ttl (CacheConfig.mk (Some 0) None)) <= 0)
    by (cbn; lia).
  split; [exact H|].
  exact (proj1 (proj1 (nonpositive_ttl string_of_Z decimal env_durable seconds_clock
                         available_durable stored_42 "cars:7" 43 (throw "unused")
                         (CacheConfig.mk (Some 0) None) H)
                  eq_refl)).
Defined.

(** Under a limit of zero the first call is admitted on the in-process
    map, with [remaining = -1]. *)
Lemma rateLimit_first_call_and_limit_witness :
  client_available env_memory
  /\ (RateLimitConfig.windowInSeconds (RateLimitConfig.mk 0 60 None) <> 0
  /\ fresh_identifier env_memory (boot (T := Z)) (rate_key "u" (RateLimitConfig.mk 0 60 None))
  /\ exists r w',
       rateLimit env_memory (frozen 90000) "u" (RateLimitConfig.mk 0 60 None) (boot (T := Z))
         = (Return r, w')
       /\ RateLimitResult.success r = true
       /\ RateLimitResult.remaining r = -1).
Proof.
  split; [exact available_memory|].
  assert (HW : RateLimitConfig.windowInSeconds (RateLimitConfig.mk 0 60 None) <> 0)
    by (cbn; lia).
  assert (H : fresh_identifier env_memory (boot (T := Z))
                (rate_key "u" (RateLimitConfig.mk 0 60 None))) by reflexivity.
  split; [exact HW | split; [exact H|]].
  destruct (rateLimit_first_call_and_limit env_memory (frozen 90000) available_memory boot "u"
              (RateLimitConfig.mk 0 60 None) HW H) as (r & w' & Hcall & _ & Hm & _).
  exists r, w'. split; [exact Hcall|]. exact (Hm eq_refl).
Defined.

(** [del("cars:7")] on the remote store: nothing is kept under the key
    afterwards. *)
Lemma del_forgets_witness :
  client_available env_durable
  /\ exists w',
       del env_durable seconds_clock "cars:7" None stored_42 = (Return tt, w')
       /\ uncached env_durable w' (cache_key "cars:7" None).
Proof.
  split; [exact available_durable|].
  destruct (del_forgets decimal env_durable seconds_clock available_durable stored_42
              "cars:7" None) as (w' & Hcall & Hgone & _).
  exists w'. split; [exact Hcall | exact Hgone].
Defined.

(** A [get] leaves the remote store as it found it. *)
Lemma reads_keep_entries_witness :
  client_available env_durable
  /\ upstash (get decimal env_durable seconds_clock "cars:7" None stored_42).2
     = upstash stored_42.
Proof.
  split; [exact available_durable|].
  exact (proj2 (proj1 (reads_keep_entries string_of_Z decimal env_durable seconds_clock
                         available_durable stored_42 "cars:7" (throw "unused")
                         (CacheConfig.mk None None)))).
Defined.

(** With a URL that the constructor of the client does not accept, a call
    of [rateLimit] throws the constructor's error, holds no client
    afterwards and leaves the remote store alone. *)
Example rateLimit_with_malformed_url :
  rateLimit env_malformed (frozen 0) "u" defaultLimits_api (boot (T := Z))
    = (Throw "UrlError", with_ticks 1 boot).
Proof. vm_compute. reflexivity. Qed.

End Runs.
